(** * LL-iteration-3: the problem-submission pipeline

    A shallow embedding of the submission hook ([useProblemSubmission]:
    [submitProblem], [pollForCompletion]), of the validation utilities
    ([isValidUUID], [validateUUID], [sanitizeInput], [generateUUID]) and of
    the [submit-problem] edge function ([serve]), followed by the properties
    the specification states about them.

    JavaScript strings are sequences of UTF-16 code units; JSON values are a
    small inductive type; regular expressions are run by a backtracking
    matcher that follows the ECMAScript pattern semantics; asynchronous code
    is modelled by explicit state passing over a world that records the
    network effects and the pending timers, with the answers of the external
    collaborators supplied by an environment. *)

From Stdlib Require Import List NArith ZArith QArith Bool String Ascii Lia.
From Stdlib Require Import DecimalString.
Import ListNotations.

Set Warnings "-register-all".

(* ===================================================================== *)
(** * JavaScript strings *)
(* ===================================================================== *)

Module Js.

(** A string is a list of UTF-16 code units. *)
Definition str := list N.

(** String literals of the source, all of them ASCII. *)
Definition lit (s : string) : str :=
  List.map N_of_ascii (list_ascii_of_string s).

Fixpoint str_eqb (a b : str) : bool :=
  match a, b with
  | [], [] => true
  | x :: a', y :: b' => N.eqb x y && str_eqb a' b'
  | _, _ => false
  end.

(** WhiteSpace and LineTerminator code points: what [String.prototype.trim]
    strips and what the pattern class [\s] contains. *)
Definition is_space (c : N) : bool :=
  ((9 <=? c) && (c <=? 13) || (c =? 32) || (c =? 160) || (c =? 5760)
   || (8192 <=? c) && (c <=? 8202) || (c =? 8232) || (c =? 8233)
   || (c =? 8239) || (c =? 8287) || (c =? 12288) || (c =? 65279))%N.

Fixpoint trimStart (s : str) : str :=
  match s with
  | c :: s' => if is_space c then trimStart s' else s
  | [] => []
  end.

Definition trimEnd (s : str) : str := rev (trimStart (rev s)).

Definition trim (s : str) : str := trimEnd (trimStart s).

Fixpoint starts_with (p s : str) : bool :=
  match p, s with
  | [], _ => true
  | x :: p', y :: s' => N.eqb x y && starts_with p' s'
  | _ :: _, [] => false
  end.

(** [hay.includes(needle)] *)
Fixpoint includes (hay needle : str) : bool :=
  starts_with needle hay ||
  match hay with
  | [] => false
  | _ :: hay' => includes hay' needle
  end.

(** [s.split(sep)] for a one-unit separator. *)
Fixpoint split (sep : N) (s : str) : list str :=
  match s with
  | [] => [[]]
  | c :: s' =>
      if N.eqb c sep then [] :: split sep s'
      else match split sep s' with
           | l :: ls => (c :: l) :: ls
           | [] => [[c]]
           end
  end.

(** Decimal digits of a non-negative integer, most significant first. *)
Fixpoint digits_of (radix : N) (fuel : nat) (n : N) (acc : str) : str :=
  match fuel with
  | O => acc
  | S fuel' =>
      let d := (n mod radix)%N in
      let c := (if d <? 10 then 48 + d else 87 + d)%N in
      if (n / radix =? 0)%N then c :: acc
      else digits_of radix fuel' (n / radix)%N (c :: acc)
  end.

(** [Number.prototype.toString(radix)] on an integer. *)
Definition toString_radix (radix : N) (v : Z) : str :=
  let n := Z.abs_N v in
  let ds := digits_of radix (S (N.size_nat n)) n [] in
  if (v <? 0)%Z then 45%N :: ds else ds.

End Js.

Import Js.

(* ===================================================================== *)
(** * JSON values *)
(* ===================================================================== *)

Module Json.

(** The values that cross the wire or sit in a row.  A number is an
    integer here: the flow only tests numbers for truthiness and for
    equality with an HTTP status code. *)
Inductive JsVal :=
| JUndefined
| JNull
| JBool (b : bool)
| JNum (z : Z)
| JStr (s : str)
| JArr (items : list JsVal)
| JObj (fields : list (string * JsVal)).

(** ToBoolean *)
Definition truthy (v : JsVal) : bool :=
  match v with
  | JUndefined | JNull => false
  | JBool b => b
  | JNum z => negb (z =? 0)%Z
  | JStr s => match s with [] => false | _ => true end
  | JArr _ | JObj _ => true
  end.

(** [a || b] *)
Definition jor (a b : JsVal) : JsVal := if truthy a then a else b.

Fixpoint assoc (k : string) (fs : list (string * JsVal)) : option JsVal :=
  match fs with
  | [] => None
  | (k', v) :: fs' => if String.eqb k k' then Some v else assoc k fs'
  end.

(** Property read [v.k] on a value that is not null or undefined.  The
    names read by this code are no index and no built-in of arrays,
    strings, numbers or booleans, so only an object can hold them. *)
Definition get (k : string) (v : JsVal) : JsVal :=
  match v with
  | JObj fs => match assoc k fs with Some x => x | None => JUndefined end
  | _ => JUndefined
  end.

Definition is_nullish (v : JsVal) : bool :=
  match v with JUndefined | JNull => true | _ => false end.

(** [typeof v === 'object' && v !== null] *)
Definition is_object (v : JsVal) : bool :=
  match v with JObj _ | JArr _ => true | _ => false end.

(** [Array.isArray(v)] *)
Definition isArray (v : JsVal) : bool :=
  match v with JArr _ => true | _ => false end.

(** [v === 'literal'] *)
Definition is_str (v : JsVal) (s : str) : bool :=
  match v with JStr s' => str_eqb s' s | _ => false end.

(** [v === n] for a number literal *)
Definition is_num (v : JsVal) (n : Z) : bool :=
  match v with JNum z => (z =? n)%Z | _ => false end.

Fixpoint join (sep : str) (l : list str) : str :=
  match l with
  | [] => []
  | [s] => s
  | s :: l' => s ++ sep ++ join sep l'
  end.

(** ToString, as a coercion applies it when a value of type [any] is
    passed where a string is expected.  Two cases of the language are
    outside this function, and only the wording of error texts depends on
    them: a number of magnitude 1e21 or more, which JavaScript prints with
    an exponent and which is printed in decimal here, and an object with a
    property of its own named [toString], on which the coercion throws a
    [TypeError] and which reads as any other object here. *)
Fixpoint ToString (v : JsVal) : str :=
  match v with
  | JUndefined => lit "undefined"
  | JNull => lit "null"
  | JBool true => lit "true"
  | JBool false => lit "false"
  | JNum z => toString_radix 10 z
  | JStr s => s
  | JArr items =>
      join (lit ",")
        (List.map (fun e => if is_nullish e then [] else ToString e) items)
  | JObj _ => lit "[object Object]"
  end.

(** What is left of a value once it has been through [JSON.stringify] and
    [JSON.parse]: a property whose value is [undefined] is dropped from its
    object, an [undefined] array element becomes [null]. *)
Fixpoint wire (v : JsVal) : JsVal :=
  match v with
  | JArr items =>
      JArr (List.map (fun e => match e with
                               | JUndefined => JNull
                               | _ => wire e
                               end) items)
  | JObj fs =>
      JObj ((fix go (fs : list (string * JsVal)) : list (string * JsVal) :=
               match fs with
               | [] => []
               | (k, JUndefined) :: fs' => go fs'
               | (k, x) :: fs' => (k, wire x) :: go fs'
               end) fs)
  | _ => v
  end.

(** Object spread [{...a, k: v}]: the later property wins. *)
Fixpoint set_field (k : string) (v : JsVal) (fs : list (string * JsVal))
  : list (string * JsVal) :=
  match fs with
  | [] => [(k, v)]
  | (k', x) :: fs' =>
      if String.eqb k k' then (k, v) :: fs' else (k', x) :: set_field k v fs'
  end.

(** The name of the property that holds the element of index [i]. *)
Definition index_key (i : nat) : string :=
  NilZero.string_of_uint (Nat.to_uint i).

Fixpoint indexed {A : Type} (f : A -> JsVal) (i : nat) (l : list A)
  : list (string * JsVal) :=
  match l with
  | [] => []
  | x :: l' => (index_key i, f x) :: indexed f (S i) l'
  end.

(** The own enumerable properties that [...v] copies: the fields of an
    object, the elements of an array and the units of a string under their
    indices, nothing for another value. *)
Definition spread (v : JsVal) : list (string * JsVal) :=
  match v with
  | JObj fs => fs
  | JArr items => indexed (fun x => x) 0 items
  | JStr s => indexed (fun c => JStr [c]) 0 s
  | _ => []
  end.

Definition merge (base over : list (string * JsVal)) : list (string * JsVal) :=
  fold_left (fun acc kv => set_field (fst kv) (snd kv) acc) over base.

End Json.

Import Json.

(* ===================================================================== *)
(** * Regular expressions *)
(* ===================================================================== *)

Module Regex.

(** The pattern syntax the source uses.  Literals and classes only hold
    ASCII characters. *)
Inductive class_item :=
| Single (c : N)
| Range (lo hi : N)
| WordChars                       (* \w *)
| SpaceChars.                     (* \s *)

Inductive re :=
| Eps
| Chr (c : N)
| Class (negated : bool) (items : list class_item)
| Cat (r1 r2 : re)
| Star (r : re)                   (* r*  greedy *)
| Plus (r : re)                   (* r+  greedy *)
| Times (n : nat) (r : re)        (* r{n} *)
| NotAhead (r : re)               (* (?!r) *)
| WordB                           (* \b *)
| Bol                             (* ^ *)
| Eol.                            (* $ *)

Fixpoint Cats (rs : list re) : re :=
  match rs with
  | [] => Eps
  | [r] => r
  | r :: rs' => Cat r (Cats rs')
  end.

Definition Lit (s : string) : re := Cats (List.map Chr (lit s)).

(** A position in the subject string: the units already passed, nearest
    first, and the units ahead. *)
Record cursor := Cursor { before : str; after : str }.

Definition cont := cursor -> option cursor.
Definition matcher := cursor -> cont -> option cursor.

Definition ascii_upper (c : N) : N :=
  (if (97 <=? c) && (c <=? 122) then c - 32 else c)%N.

Definition ascii_lower (c : N) : N :=
  (if (65 <=? c) && (c <=? 90) then c + 32 else c)%N.

(** Canonicalize, for a pattern without the [u] flag: upper-casing, except
    that a unit from 128 up is never mapped below 128.  Every character of
    the source's patterns is ASCII, so a unit from 128 up can only be
    compared with units below 128, and is left as it is. *)
Definition canon (icase : bool) (c : N) : N :=
  if icase then ascii_upper c else c.

Definition is_word (c : N) : bool :=
  ((48 <=? c) && (c <=? 57) || (65 <=? c) && (c <=? 90)
   || (97 <=? c) && (c <=? 122) || (c =? 95))%N.

Definition item_mem (it : class_item) (c : N) : bool :=
  match it with
  | Single a => (c =? a)%N
  | Range lo hi => ((lo <=? c) && (c <=? hi))%N
  | WordChars => is_word c
  | SpaceChars => is_space c
  end.

(** A unit is in a class when a member of the class has its canonical
    form: the unit itself or, under [i], its other case. *)
Definition class_mem (icase : bool) (items : list class_item) (c : N) : bool :=
  existsb (fun it =>
             item_mem it c
             || icase && (item_mem it (ascii_upper c) || item_mem it (ascii_lower c)))
          items.

Definition step (c : N) (x : cursor) : cursor :=
  Cursor (c :: before x) (List.tl (after x)).

Definition one (p : N -> bool) : matcher :=
  fun x k =>
    match after x with
    | c :: rest => if p c then k (Cursor (c :: before x) rest) else None
    | [] => None
    end.

(** RepeatMatcher for [*]: try one more round of the body, refusing a
    round that consumes nothing, and fall back to the continuation.  A
    round consumes at least one unit, so rounds are bounded by the units
    ahead. *)
Fixpoint star_loop (m : matcher) (rounds : nat) (x : cursor) (k : cont)
  : option cursor :=
  match rounds with
  | O => k x
  | S rounds' =>
      match m x (fun y =>
                   if (List.length (after y) <? List.length (after x))%nat
                   then star_loop m rounds' y k
                   else None) with
      | Some z => Some z
      | None => k x
      end
  end.

Definition star (m : matcher) : matcher :=
  fun x k => star_loop m (List.length (after x)) x k.

Fixpoint times (m : matcher) (n : nat) : matcher :=
  match n with
  | O => fun x k => k x
  | S n' => fun x k => m x (fun y => times m n' y k)
  end.

Definition at_word_boundary (x : cursor) : bool :=
  let a := match before x with c :: _ => is_word c | [] => false end in
  let b := match after x with c :: _ => is_word c | [] => false end in
  xorb a b.

Fixpoint compile (icase : bool) (r : re) : matcher :=
  match r with
  | Eps => fun x k => k x
  | Chr c => one (fun ch => (canon icase ch =? canon icase c)%N)
  | Class negated items =>
      one (fun ch => xorb negated (class_mem icase items ch))
  | Cat r1 r2 =>
      let m1 := compile icase r1 in
      let m2 := compile icase r2 in
      fun x k => m1 x (fun y => m2 y k)
  | Star r' => star (compile icase r')
  | Plus r' =>
      let m := compile icase r' in
      fun x k => m x (fun y => star m y k)
  | Times n r' => times (compile icase r') n
  | NotAhead r' =>
      let m := compile icase r' in
      fun x k => match m x Some with Some _ => None | None => k x end
  | WordB => fun x k => if at_word_boundary x then k x else None
  | Bol => fun x k => match before x with [] => k x | _ => None end
  | Eol => fun x k => match after x with [] => k x | _ => None end
  end.

(** One attempt of the pattern at a position. *)
Definition match_at (m : matcher) (bef aft : str) : option cursor :=
  m (Cursor bef aft) Some.

(** [regex.test(s)] for a pattern without the [g] flag: the first position,
    from the left, where an attempt succeeds. *)
Fixpoint test_from (m : matcher) (bef aft : str) : bool :=
  match match_at m bef aft with
  | Some _ => true
  | None =>
      match aft with
      | [] => false
      | c :: aft' => test_from m (c :: bef) aft'
      end
  end.

Definition test (m : matcher) (s : str) : bool := test_from m [] s.

(** [s.replace(regex, f)] for a pattern with the [g] flag and a replacer
    function [f] that may read and change a state.  Attempts go from left
    to right; after a match the scan resumes at its end ([skip] counts the
    units of the match still to pass), and one unit further when the match
    was empty. *)
Fixpoint replace_from {S : Type} (m : matcher) (f : str -> S -> str * S)
    (skip : nat) (bef aft : str) (st : S) {struct aft} : str * S :=
  match skip, aft with
  | S skip', c :: aft' => replace_from m f skip' (c :: bef) aft' st
  | S _, [] => ([], st)
  | O, _ =>
      match match_at m bef aft with
      | Some y =>
          let len := (List.length aft - List.length (after y))%nat in
          let (rep, st1) := f (firstn len aft) st in
          match aft with
          | [] => (rep, st1)
          | c :: aft' =>
              match len with
              | O =>
                  let (out, st2) := replace_from m f 0 (c :: bef) aft' st1 in
                  (rep ++ c :: out, st2)
              | S len' =>
                  let (out, st2) := replace_from m f len' (c :: bef) aft' st1 in
                  (rep ++ out, st2)
              end
          end
      | None =>
          match aft with
          | [] => ([], st)
          | c :: aft' =>
              let (out, st1) := replace_from m f 0 (c :: bef) aft' st in
              (c :: out, st1)
          end
      end
  end.

(** [s.replace(regex, rep)] with a constant replacement. *)
Definition replace_all (m : matcher) (rep : str) (s : str) : str :=
  fst (replace_from m (fun _ (st : unit) => (rep, st)) 0 [] s tt).

End Regex.

Import Regex.

(* ===================================================================== *)
(** * Validation utilities *)
(* ===================================================================== *)

(** [^[0-9a-f]{8}-[0-9a-f]{4}-[0-9a-f]{4}-[0-9a-f]{4}-[0-9a-f]{12}$],
    flag [i] *)
Definition hex_class : re := Class false [Range 48 57; Range 97 102].

Definition uuidRegex : re :=
  Cats [Bol; Times 8 hex_class; Chr 45; Times 4 hex_class; Chr 45;
        Times 4 hex_class; Chr 45; Times 4 hex_class; Chr 45;
        Times 12 hex_class; Eol].

(** The hook's validator. *)
Definition isValidUUID (uuid : str) : bool :=
  test (compile true uuidRegex) uuid.

(** The edge function's validator. *)
Definition validateUUID (uuid : str) : bool :=
  test (compile true uuidRegex) uuid.

(** The script-block pattern, flags [gi]; read without the blanks:
    [<script\b [^<]* (?: (?!<\/script>) < [^<]* )* <\/script>] *)
Definition not_lt : re := Class true [Single 60].

Definition scriptRegex : re :=
  Cats [Lit "<script"; WordB; Star not_lt;
        Star (Cats [NotAhead (Lit "</script>"); Chr 60; Star not_lt]);
        Lit "</script>"].

(** [javascript:], flags [gi] *)
Definition javascriptRegex : re := Lit "javascript:".

(** [on\w+\s*=], flags [gi] *)
Definition handlerRegex : re :=
  Cats [Lit "on"; Plus (Class false [WordChars]);
        Star (Class false [SpaceChars]); Chr 61].

Definition sanitizeInput (input : str) : str :=
  trim
    (replace_all (compile true handlerRegex) []
       (replace_all (compile true javascriptRegex) []
          (replace_all (compile true scriptRegex) [] input))).

(** [Math.random() * 16 | 0]: the product is exact, [| 0] drops the
    fraction and wraps to a signed 32-bit integer. *)
Definition toInt32 (z : Z) : Z :=
  let m := (z mod 4294967296)%Z in
  if (m <? 2147483648)%Z then m else (m - 4294967296)%Z.

Definition truncate (q : Q) : Z := Z.quot (Qnum q) (Zpos (Qden q)).

Definition random_nibble (random : Q) : Z :=
  toInt32 (truncate (random * 16)).

(** The replacer of [generateUUID]; the state counts the calls made to
    [Math.random], whose results are [random 0], [random 1], ... *)
Definition uuid_replacer (random : nat -> Q) (c : str) (calls : nat)
  : str * nat :=
  let r := random_nibble (random calls) in
  let v := if str_eqb c (lit "x") then r else Z.lor (Z.land r 3) 8 in
  (toString_radix 16 v, S calls).

Definition uuid_template : str := lit "xxxxxxxx-xxxx-4xxx-yxxx-xxxxxxxxxxxx".

(** [[xy]], flag [g] *)
Definition xyRegex : re := Class false [Single 120; Single 121].

(** [generateUUID()], the same text in the hook and in the edge function:
    the string, and the calls made to [Math.random] so far. *)
Definition generateUUID (random : nat -> Q) (calls : nat) : str * nat :=
  replace_from (compile false xyRegex) (uuid_replacer random) 0 []
    uuid_template calls.


(* ===================================================================== *)
(** * The submission hook *)
(* ===================================================================== *)

Module Hook.

Inductive InputType := text | image | voice.

Definition inputType_str (t : InputType) : str :=
  match t with
  | text => lit "text"
  | image => lit "image"
  | voice => lit "voice"
  end.

Record ProblemSubmissionData := {
  title : str;
  inputType : InputType;
  textContent : option str;
  imageData : option str;
  voiceUrl : option str;
  description : option str
}.

(** A field that is absent holds [JUndefined]. *)
Record ProblemResult := {
  id : JsVal;
  status : JsVal;
  solution : JsVal;
  explanation : JsVal;
  subject : JsVal;
  difficulty : JsVal;
  tags : JsVal;
  errorMessage : JsVal
}.

(** What [useAuth()] hands to the hook. *)
Record User := { user_id : option str; isGuest : bool }.
Record Auth := { user : option User; isAuthenticated : bool }.

Record Session := { access_token : str }.

(** A value thrown, or a promise's rejection: an [Error] with its message,
    another object with its [JSON.stringify] and [String] texts, or a
    primitive with its [String] text. *)
Inductive Thrown :=
| ThrowError (message : str)
| ThrowObject (json text_ : str)
| ThrowOther (text_ : str).

(** ** The external collaborators *)

Inductive SessionReply :=
| SessionIs (session : option Session) (sessionError : bool)
| SessionRejects (t : Thrown).

Inductive FunctionsError :=
| FnError (name : str) (context_status : JsVal) (message : str)
| FnErrorText (s : str).

Inductive InvokeReply :=
| InvokeReturns (response : JsVal) (submitError : option FunctionsError)
| InvokeRejects (t : Thrown).

Record PostgrestError := { code : JsVal; pg_message : str }.

Inductive QueryReply :=
| QueryReturns (data : JsVal) (fetchError : option PostgrestError)
| QueryRejects (t : Thrown).

(** The answers of the auth provider, of the submission endpoint and of the
    status store: to the one session lookup and the one call of a
    submission, and to the session lookup and the status query of the
    polling attempt that finds the counter [attempts] at [n]. *)
Record Env := {
  submit_session : SessionReply;
  submit_reply : InvokeReply;
  poll_session : nat -> SessionReply;
  poll_reply : nat -> QueryReply
}.

(** ** State, effects and timers *)

Record HookState := {
  isSubmitting : bool;
  result : option ProblemResult;
  error : JsVal
}.

Inductive Effect :=
| GetSession
| Invoke (fn : str) (body : JsVal) (headers : list (string * str))
| SelectSingle (table : str) (filters : list (string * JsVal))
| SetTimeout (ms : Z).

(** A pending call of [poll]: its delay and what its closure holds. *)
Record Timer := { delay : Z; problemId : JsVal; attempts : nat }.

Record World := {
  hook : HookState;
  effects : list Effect;          (* oldest first *)
  timers : list Timer             (* next to fire first *)
}.

Definition setError (e : JsVal) (w : World) : World :=
  {| hook := {| isSubmitting := isSubmitting (hook w);
                result := result (hook w); error := e |};
     effects := effects w; timers := timers w |}.

Definition setResult (r : option ProblemResult) (w : World) : World :=
  {| hook := {| isSubmitting := isSubmitting (hook w);
                result := r; error := error (hook w) |};
     effects := effects w; timers := timers w |}.

Definition setIsSubmitting (b : bool) (w : World) : World :=
  {| hook := {| isSubmitting := b;
                result := result (hook w); error := error (hook w) |};
     effects := effects w; timers := timers w |}.

Definition emit (e : Effect) (w : World) : World :=
  {| hook := hook w; effects := effects w ++ [e]; timers := timers w |}.

(** [setTimeout(poll, ms)] *)
Definition setTimeout (ms : Z) (pid : JsVal) (n : nat) (w : World) : World :=
  {| hook := hook w;
     effects := effects w ++ [SetTimeout ms];
     timers := timers w ++ [{| delay := ms; problemId := pid; attempts := n |}] |}.

Definition is_network (e : Effect) : bool :=
  match e with
  | GetSession | Invoke _ _ _ | SelectSingle _ _ => true
  | SetTimeout _ => false
  end.

Definition is_query (e : Effect) : bool :=
  match e with SelectSingle _ _ => true | _ => false end.

Definition is_invoke (e : Effect) : bool :=
  match e with Invoke _ _ _ => true | _ => false end.

Definition non_empty (s : str) : bool :=
  match s with [] => false | _ => true end.

(** Truthiness of an optional string, [undefined] when absent. *)
Definition present (o : option str) : bool :=
  match o with Some s => non_empty s | None => false end.

Definition opt_val (o : option str) : JsVal :=
  match o with Some s => JStr s | None => JUndefined end.

(** ** pollForCompletion *)

Definition maxAttempts : nat := 60.

(** Lines 295-326 of the hook: the result built from a fetched row. *)
Definition row_errorMessage (data : JsVal) : JsVal :=
  if is_str (get "status" data) (lit "error") then
    if is_object (get "ai_response" data) then
      jor (jor (jor (get "error" (get "ai_response" data))
                    (get "message" (get "ai_response" data)))
               (get "error_message" data))
          (JStr (lit "Problem processing failed"))
    else
      jor (get "error_message" data) (JStr (lit "Problem processing failed"))
  else JUndefined.

Definition row_tags (data : JsVal) : JsVal :=
  if is_object (get "ai_response" data)
     && isArray (get "suggested_tags" (get "ai_response" data))
  then get "suggested_tags" (get "ai_response" data)
  else if isArray (get "tags" data) then get "tags" data
  else JUndefined.

Definition newResult (data : JsVal) : ProblemResult :=
  {| id := get "id" data;
     status := get "status" data;
     solution := jor (get "solution" data) JUndefined;
     explanation := jor (jor (get "explanation" data) (get "solution" data))
                        JUndefined;
     subject := jor (jor (get "topic" data) (get "subject" data)) JUndefined;
     difficulty := jor (get "difficulty" data) JUndefined;
     tags := row_tags data;
     errorMessage := row_errorMessage data |}.

Definition fetchError_message (e : PostgrestError) : str :=
  if is_str (code e) (lit "PGRST116") then
    lit "Problem not found or access denied."
  else if includes (pg_message e) (lit "invalid input syntax for type uuid") then
    lit "Invalid problem ID format. Please try submitting again."
  else if includes (pg_message e) (lit "JWT")
          || includes (pg_message e) (lit "authentication") then
    lit "Authentication expired. Please sign in again."
  else lit "Failed to check problem status: " ++ pg_message e.

Definition user_has_id (u : option User) : option str :=
  match u with
  | Some u' => if present (user_id u') then user_id u' else None
  | None => None
  end.

(** The [try] block of [poll]: the world it leaves, and what it threw. *)
Definition poll_try (env : Env) (u : option User) (pid : JsVal) (n : nat)
    (w : World) : World * option Thrown :=
  if negb (isValidUUID (ToString pid)) then
    (w, Some (ThrowError (lit "Invalid problem ID format for polling")))
  else
    let w := emit GetSession w in
    match poll_session env n with
    | SessionRejects t => (w, Some t)
    | SessionIs session _ =>
        let filters :=
          match session, user_has_id u with
          | Some _, Some uid => [("id"%string, pid); ("user_id"%string, JStr uid)]
          | _, _ => [("id"%string, pid)]
          end in
        let w := emit (SelectSingle (lit "problem_submissions") filters) w in
        match poll_reply env n with
        | QueryRejects t => (w, Some t)
        | QueryReturns _ (Some fetchError) =>
            (setError (JStr (fetchError_message fetchError)) w, None)
        | QueryReturns data None =>
            if negb (truthy data) then
              (setError (JStr (lit "Problem not found. Please try submitting again.")) w,
               None)
            else
              let w := setResult (Some (newResult data)) w in
              if is_str (get "status" data) (lit "completed")
                 || is_str (get "status" data) (lit "error") then
                if is_str (get "status" data) (lit "error") then
                  (setError (jor (row_errorMessage data)
                                 (JStr (lit "Problem processing failed"))) w,
                   None)
                else (w, None)
              else if (S n <? maxAttempts)%nat then
                (setTimeout 2000 pid (S n) w, None)
              else
                (setError (JStr (lit "Problem processing timed out. Please try again.")) w,
                 None)
        end
    end.

(** One call of [poll], [attempts] being [n] when it starts. *)
Definition poll (env : Env) (u : option User) (pid : JsVal) (n : nat)
    (w : World) : World :=
  match poll_try env u pid n w with
  | (w', None) => w'
  | (w', Some err) =>
      let errorMsg := match err with
                      | ThrowError m => m
                      | ThrowObject _ t => t
                      | ThrowOther t => t
                      end in
      setError (JStr (lit "Failed to check problem status: " ++ errorMsg)) w'
  end.

(** [pollForCompletion(problemId)]: nothing but the first timer. *)
Definition pollForCompletion (pid : JsVal) (w : World) : World :=
  setTimeout 1000 pid 0 w.

(** The event loop fires the next pending timer. *)
Definition fire (env : Env) (u : option User) (w : World) : World :=
  match timers w with
  | [] => w
  | t :: ts =>
      poll env u (problemId t) (attempts t)
        {| hook := hook w; effects := effects w; timers := ts |}
  end.

Fixpoint run_timers (env : Env) (u : option User) (turns : nat) (w : World)
  : World :=
  match turns with
  | O => w
  | S turns' => run_timers env u turns' (fire env u w)
  end.

(** ** submitProblem *)

(** Lines 75-105: the identity to send and the headers to send it with. *)
Definition resolve_identity (auth : Auth) (session : option Session)
  : (JsVal * list (string * str)) + Thrown :=
  let uid := user_has_id (user auth) in
  let live := match session with
              | Some s => non_empty (access_token s)
              | None => false
              end in
  if live then
    let authHeaders :=
      [("Authorization"%string,
        lit "Bearer " ++ match session with
                         | Some s => access_token s
                         | None => []
                         end)] in
    match uid with
    | Some i =>
        if isValidUUID i then inl (JStr i, authHeaders)
        else inr (ThrowError (lit "Invalid user session. Please sign in again."))
    | None => inr (ThrowError (lit "Invalid user session. Please sign in again."))
    end
  else
    match (if isAuthenticated auth then uid else None) with
    | Some i =>
        if negb (isValidUUID i) then
          inr (ThrowError (lit "Invalid user session. Please sign in again."))
        else inl (JStr i, [])
    | None =>
        if match user auth with Some u => isGuest u | None => false end then
          inl (JUndefined, [])
        else inr (ThrowError (lit "Please sign in to submit problems"))
    end.

Definition requestBody (data : ProblemSubmissionData) (userId : JsVal) : JsVal :=
  JObj [("input_type"%string, JStr (inputType_str (inputType data)));
        ("title"%string, JStr (trim (title data)));
        ("description"%string, opt_val (option_map trim (description data)));
        ("text_content"%string, opt_val (option_map trim (textContent data)));
        ("image_data"%string, opt_val (imageData data));
        ("voice_url"%string, opt_val (voiceUrl data));
        ("user_id"%string, userId)].

(** Lines 139-168: the message thrown for an error of the call. *)
Definition submitError_message (e : FunctionsError) : str :=
  match e with
  | FnError name context_status message =>
      if str_eqb name (lit "FunctionsHttpError") then
        if is_num context_status 401 then
          lit "Authentication failed. Please sign in again."
        else if is_num context_status 403 then
          lit "Access denied. Please check your permissions."
        else lit "AI service is temporarily unavailable. Please try again later."
      else if non_empty message then
        if includes message (lit "Invalid or expired authentication token")
           || includes message (lit "JWT")
           || includes message (lit "authentication") then
          lit "Authentication expired. Please sign in again."
        else message
      else lit "Failed to submit problem to AI service"
  | FnErrorText s => s
  end.

Definition submitError_truthy (e : option FunctionsError) : bool :=
  match e with
  | Some (FnError _ _ _) => true
  | Some (FnErrorText s) => non_empty s
  | None => false
  end.

Definition initialResult (response : JsVal) : ProblemResult :=
  {| id := get "problemId" response;
     status := jor (get "status" response) (JStr (lit "pending"));
     solution := get "solution" response;
     explanation := JUndefined;
     subject := get "subject" response;
     difficulty := get "difficulty" response;
     tags := get "tags" response;
     errorMessage := JUndefined |}.

(** Lines 170-217: what is done with the response of the call. *)
Definition on_response (response : JsVal) (w : World) : World * (JsVal + Thrown) :=
  if negb (truthy response) then
    (w, inr (ThrowError (lit "No response received from AI service")))
  else if negb (truthy (get "success" response)) then
    let errorMsg := jor (jor (get "error" response) (get "details" response))
                        (JStr (lit "AI processing failed")) in
    (w, inr (ThrowError (lit "AI service error: " ++ ToString errorMsg)))
  else if negb (truthy (get "problemId" response)) then
    (w, inr (ThrowError (lit "Invalid response from AI service: missing problem ID")))
  else if negb (isValidUUID (ToString (get "problemId" response))) then
    (w, inr (ThrowError (lit "Invalid response format from AI service")))
  else
    let w := setResult (Some (initialResult response)) w in
    if is_str (get "status" response) (lit "completed") then
      (w, inl (get "problemId" response))
    else if is_str (get "status" response) (lit "processing")
            || is_str (get "status" response) (lit "pending") then
      (pollForCompletion (get "problemId" response) w,
       inl (get "problemId" response))
    else (w, inl (get "problemId" response)).

(** The [try] block of [submitProblem]. *)
Definition submit_try (env : Env) (auth : Auth) (data : ProblemSubmissionData)
    (w : World) : World * (JsVal + Thrown) :=
  let w := emit GetSession w in
  match submit_session env with
  | SessionRejects t => (w, inr t)
  | SessionIs _ true =>
      (w, inr (ThrowError (lit "Authentication error. Please sign in again.")))
  | SessionIs session false =>
      match resolve_identity auth session with
      | inr t => (w, inr t)
      | inl (userId, authHeaders) =>
          let w := emit (Invoke (lit "submit-problem") (requestBody data userId)
                                authHeaders) w in
          match submit_reply env with
          | InvokeRejects t => (w, inr t)
          | InvokeReturns response submitError =>
              if submitError_truthy submitError then
                (w, inr (ThrowError
                           (match submitError with
                            | Some e => submitError_message e
                            | None => []
                            end)))
              else on_response response w
          end
      end
  end.

(** [submitProblem(data)]: the value the promise resolves to ([JNull] for
    [null]) and the world it leaves. *)
Definition submitProblem (env : Env) (auth : Auth) (data : ProblemSubmissionData)
    (w : World) : JsVal * World :=
  let w := setIsSubmitting true (setResult None (setError JNull w)) in
  if negb (non_empty (trim (title data))) then
    (JNull, setIsSubmitting false
              (setError (JStr (lit "Problem title is required")) w))
  else if negb (present (option_map trim (textContent data)))
          && negb (present (imageData data))
          && negb (present (voiceUrl data)) then
    (JNull, setIsSubmitting false
              (setError (JStr (lit "Problem content is required")) w))
  else
    match submit_try env auth data w with
    | (w', inl pid) => (pid, setIsSubmitting false w')
    | (w', inr err) =>
        let errorMessage := match err with
                            | ThrowError m => m
                            | ThrowObject j _ => j
                            | ThrowOther t => t
                            end in
        (JNull, setIsSubmitting false (setError (JStr errorMessage) w'))
    end.

(** [clearResult()] *)
Definition clearResult (w : World) : World :=
  setError JNull (setResult None w).

End Hook.

(* ===================================================================== *)
(** * The submit-problem edge function *)
(* ===================================================================== *)

Module Edge.

Record Request := {
  method : str;
  json : JsVal + str               (* [req.json()]: the body, or why it rejects *)
}.

Record Response := { http_status : Z; body : JsVal }.

(** Answer of a database call that hands back [{ data, error }]; an error
    carries its message. *)
Record DbReply := { data : JsVal; db_error : option str }.

Inductive FetchReply :=
| FetchRejects (message : str)
| FetchResponds (ok : bool) (status : Z) (geminiData : JsVal + str).

(** What the platform and the external services answer during one
    request.  [now k] is the timestamp read at the [k]-th place of the
    source that reads the clock. *)
Record Env := {
  createClient_throws : option str;
  random : nat -> Q;
  session_insert : DbReply;
  problem_insert : DbReply;
  GOOGLE_API_KEY : option str;
  gemini : FetchReply;
  completion_update_error : option str;
  digest_hex : str -> str;          (* SHA-256, hex-encoded *)
  toLowerCase : str -> str;
  now : nat -> str;
  processing_time_ms : Z
}.

Inductive Effect :=
| Insert (table : string) (row : JsVal)
| Update (table : string) (fields : JsVal) (id : JsVal)
| Fetch (key prompt : str).

Record St := { ops : list Effect; calls : nat }.

(** Code that may throw an [Error], the message being what the handler's
    [catch] reads. *)
Definition M (A : Type) : Type := St -> St * (A + str).

Definition ret {A} (a : A) : M A := fun s => (s, inl a).

Definition throw {A} (message : str) : M A := fun s => (s, inr message).

Definition bind {A B} (m : M A) (k : A -> M B) : M B :=
  fun s => match m s with
           | (s', inl a) => k a s'
           | (s', inr e) => (s', inr e)
           end.

Notation "x <- m ;; k" := (bind m (fun x => k))
  (at level 61, m at next level, right associativity).
Notation "m ;;; k" := (bind m (fun _ => k))
  (at level 61, right associativity).

Definition guard (b : bool) (message : str) : M unit :=
  if b then ret tt else throw message.

Definition perform (e : Effect) : M unit :=
  fun s => ({| ops := ops s ++ [e]; calls := calls s |}, inl tt).

Definition freshUUID (env : Env) : M str :=
  fun s => let (u, c) := generateUUID (random env) (calls s) in
           ({| ops := ops s; calls := c |}, inl u).

(** [sanitizeInput(v)] on a value that is not known to be a string. *)
Definition sanitize (v : JsVal) : M str :=
  match v with
  | JStr s => ret (sanitizeInput s)
  | _ => throw (lit "input.replace is not a function")
  end.

Definition sanitize_if_truthy (v : JsVal) : M (option str) :=
  if truthy v then (s <- sanitize v ;; ret (Some s)) else ret None.

(** [v.k] where [v] may be null or undefined. *)
Definition read (k : string) (v : JsVal) : M JsVal :=
  if is_nullish v then
    throw (lit "Cannot read properties of " ++ ToString v
           ++ lit " (reading '" ++ lit k ++ lit "')")
  else ret (get k v).

(** [v?.[0]] and [v?.k] *)
Definition first_of (v : JsVal) : JsVal :=
  match v with
  | JArr (x :: _) => x
  | JStr (c :: _) => JStr [c]
  | JObj fs => get "0" v
  | _ => JUndefined
  end.

Definition security_flags_created : JsVal :=
  JObj [("validated"%string, JBool true); ("sanitized"%string, JBool true);
        ("hash_verified"%string, JBool true);
        ("session_validated"%string, JBool true)].

Definition guest_user (userId : str) : JsVal :=
  JObj [("id"%string, JStr userId);
        ("email"%string, JStr (lit "guest-" ++ userId ++ lit "@secure.local"));
        ("first_name"%string, JStr (lit "Guest"));
        ("last_name"%string, JStr (lit "User"));
        ("is_guest"%string, JBool true);
        ("preferences"%string,
         JObj [("privacy_level"%string, JStr (lit "high"));
               ("data_retention"%string, JStr (lit "session_only"))])].

Definition new_session (env : Env) (requestBody userId : JsVal) : JsVal :=
  JObj [("user_id"%string, userId);
        ("session_start"%string, JStr (now env 0));
        ("session_metadata"%string,
         JObj [("security_level"%string, JStr (lit "enhanced"));
               ("ip_address"%string,
                get "ip_address" (get "security_context" requestBody));
               ("user_agent"%string,
                get "user_agent" (get "security_context" requestBody));
               ("device_fingerprint"%string,
                get "device_fingerprint" (get "security_context" requestBody))])].

Definition new_problem (env : Env) (requestBody : JsVal) (problemId : str)
    (userId sessionId : JsVal) (sanitizedTitle : str)
    (sanitizedTextContent : option str) (contentHash : str) : JsVal :=
  JObj [("id"%string, JStr problemId);
        ("user_id"%string, userId);
        ("session_id"%string, sessionId);
        ("title"%string, JStr sanitizedTitle);
        ("input_type"%string, get "input_type" requestBody);
        ("text_content"%string, jor (Hook.opt_val sanitizedTextContent) JNull);
        ("image_url"%string, jor (get "image_data" requestBody) JNull);
        ("voice_url"%string, jor (get "voice_url" requestBody) JNull);
        ("status"%string, JStr (lit "processing"));
        ("content_hash"%string, JStr contentHash);
        ("security_flags"%string, security_flags_created);
        ("created_at"%string, JStr (now env 1));
        ("updated_at"%string, JStr (now env 2))].

Definition created_audit (requestBody : JsVal) (problemId : str)
    (userId : JsVal) (sanitizedTitle : str) : JsVal :=
  JObj [("user_id"%string, userId);
        ("action"%string, JStr (lit "problem_submission_created"));
        ("resource_type"%string, JStr (lit "problem_submission"));
        ("resource_id"%string, JStr problemId);
        ("new_values"%string,
         JObj [("title"%string, JStr sanitizedTitle);
               ("input_type"%string, get "input_type" requestBody);
               ("security_level"%string, JStr (lit "enhanced"))]);
        ("ip_address"%string,
         get "ip_address" (get "security_context" requestBody));
        ("user_agent"%string,
         get "user_agent" (get "security_context" requestBody))].

(** The update that records a failure of the AI stage. *)
Definition error_update (problemData : JsVal) (error_message timestamp : str)
  : JsVal :=
  JObj [("status"%string, JStr (lit "error"));
        ("error_message"%string, JStr error_message);
        ("security_flags"%string,
         JObj (merge (spread (get "security_flags" problemData))
                     [("ai_processing_failed"%string, JBool true)]));
        ("updated_at"%string, JStr timestamp)].

Definition failure_response (http : Z) (error_message problemId : str)
  : Response :=
  {| http_status := http;
     body := wire (JObj [("success"%string, JBool false);
                         ("error"%string, JStr error_message);
                         ("problemId"%string, JStr problemId)]) |}.

Definition prompt_of (contentHash sanitizedTitle : str)
    (sanitizedDescription sanitizedTextContent : option str) : str :=
  lit "You are a secure AI tutor helping students learn. Please analyze this problem and provide a detailed, educational solution.

SECURITY CONTEXT:
- Content has been sanitized and validated
- User session is authenticated
- Content integrity verified with hash: " ++ firstn 8 contentHash ++ lit "...

PROBLEM DETAILS:
Title: " ++ sanitizedTitle ++ lit "
" ++ (if Hook.present sanitizedDescription
      then lit "Description: "
           ++ match sanitizedDescription with Some d => d | None => [] end
           ++ [10%N]
      else [])
    ++ (if Hook.present sanitizedTextContent
        then lit "Problem Content: "
             ++ match sanitizedTextContent with Some d => d | None => [] end
             ++ [10%N]
        else [])
    ++ lit "
Please provide:
1. A clear, step-by-step solution
2. Educational explanation of concepts involved
3. The subject area (Mathematics, Science, History, English, etc.)
4. Difficulty level (easy, medium, or hard)
5. 3-5 relevant educational tags
6. Learning objectives achieved

Format your response as a structured educational explanation that helps the student understand both the solution and the underlying concepts. Ensure all content is appropriate for educational purposes.".

(** Lines 369-384: the keyword scan of the sanitized answer. *)
Definition scan_line (env : Env) (acc : str * str) (line : str) : str * str :=
  let lowerLine := toLowerCase env line in
  let has := includes lowerLine in
  let subject :=
    if has (lit "subject") || has (lit "area") then
      if has (lit "math") then lit "Mathematics"
      else if has (lit "science") || has (lit "physics")
              || has (lit "chemistry") || has (lit "biology") then lit "Science"
      else if has (lit "history") then lit "History"
      else if has (lit "english") || has (lit "literature") then lit "English"
      else fst acc
    else fst acc in
  let difficulty :=
    if has (lit "difficulty") then
      if has (lit "easy") then lit "easy"
      else if has (lit "hard") then lit "hard"
      else lit "medium"
    else snd acc in
  (subject, difficulty).

Definition scan (env : Env) (sanitizedSolution : str) : str * str :=
  fold_left (scan_line env) (split 10 sanitizedSolution)
            (lit "General", lit "medium").

Definition tags_of (env : Env) (subject : str) : JsVal :=
  JArr [JStr (lit "learning"); JStr (lit "education");
        JStr (toLowerCase env subject)].

Definition completed_update (env : Env) (problemData geminiData : JsVal)
    (sanitizedSolution subject difficulty : str) : JsVal :=
  JObj [("solution"%string, JStr sanitizedSolution);
        ("topic"%string, JStr subject);
        ("difficulty"%string, JStr difficulty);
        ("tags"%string, tags_of env subject);
        ("status"%string, JStr (lit "completed"));
        ("ai_response"%string,
         JObj [("full_response"%string, geminiData);
               ("suggested_tags"%string, tags_of env subject);
               ("parsed_subject"%string, JStr subject);
               ("parsed_difficulty"%string, JStr difficulty);
               ("security_validated"%string, JBool true)]);
        ("security_flags"%string,
         JObj (merge (spread (get "security_flags" problemData))
                     [("ai_processing_completed"%string, JBool true);
                      ("solution_sanitized"%string, JBool true)]));
        ("processing_time_ms"%string, JNum (processing_time_ms env));
        ("updated_at"%string, JStr (now env 5))].

Definition completed_audit (problemId : str) (userId : JsVal)
    (subject difficulty : str) : JsVal :=
  JObj [("user_id"%string, userId);
        ("action"%string, JStr (lit "problem_submission_completed"));
        ("resource_type"%string, JStr (lit "problem_submission"));
        ("resource_id"%string, JStr problemId);
        ("new_values"%string,
         JObj [("status"%string, JStr (lit "completed"));
               ("subject"%string, JStr subject);
               ("difficulty"%string, JStr difficulty);
               ("security_level"%string, JStr (lit "enhanced"))])].

Definition success_response (env : Env) (problemId : str) (sessionId : JsVal)
    (sanitizedSolution subject difficulty : str) : Response :=
  {| http_status := 200;
     body := wire (JObj [("success"%string, JBool true);
                         ("problemId"%string, JStr problemId);
                         ("sessionId"%string, sessionId);
                         ("status"%string, JStr (lit "completed"));
                         ("solution"%string, JStr sanitizedSolution);
                         ("subject"%string, JStr subject);
                         ("difficulty"%string, JStr difficulty);
                         ("tags"%string, tags_of env subject);
                         ("security"%string,
                          JObj [("validated"%string, JBool true);
                                ("sanitized"%string, JBool true);
                                ("hash_verified"%string, JBool true)])]) |}.

(** Lines 96-131: the identity the submission is attributed to, minted
    here when the request names none. *)
Definition resolve_user (env : Env) (requestBody : JsVal) : M JsVal :=
  let userId := get "user_id" requestBody in
  let sessionId := get "session_id" requestBody in
  guard (negb (truthy userId && negb (validateUUID (ToString userId))))
        (lit "Invalid user ID format") ;;;
  guard (negb (truthy sessionId && negb (validateUUID (ToString sessionId))))
        (lit "Invalid session ID format") ;;;
  if negb (truthy userId) then
    u <- freshUUID env ;;
    perform (Insert "users" (guest_user u)) ;;;
    ret (JStr u)
  else ret userId.

(** Lines 133-157 *)
Definition resolve_session (env : Env) (requestBody userId : JsVal) : M JsVal :=
  let sessionId := get "session_id" requestBody in
  if negb (truthy sessionId) then
    perform (Insert "learning_sessions" (new_session env requestBody userId)) ;;;
    match db_error (session_insert env) with
    | Some _ => throw (lit "Failed to create secure session")
    | None => read "id" (data (session_insert env))
    end
  else ret sessionId.

(** Lines 216-469: the AI stage, once the row is stored. *)
Definition ai_stage (env : Env) (problemId : str) (userId sessionId : JsVal)
    (problemData : JsVal) (contentHash sanitizedTitle : str)
    (sanitizedDescription sanitizedTextContent : option str) : M Response :=
  if negb (Hook.present (GOOGLE_API_KEY env)) then
    flags <- read "security_flags" problemData ;;
    perform (Update "problem_submissions"
               (error_update problemData
                  (lit "AI service temporarily unavailable") (now env 3))
               (JStr problemId)) ;;;
    ret (failure_response 503 (lit "AI service temporarily unavailable") problemId)
  else
    perform (Fetch (match GOOGLE_API_KEY env with Some k => k | None => [] end)
                   (prompt_of contentHash sanitizedTitle sanitizedDescription
                              sanitizedTextContent)) ;;;
    match gemini env with
    | FetchRejects message => throw message
    | FetchResponds false status _ =>
        flags <- read "security_flags" problemData ;;
        perform (Update "problem_submissions"
                   (error_update problemData
                      (lit "AI processing error: " ++ toString_radix 10 status)
                      (now env 4))
                   (JStr problemId)) ;;;
        ret (failure_response 500
               (lit "AI processing error: " ++ toString_radix 10 status) problemId)
    | FetchResponds true _ (inr message) => throw message
    | FetchResponds true _ (inl geminiData) =>
        candidates <- read "candidates" geminiData ;;
        let solution :=
          jor (get "text" (first_of (get "parts"
                 (get "content" (first_of candidates)))))
              (JStr (lit "No solution generated")) in
        sanitizedSolution <- sanitize solution ;;
        let (subject, difficulty) := scan env sanitizedSolution in
        flags <- read "security_flags" problemData ;;
        created_at <- read "created_at" problemData ;;
        perform (Update "problem_submissions"
                   (completed_update env problemData geminiData
                      sanitizedSolution subject difficulty)
                   (JStr problemId)) ;;;
        match completion_update_error env with
        | Some message =>
            throw (lit "Failed to update secure problem submission: " ++ message)
        | None =>
            perform (Update "learning_sessions"
                       (JObj [("total_problems"%string, JNum 1);
                              ("subjects_covered"%string, JArr [JStr subject])])
                       sessionId) ;;;
            perform (Insert "audit_logs"
                       (completed_audit problemId userId subject difficulty)) ;;;
            ret (success_response env problemId sessionId sanitizedSolution
                   subject difficulty)
        end
    end.

(** What lines 60-165 establish before the row is stored. *)
Record Prepared := {
  requestBody : JsVal;
  sanitizedTitle : str;
  sanitizedDescription : option str;
  sanitizedTextContent : option str;
  userId : JsVal;
  sessionId : JsVal;
  contentHash : str;
  problemId : str
}.

(** Lines 60-165: the client, the body, its validation and sanitizing, the
    identity, the session, the content hash and the problem identifier. *)
Definition prepare (env : Env) (req : Request) : M Prepared :=
  match createClient_throws env with
  | Some message => throw message
  | None =>
      match json req with
      | inr message => throw message
      | inl requestBody =>
          image_data <- read "image_data" requestBody ;;
          guard (truthy (get "input_type" requestBody)
                 && truthy (get "title" requestBody))
                (lit "Missing required fields: input_type and title are required") ;;;
          sanitizedTitle <- sanitize (get "title" requestBody) ;;
          sanitizedDescription <-
            sanitize_if_truthy (get "description" requestBody) ;;
          sanitizedTextContent <-
            sanitize_if_truthy (get "text_content" requestBody) ;;
          guard (negb (is_str (get "input_type" requestBody) (lit "text")
                       && negb (Hook.present sanitizedTextContent)))
                (lit "text_content is required for text input type") ;;;
          userId <- resolve_user env requestBody ;;
          sessionId <- resolve_session env requestBody userId ;;
          let contentForHash :=
            jor (jor (jor (Hook.opt_val sanitizedTextContent)
                          (get "image_data" requestBody))
                     (get "voice_url" requestBody))
                (JStr []) in
          let contentHash := digest_hex env (ToString contentForHash) in
          problemId <- freshUUID env ;;
          ret {| requestBody := requestBody;
                 sanitizedTitle := sanitizedTitle;
                 sanitizedDescription := sanitizedDescription;
                 sanitizedTextContent := sanitizedTextContent;
                 userId := userId;
                 sessionId := sessionId;
                 contentHash := contentHash;
                 problemId := problemId |}
      end
  end.

(** Lines 167-214, then the AI stage: the row is stored as [processing]
    and the creation is logged. *)
Definition store_and_solve (env : Env) (p : Prepared) : M Response :=
  perform (Insert "problem_submissions"
             (new_problem env (requestBody p) (problemId p) (userId p)
                (sessionId p) (sanitizedTitle p) (sanitizedTextContent p)
                (contentHash p))) ;;;
  match db_error (problem_insert env) with
  | Some message =>
      throw (lit "Failed to create secure problem submission: " ++ message)
  | None =>
      perform (Insert "audit_logs"
                 (created_audit (requestBody p) (problemId p) (userId p)
                    (sanitizedTitle p))) ;;;
      ai_stage env (problemId p) (userId p) (sessionId p)
        (data (problem_insert env)) (contentHash p) (sanitizedTitle p)
        (sanitizedDescription p) (sanitizedTextContent p)
  end.

(** The [try] block of the handler. *)
Definition handle (env : Env) (req : Request) : M Response :=
  p <- prepare env req ;; store_and_solve env p.

(** [serve]'s handler: the response, and the writes and calls made. *)
Definition serve (env : Env) (req : Request) : Response * list Effect :=
  if str_eqb (method req) (lit "OPTIONS") then
    ({| http_status := 200; body := JStr (lit "ok") |}, [])
  else
    match handle env req {| ops := []; calls := 0 |} with
    | (s, inl response) => (response, ops s)
    | (s, inr message) =>
        ({| http_status := 500;
            body := wire (JObj [("success"%string, JBool false);
                                ("error"%string, JStr message);
                                ("details"%string,
                                 JStr (lit "Secure processing failed"));
                                ("security"%string,
                                 JObj [("error_logged"%string, JBool true);
                                       ("timestamp"%string, JStr (now env 6))])]) |},
         ops s)
    end.

(** The stored submission row after each write of a run, the first being
    the insert: an update overrides the fields it names. *)
Fixpoint row_states (row : list (string * JsVal)) (es : list Effect)
  : list (list (string * JsVal)) :=
  match es with
  | [] => []
  | Insert "problem_submissions" (JObj fs) :: es' => fs :: row_states fs es'
  | Update "problem_submissions" (JObj fs) _ :: es' =>
      merge row fs :: row_states (merge row fs) es'
  | _ :: es' => row_states row es'
  end.

End Edge.

(* ===================================================================== *)
(** * The test component *)
(* ===================================================================== *)

Module TestComponent.

(** The body [testSubmitProblem] passes to the [submit-problem] function. *)
Definition submit_body : JsVal :=
  JObj [("input_type"%string, JStr (lit "text"));
        ("title"%string, JStr (lit "Test Problem"));
        ("text_content"%string, JStr (lit "What is the capital of France?"));
        ("user_id"%string, JStr (lit "test-user-id"))].

End TestComponent.

(* ===================================================================== *)
(** * The specification's vocabulary *)
(* ===================================================================== *)

(** A hexadecimal digit, in either case, and a lower-case one; five groups
    of 8, 4, 4, 4 and 12 digits, joined by hyphens. *)
Definition is_hex_digit (c : N) : bool :=
  ((48 <=? c) && (c <=? 57) || (97 <=? c) && (c <=? 102)
   || (65 <=? c) && (c <=? 70))%N.

Definition is_lower_hex_digit (c : N) : bool :=
  ((48 <=? c) && (c <=? 57) || (97 <=? c) && (c <=? 102))%N.

Definition group_of (digit : N -> bool) (n : nat) (g : str) : Prop :=
  List.length g = n /\ forallb digit g = true.

Definition canonical_form (digit : N -> bool) (s : str) : Prop :=
  exists g1 g2 g3 g4 g5,
    s = g1 ++ 45%N :: g2 ++ 45%N :: g3 ++ 45%N :: g4 ++ 45%N :: g5
    /\ group_of digit 8 g1 /\ group_of digit 4 g2 /\ group_of digit 4 g3
    /\ group_of digit 4 g4 /\ group_of digit 12 g5.

Definition hex_group := group_of is_hex_digit.
Definition canonical_uuid := canonical_form is_hex_digit.
Definition lowercase_uuid := canonical_form is_lower_hex_digit.

(** The groups a string falls into when cut at its hyphens. *)
Definition hyphen_groups (s : str) : list str := split 45 s.

(** Replacing, from left to right, each unit that satisfies [p] by what
    the replacer makes of it. *)
Fixpoint subst_each {S : Type} (p : N -> bool) (f : str -> S -> str * S)
    (s : str) (st : S) : str * S :=
  match s with
  | [] => ([], st)
  | c :: s' =>
      if p c then
        let (rep, st1) := f [c] st in
        let (out, st2) := subst_each p f s' st1 in
        (rep ++ out, st2)
      else
        let (out, st1) := subst_each p f s' st in
        (c :: out, st1)
  end.

(** The digit [generateUUID] writes for a draw of [Math.random]. *)
Definition nibble_char (v : Z) : N :=
  if (v <? 10)%Z then (48 + Z.to_N v)%N else (87 + Z.to_N v)%N.

Definition x_digit (random : nat -> Q) (n : nat) : N :=
  nibble_char (random_nibble (random n)).

Definition y_digit (random : nat -> Q) (n : nat) : N :=
  nibble_char (Z.lor (Z.land (random_nibble (random n)) 3) 8).

(** Equality of strings up to the case of ASCII letters. *)
Definition same_letters (u w : str) : Prop :=
  List.map ascii_upper u = List.map ascii_upper w.

(** The three passes of [sanitizeInput], before the final trim. *)
Definition strip_scripts (s : str) : str :=
  replace_all (compile true scriptRegex) [] s.

Definition strip_javascript (s : str) : str :=
  replace_all (compile true javascriptRegex) [] s.

Definition strip_handlers (s : str) : str :=
  replace_all (compile true handlerRegex) [] s.

(** [w] is a prefix of [s], up to the case of ASCII letters. *)
Fixpoint ci_prefix (w s : str) : bool :=
  match w, s with
  | [], _ => true
  | d :: w', c :: s' => (ascii_upper c =? ascii_upper d)%N && ci_prefix w' s'
  | _ :: _, [] => false
  end.

(** No [<] of the text opens a closing script tag. *)
Definition no_closing_tag (inner : str) : Prop :=
  forall p q, inner = p ++ 60%N :: q -> ci_prefix (lit "/script>") q = false.

(** A script block: the opening tag name in any case, the rest of the tag
    and the content, which do not continue the tag name and hold no closing
    tag, and the closing tag in any case. *)
Definition script_block (b : str) : Prop :=
  exists tag inner close,
    b = tag ++ inner ++ close
    /\ same_letters tag (lit "<script")
    /\ match inner with c :: _ => is_word c = false | [] => True end
    /\ no_closing_tag inner
    /\ same_letters close (lit "</script>").

(** An inline event-handler attribute up to its [=] sign. *)
Definition handler_attribute (h : str) : Prop :=
  exists on name blanks,
    h = on ++ name ++ blanks ++ [61%N]
    /\ same_letters on (lit "on")
    /\ name <> [] /\ forallb is_word name = true
    /\ forallb is_space blanks = true.

(** Text that none of the three patterns matches anywhere. *)
Definition plain_text (s : str) : Prop :=
  test (compile true scriptRegex) s = false
  /\ test (compile true javascriptRegex) s = false
  /\ test (compile true handlerRegex) s = false.

(** No white space at either end. *)
Definition trimmed (s : str) : Prop :=
  match s with c :: _ => is_space c = false | [] => True end
  /\ match rev s with c :: _ => is_space c = false | [] => True end.

(** Matchers read the text ahead and, of the text behind, the nearest unit
    only: two runs from positions that agree on both agree on where a
    match ends. *)
Definition agree (o1 o2 : option cursor) : Prop :=
  match o1, o2 with
  | Some z1, Some z2 => after z1 = after z2
  | None, None => True
  | _, _ => False
  end.

Definition same_place (x1 x2 : cursor) : Prop :=
  after x1 = after x2 /\ hd_error (before x1) = hd_error (before x2).

Definition conts_agree (k1 k2 : cont) : Prop :=
  forall y1 y2, same_place y1 y2 -> agree (k1 y1) (k2 y2).

Definition local (m : matcher) : Prop :=
  forall x1 x2 k1 k2,
    same_place x1 x2 -> conts_agree k1 k2 -> agree (m x1 k1) (m x2 k2).

(** Matchers that consume a unit before they look behind. *)
Definition blind (m : matcher) : Prop :=
  forall x1 x2 k1 k2,
    after x1 = after x2 -> conts_agree k1 k2 -> agree (m x1 k1) (m x2 k2).

Fixpoint starts_with_unit (r : re) : bool :=
  match r with
  | Chr _ | Class _ _ => true
  | Cat r1 _ => starts_with_unit r1
  | Plus r1 => starts_with_unit r1
  | _ => false
  end.


(** The group the script pattern repeats:
    [(?: (?!<\/script>) < [^<]* )]. *)
Definition script_group : re :=
  Cats [NotAhead (Lit "</script>"); Chr 60; Star not_lt].

(* --------------------------------------------------------------------- *)
(** ** The hook *)

(** The title is empty once trimmed. *)
Definition title_blank (data : Hook.ProblemSubmissionData) : Prop :=
  trim (Hook.title data) = [].

(** No content field is non-empty; a text content that is blank once
    trimmed counts as empty, as the code has it. *)
Definition no_content (data : Hook.ProblemSubmissionData) : Prop :=
  Hook.present (option_map trim (Hook.textContent data)) = false
  /\ Hook.present (Hook.imageData data) = false
  /\ Hook.present (Hook.voiceUrl data) = false.

(** The row's derived error text: [ai_response.error], else
    [ai_response.message], else [error_message], else the fallback. *)
Definition derived_error_text (row : JsVal) : JsVal :=
  if truthy (get "error" (get "ai_response" row)) then
    get "error" (get "ai_response" row)
  else if truthy (get "message" (get "ai_response" row)) then
    get "message" (get "ai_response" row)
  else if truthy (get "error_message" row) then get "error_message" row
  else JStr (lit "Problem processing failed").

(** A fetched row whose status is not terminal. *)
Definition nonterminal_row (data : JsVal) : Prop :=
  truthy data = true
  /\ is_str (get "status" data) (lit "completed") = false
  /\ is_str (get "status" data) (lit "error") = false.

(** A polling sequence in which no lookup or query fails and every fetched
    row has a status that is not terminal. *)
Definition never_terminal (env : Hook.Env) : Prop :=
  forall n,
    (exists session e, Hook.poll_session env n = Hook.SessionIs session e)
    /\ (exists data, Hook.poll_reply env n = Hook.QueryReturns data None
                     /\ nonterminal_row data).

(** The filters of the status query of attempt [n]. *)
Definition poll_filters (env : Hook.Env) (u : option Hook.User) (pid : JsVal)
    (n : nat) : list (string * JsVal) :=
  match Hook.poll_session env n, Hook.user_has_id u with
  | Hook.SessionIs (Some _) _, Some uid =>
      [("id"%string, pid); ("user_id"%string, JStr uid)]
  | _, _ => [("id"%string, pid)]
  end.

Definition status_query (env : Hook.Env) (u : option Hook.User) (pid : JsVal)
    (n : nat) : Hook.Effect :=
  Hook.SelectSingle (lit "problem_submissions") (poll_filters env u pid n).

(** The effects of [count] attempts in a row, the first with the counter
    at [n], a 2000 ms timer between one attempt and the next. *)
Fixpoint polling_trace (env : Hook.Env) (u : option Hook.User) (pid : JsVal)
    (n count : nat) : list Hook.Effect :=
  match count with
  | O => []
  | S count' =>
      Hook.GetSession :: status_query env u pid n ::
      match count' with
      | O => []
      | S _ => Hook.SetTimeout 2000 :: polling_trace env u pid (S n) count'
      end
  end.

Definition queries (es : list Hook.Effect) : list Hook.Effect :=
  filter Hook.is_query es.

Fixpoint delays (es : list Hook.Effect) : list Z :=
  match es with
  | [] => []
  | Hook.SetTimeout ms :: es' => ms :: delays es'
  | _ :: es' => delays es'
  end.

Definition timeout_message : str :=
  lit "Problem processing timed out. Please try again.".

(** The timer [pollForCompletion] leaves for the first attempt. *)
Definition first_timer (pid : JsVal) : Hook.Timer :=
  {| Hook.delay := 1000; Hook.problemId := pid; Hook.attempts := 0 |}.

(** Whether the response's status makes [submitProblem] start polling. *)
Definition in_progress (response : JsVal) : bool :=
  is_str (get "status" response) (lit "processing")
  || is_str (get "status" response) (lit "pending").

(** A world in which nothing has happened yet. *)
Definition initial_world : Hook.World :=
  {| Hook.hook := {| Hook.isSubmitting := false; Hook.result := None;
                     Hook.error := JNull |};
     Hook.effects := [];
     Hook.timers := [] |}.

(** Sample values, used to instantiate the statements below. *)
Definition sample_uuid : str := lit "123e4567-e89b-42d3-a456-426614174000".

Definition sample_row (status : string) : JsVal :=
  JObj [("id"%string, JStr sample_uuid); ("status"%string, JStr (lit status))].


Definition sample_env (response row : JsVal) : Hook.Env :=
  {| Hook.submit_session := Hook.SessionIs None false;
     Hook.submit_reply := Hook.InvokeReturns response None;
     Hook.poll_session := fun _ => Hook.SessionIs None false;
     Hook.poll_reply := fun _ => Hook.QueryReturns row None |}.

Definition sample_guest : Hook.Auth :=
  {| Hook.user := Some {| Hook.user_id := None; Hook.isGuest := true |};
     Hook.isAuthenticated := false |}.

Definition sample_data (title : string) (content : option string)
  : Hook.ProblemSubmissionData :=
  {| Hook.title := lit title;
     Hook.inputType := Hook.text;
     Hook.textContent := option_map lit content;
     Hook.imageData := None;
     Hook.voiceUrl := None;
     Hook.description := None |}.

(** The input passes the client's validation. *)
Definition valid_input (data : Hook.ProblemSubmissionData) : Prop :=
  Hook.non_empty (trim (Hook.title data)) = true
  /\ (Hook.present (option_map trim (Hook.textContent data))
      || Hook.present (Hook.imageData data)
      || Hook.present (Hook.voiceUrl data)) = true.

(** A guest: no live session token, not authenticated, flagged as guest. *)
Definition guest_context (auth : Hook.Auth) (session : option Hook.Session)
  : Prop :=
  match session with
  | Some s => Hook.non_empty (Hook.access_token s)
  | None => false
  end = false
  /\ Hook.isAuthenticated auth = false
  /\ exists u, Hook.user auth = Some u /\ Hook.isGuest u = true.

(** The body the endpoint receives from a guest: the object of the call,
    as serialized. *)
Definition guest_body (data : Hook.ProblemSubmissionData) : JsVal :=
  wire (Hook.requestBody data JUndefined).

(** A property is absent from an object. *)
Definition omits (k : string) (v : JsVal) : Prop :=
  match v with
  | JObj fs => assoc k fs = None
  | _ => False
  end.

(* --------------------------------------------------------------------- *)
(** ** The edge function *)

Definition start : Edge.St := {| Edge.ops := []; Edge.calls := 0 |}.

(** A text submission keeps a text content once the handler has sanitized
    it: what the handler's validation asks of a body sent by the hook. *)
Definition keeps_text (data : Hook.ProblemSubmissionData) : Prop :=
  Hook.inputType data = Hook.text ->
  Hook.present (option_map (fun s => sanitizeInput (trim s))
                           (Hook.textContent data)) = true.

(** The invariant of the data model, on a row and on a result.  A column
    or a field is present when it holds a truthy value: anything but
    [undefined], [null], [false], zero and the empty text. *)
Definition row_invariant (data : JsVal) : Prop :=
  (is_str (get "status" data) (lit "completed") = true
   <-> truthy (get "solution" data) = true
       /\ truthy (get "error_message" data) = false)
  /\ (is_str (get "status" data) (lit "error") = true
      <-> truthy (get "error_message" data) = true).

Definition result_invariant (r : Hook.ProblemResult) : Prop :=
  (is_str (Hook.status r) (lit "completed") = true
   <-> truthy (Hook.solution r) = true
       /\ truthy (Hook.errorMessage r) = false)
  /\ (is_str (Hook.status r) (lit "error") = true
      <-> truthy (Hook.errorMessage r) = true).

Definition is_present (v : JsVal) : bool :=
  match v with JUndefined => false | _ => true end.

(** The text the handler takes for the model's answer: the first part of
    the first candidate, or a fixed text when that is missing or empty. *)
Definition model_text (geminiData : JsVal) : JsVal :=
  jor (get "text"
         (Edge.first_of
            (get "parts"
               (get "content"
                  (Edge.first_of (get "candidates" geminiData))))))
      (JStr (lit "No solution generated")).

(** The model's answer, when the model gives one, is not empty once
    sanitized. *)
Definition answer_kept (env : Edge.Env) : Prop :=
  forall status geminiData s,
    Edge.gemini env = Edge.FetchResponds true status (inl geminiData) ->
    model_text geminiData = JStr s ->
    sanitizeInput s <> [].

(** Writes that do not touch the submissions table. *)
Definition elsewhere (e : Edge.Effect) : Prop :=
  match e with
  | Edge.Insert t _ => t = "users"%string \/ t = "learning_sessions"%string
  | _ => False
  end.

(** Sample requests and environments of the edge function. *)
Definition sample_edge_env (key : option string) : Edge.Env :=
  {| Edge.createClient_throws := None;
     Edge.random := fun _ => 1 # 2;
     Edge.session_insert :=
       {| Edge.data := JObj [("id"%string, JStr sample_uuid)];
          Edge.db_error := None |};
     Edge.problem_insert :=
       {| Edge.data := JObj [("security_flags"%string, JObj [])];
          Edge.db_error := None |};
     Edge.GOOGLE_API_KEY := option_map lit key;
     Edge.gemini := Edge.FetchRejects [];
     Edge.completion_update_error := None;
     Edge.digest_hex := fun _ => [];
     Edge.toLowerCase := fun s => s;
     Edge.now := fun _ => [];
     Edge.processing_time_ms := 0 |}.

Definition post (body : JsVal) : Edge.Request :=
  {| Edge.method := lit "POST"; Edge.json := inl body |}.

(** A guest's text submission whose only content is an image. *)
Definition image_only : Hook.ProblemSubmissionData :=
  {| Hook.title := lit "Q";
     Hook.inputType := Hook.text;
     Hook.textContent := None;
     Hook.imageData := Some (lit "abc");
     Hook.voiceUrl := None;
     Hook.description := None |}.

(** A computation of the handler keeps a property of the log of effects. *)
Definition keeps (P : list Edge.Effect -> Prop) {A : Type} (m : Edge.M A)
  : Prop :=
  forall s, P (Edge.ops s) -> P (Edge.ops (fst (m s))).

(** The log starts with the insertion of a guest user. *)
Definition mints (guest : str) (log : list Edge.Effect) : Prop :=
  exists rest, log = Edge.Insert "users" (Edge.guest_user guest) :: rest.

(** The invariant of a row, as a test. *)
Definition row_invariant_b (data : JsVal) : bool :=
  Bool.eqb (is_str (get "status" data) (lit "completed"))
           (truthy (get "solution" data)
            && negb (truthy (get "error_message" data)))
  && Bool.eqb (is_str (get "status" data) (lit "error"))
              (truthy (get "error_message" data)).

(** A fetched row marked completed that holds no solution. *)
Definition bare_completed_row : JsVal :=
  JObj [("id"%string, JStr sample_uuid);
        ("status"%string, JStr (lit "completed"));
        ("solution"%string, JNull)].

(** A fetched row as the handler leaves it on success. *)
Definition solved_row : JsVal :=
  JObj [("id"%string, JStr sample_uuid);
        ("status"%string, JStr (lit "completed"));
        ("solution"%string, JStr (lit "4"))].

(** A request that names no title. *)
Definition untitled_body : JsVal :=
  JObj [("input_type"%string, JStr (lit "text"))].


(* --------------------------------------------------------------------- *)
(** ** Occurrences of what [sanitizeInput] removes *)

(** The text [javascript:], its letters in any case. *)
Definition javascript_scheme (j : str) : Prop :=
  same_letters j (lit "javascript:").

(** An inline event-handler attribute as the specification names the
    pattern, [on\w+=]: no white space before the [=] sign. *)
Definition claimed_handler (h : str) : Prop :=
  exists on name,
    h = on ++ name ++ [61%N]
    /\ same_letters on (lit "on")
    /\ name <> [] /\ forallb is_word name = true.

(** [s] begins with a text that satisfies [P]. *)
Definition begins (P : str -> Prop) (s : str) : Prop :=
  exists b t, s = b ++ t /\ P b.

(** No text that satisfies [P] occurs in [s]. *)
Definition free_of (P : str -> Prop) (s : str) : Prop :=
  forall a b t, s = a ++ b ++ t -> ~ P b.

(** No text that satisfies [P] starts in [s] before the offset [n]. *)
Definition free_before (P : str -> Prop) (n : nat) (s : str) : Prop :=
  forall a b t, s = a ++ b ++ t -> P b -> (n <= List.length a)%nat.

(** Some [=] sign of the text follows a word character at once. *)
Fixpoint word_then_equals (s : str) : bool :=
  match s with
  | c :: s' =>
      match s' with
      | d :: _ => is_word c && (d =? 61)%N || word_then_equals s'
      | [] => false
      end
  | [] => false
  end.

(** The open tags the script pattern walks over before the closing tag
    that [rest] starts with: each starts with [<], and no [<] of them
    opens a closing tag. *)
Definition open_tags (v rest : str) : Prop :=
  match v with c :: _ => c = 60%N | [] => True end
  /\ forall p q, v = p ++ 60%N :: q ->
                 ci_prefix (lit "/script>") (q ++ rest) = false.

(** No attempt of the matcher that starts at a unit of [a] succeeds on
    [a ++ rest]. *)
Fixpoint no_start (m : matcher) (a rest : str) : bool :=
  match a with
  | [] => true
  | c :: a' =>
      match match_at m [] (a ++ rest) with
      | Some _ => false
      | None => no_start m a' rest
      end
  end.
(* ===================================================================== *)
(** * Vocabulary of the further properties *)
(* ===================================================================== *)

(* --------------------------------------------------------------------- *)
(** ** Further vocabulary: the hook *)

(** What one call of [submitProblem] may add to the log of effects. *)
Definition submission_trace (es : list Hook.Effect) : Prop :=
  es = []
  \/ es = [Hook.GetSession]
  \/ (exists body headers,
        es = [Hook.GetSession; Hook.Invoke (lit "submit-problem") body headers])
  \/ (exists body headers,
        es = [Hook.GetSession; Hook.Invoke (lit "submit-problem") body headers;
              Hook.SetTimeout 1000]).

(** The text of a thrown value, as [submitProblem]'s [catch] reads it. *)
Definition caught_text (t : Hook.Thrown) : str :=
  match t with
  | Hook.ThrowError m => m
  | Hook.ThrowObject j _ => j
  | Hook.ThrowOther s => s
  end.

(** The text of a thrown value, as [poll]'s [catch] reads it. *)
Definition polled_text (t : Hook.Thrown) : str :=
  match t with
  | Hook.ThrowError m => m
  | Hook.ThrowObject _ s => s
  | Hook.ThrowOther s => s
  end.

(** The world a call of [submitProblem] starts from, its state reset. *)
Definition reset (w : Hook.World) : Hook.World :=
  Hook.setIsSubmitting true (Hook.setResult None (Hook.setError JNull w)).

(** The headers of the call: the bearer token of a session that holds
    one. *)
Definition bearer (session : option Hook.Session) : list (string * str) :=
  match session with
  | Some s =>
      if Hook.non_empty (Hook.access_token s)
      then [("Authorization"%string, lit "Bearer " ++ Hook.access_token s)]
      else []
  | None => []
  end.

(** A signed-in user: a live session token and a well-formed identifier. *)
Definition sample_member : Hook.Auth :=
  {| Hook.user := Some {| Hook.user_id := Some sample_uuid;
                          Hook.isGuest := false |};
     Hook.isAuthenticated := true |}.

Definition sample_session : Hook.Session :=
  {| Hook.access_token := lit "token" |}.

(** An environment told by what the session lookup and the call of a
    submission answer. *)
Definition hook_env (session : Hook.SessionReply) (reply : Hook.InvokeReply)
  : Hook.Env :=
  {| Hook.submit_session := session;
     Hook.submit_reply := reply;
     Hook.poll_session := fun _ => Hook.SessionIs None false;
     Hook.poll_reply := fun _ => Hook.QueryReturns JNull None |}.

Definition member_env : Hook.Env :=
  hook_env (Hook.SessionIs (Some sample_session) false)
           (Hook.InvokeRejects (Hook.ThrowOther [])).

Definition sum_data : Hook.ProblemSubmissionData :=
  sample_data "Sum" (Some "2+2?"%string).

Definition unauthorized : Hook.FunctionsError :=
  Hook.FnError (lit "FunctionsHttpError") (JNum 401) [].

(** Nobody is signed in. *)
Definition sample_anonymous : Hook.Auth :=
  {| Hook.user := None; Hook.isAuthenticated := false |}.

(** The session holds a token. *)
Definition live (session : option Hook.Session) : bool :=
  match session with
  | Some s => Hook.non_empty (Hook.access_token s)
  | None => false
  end.

(** The user at hand has a well-formed identifier. *)
Definition valid_user_id (auth : Hook.Auth) : bool :=
  match Hook.user_has_id (Hook.user auth) with
  | Some i => isValidUUID i
  | None => false
  end.

Definition is_guest (auth : Hook.Auth) : bool :=
  match Hook.user auth with
  | Some u => Hook.isGuest u
  | None => false
  end.

(** The timer a polling attempt leaves for the next one. *)
Definition next_timer (pid : JsVal) (n : nat) : Hook.Timer :=
  {| Hook.delay := 2000; Hook.problemId := pid; Hook.attempts := S n |}.

(** The network calls of a log. *)
Definition network (es : list Hook.Effect) : list Hook.Effect :=
  filter Hook.is_network es.

(** An environment whose store always answers the same. *)
Definition store_env (reply : Hook.QueryReply) : Hook.Env :=
  {| Hook.submit_session := Hook.SessionIs None false;
     Hook.submit_reply := Hook.InvokeReturns JNull None;
     Hook.poll_session := fun _ => Hook.SessionIs None false;
     Hook.poll_reply := fun _ => reply |}.

Definition not_found : Hook.PostgrestError :=
  {| Hook.code := JStr (lit "PGRST116"); Hook.pg_message := [] |}.

(* --------------------------------------------------------------------- *)
(** ** Further vocabulary: the edge function *)

(** A computation of the handler throws, and keeps a property of the log
    of effects while doing so. *)
Definition aborts (P : list Edge.Effect -> Prop) {A : Type} (m : Edge.M A)
  : Prop :=
  forall s, P (Edge.ops s) ->
            P (Edge.ops (fst (m s))) /\ exists e, snd (m s) = inr e.

(** The request is not a preflight. *)
Definition not_preflight (req : Edge.Request) : Prop :=
  str_eqb (Edge.method req) (lit "OPTIONS") = false.

(** The response tells a failure of the handler's [catch]: it carries the
    message and names no problem. *)
Definition caught (r : Edge.Response) (message : str) : Prop :=
  Edge.http_status r = 500%Z
  /\ get "success" (Edge.body r) = JBool false
  /\ get "error" (Edge.body r) = JStr message
  /\ get "details" (Edge.body r) = JStr (lit "Secure processing failed")
  /\ get "problemId" (Edge.body r) = JUndefined.

(** The writes of a log to the submissions table, in order: the
    identifier each one reaches and the status it sets. *)
Fixpoint submission_writes (es : list Edge.Effect) : list (JsVal * JsVal) :=
  match es with
  | [] => []
  | Edge.Insert "problem_submissions" row :: es' =>
      (get "id" row, get "status" row) :: submission_writes es'
  | Edge.Update "problem_submissions" fields id :: es' =>
      (id, get "status" fields) :: submission_writes es'
  | _ :: es' => submission_writes es'
  end.

(** The rows a log inserts into the submissions table. *)
Fixpoint inserted_rows (es : list Edge.Effect) : list JsVal :=
  match es with
  | [] => []
  | Edge.Insert "problem_submissions" row :: es' => row :: inserted_rows es'
  | _ :: es' => inserted_rows es'
  end.

(** The calls of a log to the model. *)
Fixpoint fetches (es : list Edge.Effect) : list str :=
  match es with
  | [] => []
  | Edge.Fetch key _ :: es' => key :: fetches es'
  | _ :: es' => fetches es'
  end.

Definition wrote_processing (i : JsVal) : JsVal * JsVal :=
  (i, JStr (lit "processing")).

Definition wrote_error (i : JsVal) : JsVal * JsVal :=
  (i, JStr (lit "error")).

Definition wrote_completed (i : JsVal) : JsVal * JsVal :=
  (i, JStr (lit "completed")).

(** How the handler leaves a submission once it has tried to store it:
    the response or the error thrown, against the writes made. *)
Definition settled (env : Edge.Env) (i : JsVal) (ws : list (JsVal * JsVal))
    (res : Edge.Response + str) : Prop :=
  match res with
  | inl r =>
      get "problemId" (Edge.body r) = i
      /\ ((Edge.http_status r = 200%Z
           /\ get "success" (Edge.body r) = JBool true
           /\ get "status" (Edge.body r) = JStr (lit "completed")
           /\ ws = [wrote_processing i; wrote_completed i])
          \/ (Edge.http_status r = 503%Z
              /\ get "success" (Edge.body r) = JBool false
              /\ Hook.present (Edge.GOOGLE_API_KEY env) = false
              /\ ws = [wrote_processing i; wrote_error i])
          \/ (Edge.http_status r = 500%Z
              /\ get "success" (Edge.body r) = JBool false
              /\ Hook.present (Edge.GOOGLE_API_KEY env) = true
              /\ ws = [wrote_processing i; wrote_error i]))
  | inr _ =>
      ws = [wrote_processing i]
      \/ (ws = [wrote_processing i; wrote_completed i]
          /\ Edge.completion_update_error env <> None)
  end.

(** A text question, as a request body that names no user. *)
Definition sample_body : JsVal :=
  JObj [("input_type"%string, JStr (lit "text"));
        ("title"%string, JStr (lit "Sum"));
        ("text_content"%string, JStr (lit "2+2?"))].

(** An environment of the handler told by the key and by what the model
    answers. *)
Definition model_env (key : option string) (reply : Edge.FetchReply)
  : Edge.Env :=
  {| Edge.createClient_throws := None;
     Edge.random := fun _ => 1 # 2;
     Edge.session_insert :=
       {| Edge.data := JObj [("id"%string, JStr sample_uuid)];
          Edge.db_error := None |};
     Edge.problem_insert :=
       {| Edge.data := JObj [("security_flags"%string, JObj []);
                             ("created_at"%string, JStr [])];
          Edge.db_error := None |};
     Edge.GOOGLE_API_KEY := option_map lit key;
     Edge.gemini := reply;
     Edge.completion_update_error := None;
     Edge.digest_hex := fun _ => [];
     Edge.toLowerCase := fun s => s;
     Edge.now := fun _ => [];
     Edge.processing_time_ms := 0 |}.

(** An answer of the model that carries one text. *)
Definition model_answer (answer : string) : JsVal :=
  JObj [("candidates"%string,
         JArr [JObj [("content"%string,
                      JObj [("parts"%string,
                             JArr [JObj [("text"%string,
                                          JStr (lit answer))]])])]])].

(** A write that creates no user. *)
Definition no_user_insert (e : Edge.Effect) : Prop :=
  match e with
  | Edge.Insert t _ => t <> "users"%string
  | _ => True
  end.

(** A request body that names its user. *)
Definition member_body : JsVal :=
  JObj [("input_type"%string, JStr (lit "text"));
        ("title"%string, JStr (lit "Sum"));
        ("text_content"%string, JStr (lit "2+2?"));
        ("user_id"%string, JStr sample_uuid)].

(** A request body whose user is not a string: an array of one
    identifier, which reads as that identifier once made a string. *)
Definition listed_user_body : JsVal :=
  JObj [("input_type"%string, JStr (lit "text"));
        ("title"%string, JStr (lit "Sum"));
        ("text_content"%string, JStr (lit "2+2?"));
        ("user_id"%string, JArr [JStr sample_uuid])].

(** The subjects and the difficulties the keyword scan can yield. *)
Definition subjects : list str :=
  [lit "General"; lit "Mathematics"; lit "Science"; lit "History";
   lit "English"].

Definition difficulties : list str := [lit "easy"; lit "medium"; lit "hard"].

(** A computation of the handler, when it returns, returns a value that
    satisfies [Q]. *)
Definition ensures {A : Type} (m : Edge.M A) (Q : A -> Prop) : Prop :=
  forall s s' a, m s = (s', inl a) -> Q a.

(** [Math.random] yields a number of the unit interval. *)
Definition unit_random (env : Edge.Env) : Prop :=
  forall n, (0 <= Edge.random env n)%Q /\ (Edge.random env n < 1)%Q.

(** What [prepare] has established of a request when it returns. *)
Definition established (req : Edge.Request) (p : Edge.Prepared) : Prop :=
  Edge.json req = inl (Edge.requestBody p)
  /\ isValidUUID (Edge.problemId p) = true
  /\ validateUUID (ToString (Edge.userId p)) = true
  /\ truthy (Edge.userId p) = true
  /\ (truthy (get "user_id" (Edge.requestBody p)) = true ->
      Edge.userId p = get "user_id" (Edge.requestBody p))
  /\ (exists t, get "title" (Edge.requestBody p) = JStr t
                /\ Edge.sanitizedTitle p = sanitizeInput t)
  /\ truthy (get "input_type" (Edge.requestBody p)) = true
  /\ (is_str (get "input_type" (Edge.requestBody p)) (lit "text") = true ->
      Hook.present (Edge.sanitizedTextContent p) = true)
  /\ (forall t, Edge.sanitizedTextContent p = Some t -> trimmed t)
  /\ (truthy (get "user_id" (Edge.requestBody p)) = false ->
      exists u, Edge.userId p = JStr u /\ validateUUID u = true).

(* --------------------------------------------------------------------- *)
(** ** Further vocabulary: the helpers *)

(** [u] is what is left of [s] once some of its units are deleted. *)
Inductive subsequence : str -> str -> Prop :=
| sub_nil : subsequence [] []
| sub_skip (c : N) (u s : str) : subsequence u s -> subsequence u (c :: s)
| sub_keep (c : N) (u s : str) :
    subsequence u s -> subsequence (c :: u) (c :: s).

(** A text in which one script block is nested in the opening tag of
    another. *)
Definition nested_script : str :=
  lit "<scr<script></script>ipt>alert(1)</script>".

(* ===================================================================== *)
(** * Facts about the matcher *)
(* ===================================================================== *)

Ltac bool_arith :=
  repeat match goal with
         | H : _ && _ = true |- _ => apply andb_true_iff in H; destruct H
         | H : _ || _ = true |- _ => apply orb_true_iff in H; destruct H
         | H : _ && _ = false |- _ => apply andb_false_iff in H; destruct H
         | H : _ || _ = false |- _ => apply orb_false_iff in H; destruct H
         | H : (_ <=? _)%N = true |- _ => apply N.leb_le in H
         | H : (_ <=? _)%N = false |- _ => apply N.leb_gt in H
         | H : (_ =? _)%N = true |- _ => apply N.eqb_eq in H
         | H : (_ =? _)%N = false |- _ => apply N.eqb_neq in H
         end.

Lemma one_some (p : N -> bool) (x : cursor) (k : cont) (z : cursor) :
  one p x k = Some z <->
  exists c rest, after x = c :: rest /\ p c = true
                 /\ k (Cursor (c :: before x) rest) = Some z.
Proof.
  unfold one. destruct (after x) as [|c rest].
  - split; [discriminate | intros (c & r & H & _); discriminate].
  - destruct (p c) eqn:Hp.
    + split; [intros H; exists c, rest; auto |].
      intros (c' & r' & H & _ & Hk). now inversion H; subst.
    + split; [discriminate |].
      intros (c' & r' & H & Hp' & _). inversion H; subst. congruence.
Qed.

Lemma times_one_some (p : N -> bool) (n : nat) :
  forall (x : cursor) (k : cont) (z : cursor),
    times (one p) n x k = Some z <->
    exists g rest, after x = g ++ rest /\ List.length g = n
                   /\ forallb p g = true
                   /\ k (Cursor (rev g ++ before x) rest) = Some z.
Proof.
  induction n as [|n IH]; intros x k z; simpl.
  - split.
    + intros H. exists [], (after x). destruct x; auto.
    + intros (g & rest & Ha & Hl & _ & Hk).
      destruct g; [|discriminate]. simpl in *. destruct x; simpl in *.
      now subst.
  - rewrite one_some. split.
    + intros (c & rest & Ha & Hp & Hk).
      apply IH in Hk. destruct Hk as (g & rest' & Ha' & Hl & Hg & Hk).
      simpl in *. exists (c :: g), rest'. subst. simpl.
      rewrite Hp, Hg, <- app_assoc. auto.
    + intros (g & rest & Ha & Hl & Hg & Hk).
      destruct g as [|c g]; [discriminate|]. simpl in *.
      apply andb_true_iff in Hg. destruct Hg as [Hp Hg].
      exists c, (g ++ rest). repeat split; auto.
      apply IH. exists g, rest. simpl. rewrite <- app_assoc in Hk.
      repeat split; auto.
Qed.

Lemma forallb_ext_eq (p q : N -> bool) (g : str) :
  (forall c, p c = q c) -> forallb p g = forallb q g.
Proof. intros H. induction g; simpl; [|rewrite H, IHg]; reflexivity. Qed.

(** A pattern that starts with [^] is only tried with success at the
    start of the string. *)
Lemma test_from_bol (i : bool) (r : re) (aft : str) :
  forall b bef, test_from (compile i (Cat Bol r)) (b :: bef) aft = false.
Proof.
  induction aft as [|c aft IH]; intros b bef; simpl; [reflexivity|].
  apply IH.
Qed.

Lemma test_anchored (i : bool) (r : re) (s : str) :
  test (compile i (Cat Bol r)) s =
  match match_at (compile i r) [] s with Some _ => true | None => false end.
Proof.
  unfold test. destruct s as [|c s]; simpl.
  - unfold match_at. simpl. destruct (compile i r _ _); reflexivity.
  - unfold match_at. simpl. destruct (compile i r _ _); [reflexivity|].
    apply test_from_bol.
Qed.

(* ===================================================================== *)
(** * The UUID validator *)
(* ===================================================================== *)

Lemma hex_class_mem (c : N) :
  class_mem true [Range 48 57; Range 97 102] c = is_hex_digit c.
Proof.
  unfold class_mem, is_hex_digit, item_mem, existsb, ascii_upper, ascii_lower.
  destruct (N.leb_spec 48 c), (N.leb_spec c 57), (N.leb_spec 97 c),
    (N.leb_spec c 102), (N.leb_spec 65 c), (N.leb_spec c 70),
    (N.leb_spec c 122), (N.leb_spec c 90); simpl; try reflexivity; try lia;
    repeat match goal with
           | |- context [(?a <=? ?b)%N] =>
               destruct (N.leb_spec a b); simpl; try lia
           end; reflexivity.
Qed.

Lemma hex_times (n : nat) (x : cursor) (k : cont) (z : cursor) :
  compile true (Times n hex_class) x k = Some z <->
  exists g rest, after x = g ++ rest /\ hex_group n g
                 /\ k (Cursor (rev g ++ before x) rest) = Some z.
Proof.
  simpl. rewrite times_one_some. unfold hex_group, group_of.
  assert (E : forall g, forallb (fun ch => xorb false
              (class_mem true [Range 48 57; Range 97 102] ch)) g
              = forallb is_hex_digit g).
  { intros g. apply forallb_ext_eq. intros c. now rewrite hex_class_mem. }
  split.
  - intros (g & rest & Ha & Hl & Hg & Hk). exists g, rest.
    rewrite E in Hg. auto.
  - intros (g & rest & Ha & [Hl Hg] & Hk). exists g, rest.
    rewrite E. auto.
Qed.

Lemma canon_hyphen (c : N) : (canon true c =? canon true 45)%N = (c =? 45)%N.
Proof.
  unfold canon, ascii_upper. simpl.
  destruct (N.leb_spec 97 c), (N.leb_spec c 122); simpl; try reflexivity.
  destruct (N.eqb_spec (c - 32) 45), (N.eqb_spec c 45); try reflexivity; lia.
Qed.

Lemma hyphen_one (x : cursor) (k : cont) (z : cursor) :
  compile true (Chr 45) x k = Some z <->
  exists rest, after x = 45%N :: rest
               /\ k (Cursor (45%N :: before x) rest) = Some z.
Proof.
  simpl. rewrite one_some. split.
  - intros (c & rest & Ha & Hp & Hk). rewrite canon_hyphen in Hp.
    apply N.eqb_eq in Hp. subst. eauto.
  - intros (rest & Ha & Hk). exists 45%N, rest. auto.
Qed.

Lemma compile_cat (i : bool) (r1 r2 : re) (x : cursor) (k : cont) :
  compile i (Cat r1 r2) x k = compile i r1 x (fun y => compile i r2 y k).
Proof. reflexivity. Qed.

Lemma uuid_match (s : str) :
  isValidUUID s = true <-> canonical_uuid s.
Proof.
  unfold isValidUUID, uuidRegex, canonical_uuid, canonical_form.
  fold hex_group.
  change (Cats _) with
    (Cat Bol (Cat (Times 8 hex_class) (Cat (Chr 45)
      (Cat (Times 4 hex_class) (Cat (Chr 45)
        (Cat (Times 4 hex_class) (Cat (Chr 45)
          (Cat (Times 4 hex_class) (Cat (Chr 45)
            (Cat (Times 12 hex_class) Eol)))))))))).
  rewrite test_anchored. unfold match_at.
  match goal with |- context [compile true ?r ?x ?k] =>
    destruct (compile true r x k) as [z|] eqn:E end.
  - split; [intros _|reflexivity].
    rewrite compile_cat in E. apply hex_times in E.
    destruct E as (g1 & r1 & H1 & G1 & E).
    rewrite compile_cat in E. apply hyphen_one in E.
    destruct E as (r1' & A1 & E).
    rewrite compile_cat in E. apply hex_times in E.
    destruct E as (g2 & r2 & H2 & G2 & E).
    rewrite compile_cat in E. apply hyphen_one in E.
    destruct E as (r2' & A2 & E).
    rewrite compile_cat in E. apply hex_times in E.
    destruct E as (g3 & r3 & H3 & G3 & E).
    rewrite compile_cat in E. apply hyphen_one in E.
    destruct E as (r3' & A3 & E).
    rewrite compile_cat in E. apply hex_times in E.
    destruct E as (g4 & r4 & H4 & G4 & E).
    rewrite compile_cat in E. apply hyphen_one in E.
    destruct E as (r4' & A4 & E).
    rewrite compile_cat in E. apply hex_times in E.
    destruct E as (g5 & r5 & H5 & G5 & E).
    simpl in *. destruct r5; [|discriminate E].
    exists g1, g2, g3, g4, g5. subst. rewrite app_nil_r. auto 10.
  - split; [discriminate|]. intros (g1 & g2 & g3 & g4 & g5 & Hs & G1 & G2 & G3 & G4 & G5).
    exfalso. assert (exists z, compile true
      (Cat (Times 8 hex_class) (Cat (Chr 45)
      (Cat (Times 4 hex_class) (Cat (Chr 45)
        (Cat (Times 4 hex_class) (Cat (Chr 45)
          (Cat (Times 4 hex_class) (Cat (Chr 45)
            (Cat (Times 12 hex_class) Eol))))))))) (Cursor [] s) Some = Some z)
      as [z Hz]; [|congruence].
    eexists.
    rewrite compile_cat. apply hex_times. exists g1; eexists.
    split; [exact Hs|]. split; [exact G1|].
    rewrite compile_cat. apply hyphen_one. eexists. split; [reflexivity|].
    rewrite compile_cat. apply hex_times. exists g2; eexists.
    split; [reflexivity|]. split; [exact G2|].
    rewrite compile_cat. apply hyphen_one. eexists. split; [reflexivity|].
    rewrite compile_cat. apply hex_times. exists g3; eexists.
    split; [reflexivity|]. split; [exact G3|].
    rewrite compile_cat. apply hyphen_one. eexists. split; [reflexivity|].
    rewrite compile_cat. apply hex_times. exists g4; eexists.
    split; [reflexivity|]. split; [exact G4|].
    rewrite compile_cat. apply hyphen_one. eexists. split; [reflexivity|].
    rewrite compile_cat. apply hex_times. exists g5, [].
    split; [simpl; now rewrite app_nil_r|]. split; [exact G5|].
    reflexivity.
Qed.

Lemma hex_not_hyphen (c : N) : is_hex_digit c = true -> (c =? 45)%N = false.
Proof.
  unfold is_hex_digit. intros H. bool_arith; apply N.eqb_neq; lia.
Qed.

Lemma split_group (g rest : str) :
  forallb is_hex_digit g = true ->
  split 45 (g ++ 45%N :: rest) = g :: split 45 rest.
Proof.
  induction g as [|c g IH]; simpl; intros H; [reflexivity|].
  apply andb_true_iff in H. destruct H as [Hc Hg].
  rewrite (hex_not_hyphen _ Hc), (IH Hg). reflexivity.
Qed.

Lemma split_last_group (g : str) :
  forallb is_hex_digit g = true -> split 45 g = [g].
Proof.
  induction g as [|c g IH]; simpl; intros H; [reflexivity|].
  apply andb_true_iff in H. destruct H as [Hc Hg].
  rewrite (hex_not_hyphen _ Hc), (IH Hg). reflexivity.
Qed.

Lemma canonical_groups (s : str) :
  canonical_uuid s -> List.length (hyphen_groups s) = 5%nat.
Proof.
  intros (g1 & g2 & g3 & g4 & g5 & Hs & [_ G1] & [_ G2] & [_ G3] & [_ G4] & [_ G5]).
  unfold hyphen_groups. subst s.
  rewrite (split_group _ _ G1), (split_group _ _ G2), (split_group _ _ G3),
    (split_group _ _ G4), (split_last_group _ G5).
  reflexivity.
Qed.

Lemma lower_is_hex (c : N) : is_lower_hex_digit c = true -> is_hex_digit c = true.
Proof.
  unfold is_lower_hex_digit, is_hex_digit. intros ->. reflexivity.
Qed.

Lemma forallb_impl (p q : N -> bool) (g : str) :
  (forall c, p c = true -> q c = true) ->
  forallb p g = true -> forallb q g = true.
Proof.
  intros H. induction g as [|c g IH]; simpl; [auto|].
  intros E. apply andb_true_iff in E. destruct E as [E1 E2].
  rewrite (H _ E1), (IH E2). reflexivity.
Qed.

Lemma lowercase_canonical (s : str) : lowercase_uuid s -> canonical_uuid s.
Proof.
  intros (g1 & g2 & g3 & g4 & g5 & Hs & [L1 G1] & [L2 G2] & [L3 G3] & [L4 G4] & [L5 G5]).
  exists g1, g2, g3, g4, g5. unfold hex_group, group_of.
  pose proof (forallb_impl _ _ g1 lower_is_hex G1).
  pose proof (forallb_impl _ _ g2 lower_is_hex G2).
  pose proof (forallb_impl _ _ g3 lower_is_hex G3).
  pose proof (forallb_impl _ _ g4 lower_is_hex G4).
  pose proof (forallb_impl _ _ g5 lower_is_hex G5).
  auto 12.
Qed.

(* ===================================================================== *)
(** * Replacement *)
(* ===================================================================== *)

Lemma replace_from_no_match {S : Type} (m : matcher) (f : str -> S -> str * S)
    (bef : str) (c : N) (aft : str) (st : S) :
  match_at m bef (c :: aft) = None ->
  replace_from m f 0 bef (c :: aft) st =
  let (out, st1) := replace_from m f 0 (c :: bef) aft st in (c :: out, st1).
Proof. intros H. cbn [replace_from]. rewrite H. reflexivity. Qed.

Lemma replace_from_match {S : Type} (m : matcher) (f : str -> S -> str * S)
    (bef : str) (c : N) (aft : str) (st : S) (y : cursor) (n : nat) :
  match_at m bef (c :: aft) = Some y ->
  (List.length (c :: aft) - List.length (after y) = Datatypes.S n)%nat ->
  replace_from m f 0 bef (c :: aft) st =
  let (rep, st1) := f (firstn (Datatypes.S n) (c :: aft)) st in
  let (out, st2) := replace_from m f n (c :: bef) aft st1 in
  (rep ++ out, st2).
Proof. intros H L. cbn [replace_from]. rewrite H, L. reflexivity. Qed.

Lemma replace_from_end {S : Type} (m : matcher) (f : str -> S -> str * S)
    (bef : str) (st : S) :
  match_at m bef [] = None -> replace_from m f 0 bef [] st = ([], st).
Proof. intros H. cbn [replace_from]. rewrite H. reflexivity. Qed.

(** A pattern that is one class replaces unit by unit. *)
Lemma replace_one {S : Type} (p : N -> bool) (f : str -> S -> str * S)
    (aft : str) :
  forall bef st, replace_from (one p) f 0 bef aft st = subst_each p f aft st.
Proof.
  induction aft as [|c aft IH]; intros bef st.
  - apply replace_from_end. reflexivity.
  - simpl subst_each. destruct (p c) eqn:Hp.
    + rewrite (@replace_from_match S (one p) f bef c aft st
                 (Cursor (c :: bef) aft) 0).
      * simpl firstn. destruct (f [c] st) as [rep st1]. rewrite IH. reflexivity.
      * unfold match_at, one. simpl. now rewrite Hp.
      * cbn [after List.length]. lia.
    + rewrite replace_from_no_match.
      * rewrite IH. reflexivity.
      * unfold match_at, one. simpl. now rewrite Hp.
Qed.

(** Text in which the pattern matches nowhere is left as it is. *)
Lemma replace_from_plain {S : Type} (m : matcher) (f : str -> S -> str * S)
    (aft : str) :
  forall bef st, test_from m bef aft = false ->
                 replace_from m f 0 bef aft st = (aft, st).
Proof.
  induction aft as [|c aft IH]; intros bef st H; simpl in H.
  - destruct (match_at m bef []) eqn:E; [discriminate|].
    now apply replace_from_end.
  - destruct (match_at m bef (c :: aft)) eqn:E; [discriminate|].
    rewrite replace_from_no_match by exact E. now rewrite IH.
Qed.

Lemma replace_all_plain (m : matcher) (rep s : str) :
  test m s = false -> replace_all m rep s = s.
Proof.
  unfold replace_all, test. intros H. now rewrite replace_from_plain.
Qed.

(* ===================================================================== *)
(** * generateUUID *)
(* ===================================================================== *)

Lemma random_nibble_range (q : Q) :
  (0 <= q)%Q -> (q < 1)%Q -> (0 <= random_nibble q < 16)%Z.
Proof.
  unfold Qle, Qlt, random_nibble, truncate. destruct q as [num den]. simpl.
  intros H0 H1. rewrite !Z.mul_1_r in *. rewrite Pos.mul_1_r.
  assert (Hq : (0 <= Z.quot (num * 16) (Z.pos den) < 16)%Z).
  { rewrite Z.quot_div_nonneg by lia. split.
    - apply Z.div_pos; lia.
    - apply Z.div_lt_upper_bound; lia. }
  unfold toInt32. rewrite Z.mod_small by lia.
  destruct (Z.ltb_spec (Z.quot (num * 16) (Z.pos den)) 2147483648); lia.
Qed.

Lemma toString_nibble (v : Z) :
  (0 <= v < 16)%Z -> toString_radix 16 v = [nibble_char v].
Proof.
  intros H.
  assert (E : (v = 0 \/ v = 1 \/ v = 2 \/ v = 3 \/ v = 4 \/ v = 5 \/ v = 6
               \/ v = 7 \/ v = 8 \/ v = 9 \/ v = 10 \/ v = 11 \/ v = 12
               \/ v = 13 \/ v = 14 \/ v = 15)%Z) by lia.
  repeat destruct E as [E|E]; subst v; reflexivity.
Qed.

Lemma nibble_char_lower (v : Z) :
  (0 <= v < 16)%Z -> is_lower_hex_digit (nibble_char v) = true.
Proof.
  intros H.
  assert (E : (v = 0 \/ v = 1 \/ v = 2 \/ v = 3 \/ v = 4 \/ v = 5 \/ v = 6
               \/ v = 7 \/ v = 8 \/ v = 9 \/ v = 10 \/ v = 11 \/ v = 12
               \/ v = 13 \/ v = 14 \/ v = 15)%Z) by lia.
  repeat destruct E as [E|E]; subst v; reflexivity.
Qed.

Lemma variant_range (r : Z) : (0 <= r < 16)%Z -> (8 <= Z.lor (Z.land r 3) 8 < 12)%Z.
Proof.
  intros H.
  assert (E : (r = 0 \/ r = 1 \/ r = 2 \/ r = 3 \/ r = 4 \/ r = 5 \/ r = 6
               \/ r = 7 \/ r = 8 \/ r = 9 \/ r = 10 \/ r = 11 \/ r = 12
               \/ r = 13 \/ r = 14 \/ r = 15)%Z) by lia.
  repeat destruct E as [E|E]; subst r; simpl; lia.
Qed.

Section GenerateUUID.

Variable random : nat -> Q.
Hypothesis random_unit : forall n, (0 <= random n)%Q /\ (random n < 1)%Q.

Lemma uuid_replacer_x (n : nat) :
  uuid_replacer random [120%N] n = ([x_digit random n], S n).
Proof.
  unfold uuid_replacer, x_digit. simpl str_eqb. cbv iota.
  rewrite toString_nibble; [reflexivity|].
  apply random_nibble_range; apply random_unit.
Qed.

Lemma uuid_replacer_y (n : nat) :
  uuid_replacer random [121%N] n = ([y_digit random n], S n).
Proof.
  unfold uuid_replacer, y_digit. simpl str_eqb. cbv iota.
  rewrite toString_nibble; [reflexivity|].
  pose proof (variant_range _ (random_nibble_range _ (proj1 (random_unit n))
                                                     (proj2 (random_unit n)))).
  lia.
Qed.

Lemma x_digit_lower (n : nat) : is_lower_hex_digit (x_digit random n) = true.
Proof.
  apply nibble_char_lower, random_nibble_range; apply random_unit.
Qed.

Lemma y_digit_lower (n : nat) : is_lower_hex_digit (y_digit random n) = true.
Proof.
  apply nibble_char_lower.
  pose proof (variant_range _ (random_nibble_range _ (proj1 (random_unit n))
                                                     (proj2 (random_unit n)))).
  lia.
Qed.

(** The string written, draw by draw. *)
Lemma generateUUID_digits (calls : nat) :
  generateUUID random calls =
  (let x k := x_digit random (k + calls) in
   [x 0; x 1; x 2; x 3; x 4; x 5; x 6; x 7; 45%N;
    x 8; x 9; x 10; x 11; 45%N;
    52%N; x 12; x 13; x 14; 45%N;
    y_digit random (15 + calls); x 16; x 17; x 18; 45%N;
    x 19; x 20; x 21; x 22; x 23; x 24; x 25; x 26; x 27; x 28; x 29; x 30]%nat,
   (31 + calls)%nat).
Proof.
  unfold generateUUID. cbn [compile xyRegex]. rewrite replace_one.
  unfold uuid_template.
  cbn -[uuid_replacer x_digit y_digit].
  repeat (first [rewrite uuid_replacer_x | rewrite uuid_replacer_y];
          cbn -[uuid_replacer x_digit y_digit]).
  reflexivity.
Qed.

Lemma generateUUID_lowercase (calls : nat) :
  lowercase_uuid (fst (generateUUID random calls)).
Proof.
  rewrite generateUUID_digits. cbn [fst].
  set (x := fun k => x_digit random (k + calls)).
  exists [x 0; x 1; x 2; x 3; x 4; x 5; x 6; x 7]%nat,
    [x 8; x 9; x 10; x 11]%nat, [52%N; x 12; x 13; x 14]%nat,
    [y_digit random (15 + calls); x 16; x 17; x 18]%nat,
    [x 19; x 20; x 21; x 22; x 23; x 24; x 25; x 26; x 27; x 28; x 29; x 30]%nat.
  unfold group_of, x. cbn [forallb List.length app].
  rewrite !x_digit_lower, y_digit_lower.
  repeat split; reflexivity.
Qed.

End GenerateUUID.

(* ===================================================================== *)
(** * The validators and the generator: what the specification claims *)
(* ===================================================================== *)

(** C7. [isValidUUID], and the edge function's [validateUUID] with the same
    pattern, is a function of the string alone that accepts exactly the
    canonical 8-4-4-4-12 form with hexadecimal digits of either case.  It
    accepts "123e4567-e89b-42d3-a456-426614174000", also in upper case; it
    rejects "not-a-uuid", the empty string, and every string that does not
    fall into five groups at its hyphens, such as an upper-case identifier
    that lacks one hyphen. *)
Theorem isValidUUID_canonical :
  (forall s, isValidUUID s = true <-> canonical_uuid s)
  /\ (forall s, validateUUID s = isValidUUID s)
  /\ isValidUUID (lit "123e4567-e89b-42d3-a456-426614174000") = true
  /\ isValidUUID (lit "123E4567-E89B-42D3-A456-426614174000") = true
  /\ isValidUUID (lit "not-a-uuid") = false
  /\ isValidUUID [] = false
  /\ (forall s, List.length (hyphen_groups s) <> 5%nat -> isValidUUID s = false)
  /\ isValidUUID (lit "123E4567-E89B-42D3-A456426614174000") = false.
Proof.
  split; [exact uuid_match|].
  split; [reflexivity|].
  repeat (split; [vm_compute; reflexivity|]).
  split; [|vm_compute; reflexivity].
  intros s H. destruct (isValidUUID s) eqn:E; [|reflexivity].
  apply uuid_match, canonical_groups in E. contradiction.
Qed.

Lemma isValidUUID_canonical_witness :
  List.length (hyphen_groups (lit "123E4567-E89B-42D3-A456426614174000")) <> 5%nat
  /\ isValidUUID (lit "123E4567-E89B-42D3-A456426614174000") = false.
Proof.
  assert (H : List.length (hyphen_groups (lit "123E4567-E89B-42D3-A456426614174000"))
              <> 5%nat) by (vm_compute; discriminate).
  split; [exact H|].
  exact (proj1 (proj2 (proj2 (proj2 (proj2 (proj2 (proj2
           isValidUUID_canonical))))))
           (lit "123E4567-E89B-42D3-A456426614174000") H).
Defined.

(** C10. Whatever [Math.random] draws from [0, 1), the string
    [generateUUID] returns is in canonical 8-4-4-4-12 form with lower-case
    hexadecimal digits, and both validators accept it; it takes 31 draws. *)
Theorem generateUUID_valid (random : nat -> Q) (calls : nat) :
  (forall n, (0 <= random n)%Q /\ (random n < 1)%Q) ->
  isValidUUID (fst (generateUUID random calls)) = true
  /\ validateUUID (fst (generateUUID random calls)) = true
  /\ lowercase_uuid (fst (generateUUID random calls))
  /\ snd (generateUUID random calls) = (31 + calls)%nat.
Proof.
  intros H.
  pose proof (generateUUID_lowercase random H calls) as L.
  pose proof (proj2 (uuid_match _) (lowercase_canonical _ L)) as V.
  split; [exact V|]. split; [exact V|]. split; [exact L|].
  now rewrite generateUUID_digits.
Qed.

Lemma generateUUID_valid_witness :
  (forall n : nat, (0 <= (fun _ => 1 # 2) n)%Q /\ ((fun _ => 1 # 2) n < 1)%Q)
  /\ isValidUUID (fst (generateUUID (fun _ => 1 # 2) 0)) = true.
Proof.
  assert (H : forall n : nat,
             (0 <= (fun _ => 1 # 2) n)%Q /\ ((fun _ => 1 # 2) n < 1)%Q).
  { intros n. split; [discriminate|reflexivity]. }
  split; [exact H|].
  exact (proj1 (generateUUID_valid (fun _ => 1 # 2) 0 H)).
Defined.

(* ===================================================================== *)
(** * Locality of matchers *)
(* ===================================================================== *)

Lemma one_local (p : N -> bool) : blind (one p).
Proof.
  intros x1 x2 k1 k2 Ha Hk. unfold one. rewrite Ha.
  destruct (after x2) as [|c rest]; simpl; [exact I|].
  destruct (p c); simpl; [|exact I].
  apply Hk. split; reflexivity.
Qed.

Lemma blind_local (m : matcher) : blind m -> local m.
Proof. intros H x1 x2 k1 k2 [Ha _] Hk. now apply H. Qed.

Lemma star_loop_local (m : matcher) (Hm : local m) (rounds : nat) :
  forall x1 x2 k1 k2,
    same_place x1 x2 -> conts_agree k1 k2 ->
    agree (star_loop m rounds x1 k1) (star_loop m rounds x2 k2).
Proof.
  induction rounds as [|n IH]; intros x1 x2 k1 k2 Hx Hk; simpl.
  - now apply Hk.
  - match goal with |- agree (match ?a with _ => _ end) (match ?b with _ => _ end) =>
      assert (A : agree a b) end.
    { apply Hm; [exact Hx|]. intros y1 y2 Hy.
      destruct Hx as [Ha _]. destruct Hy as [Hya Hyb].
      rewrite Ha, Hya.
      destruct (_ <? _)%nat; simpl; [|exact I].
      apply IH; [split|]; assumption. }
    destruct (m x1 _), (m x2 _); simpl in *; try contradiction; auto.
Qed.

Lemma star_local (m : matcher) : local m -> local (star m).
Proof.
  intros Hm x1 x2 k1 k2 Hx Hk. unfold star.
  destruct Hx as [Ha Hb]. rewrite Ha.
  apply star_loop_local; [assumption|split; assumption|assumption].
Qed.

Lemma times_local (m : matcher) (Hm : local m) (n : nat) : local (times m n).
Proof.
  induction n as [|n IH]; intros x1 x2 k1 k2 Hx Hk; simpl.
  - now apply Hk.
  - apply Hm; [exact Hx|]. intros y1 y2 Hy. now apply IH.
Qed.

Lemma compile_local (i : bool) (r : re) : local (compile i r).
Proof.
  induction r; simpl.
  - intros x1 x2 k1 k2 Hx Hk. now apply Hk.
  - apply blind_local, one_local.
  - apply blind_local, one_local.
  - intros x1 x2 k1 k2 Hx Hk. apply IHr1; [exact Hx|].
    intros y1 y2 Hy. now apply IHr2.
  - now apply star_local.
  - intros x1 x2 k1 k2 Hx Hk. apply IHr; [exact Hx|].
    intros y1 y2 Hy. now apply star_local.
  - now apply times_local.
  - intros x1 x2 k1 k2 Hx Hk.
    assert (A : agree (compile i r x1 Some) (compile i r x2 Some)).
    { apply IHr; [exact Hx|]. intros y1 y2 [Hy _]. exact Hy. }
    destruct (compile i r x1 Some), (compile i r x2 Some); simpl in *;
      try contradiction; auto.
  - intros x1 x2 k1 k2 Hx Hk. unfold at_word_boundary.
    destruct Hx as [Ha Hb].
    assert (E1 : match before x1 with c :: _ => is_word c | [] => false end
                 = match before x2 with c :: _ => is_word c | [] => false end).
    { destruct (before x1), (before x2); simpl in Hb; congruence. }
    rewrite E1, Ha. destruct (xorb _ _); simpl; [|exact I].
    apply Hk. split; assumption.
  - intros x1 x2 k1 k2 Hx Hk. destruct Hx as [Ha Hb].
    destruct (before x1) eqn:E1, (before x2) eqn:E2; simpl in Hb;
      try discriminate; simpl; try exact I.
    + apply Hk. split; [assumption|]. now rewrite E1, E2.
  - intros x1 x2 k1 k2 Hx Hk. destruct Hx as [Ha Hb]. rewrite Ha.
    destruct (after x2) eqn:E; simpl; [|exact I].
    apply Hk. split; [congruence|assumption].
Qed.

Lemma compile_blind (i : bool) (r : re) :
  starts_with_unit r = true -> blind (compile i r).
Proof.
  induction r; simpl; intros H; try discriminate.
  - apply one_local.
  - apply one_local.
  - intros x1 x2 k1 k2 Ha Hk. apply (IHr1 H); [exact Ha|].
    intros y1 y2 Hy. now apply compile_local.
  - intros x1 x2 k1 k2 Ha Hk. apply (IHr H); [exact Ha|].
    intros y1 y2 Hy. apply star_local; [apply compile_local|exact Hy|exact Hk].
Qed.

Lemma match_at_blind (m : matcher) (Hm : blind m) (b1 b2 aft : str) :
  agree (match_at m b1 aft) (match_at m b2 aft).
Proof.
  unfold match_at. apply Hm; [reflexivity|].
  intros y1 y2 [Hy _]. exact Hy.
Qed.

(** The output of a replacement by a blind pattern does not depend on the
    text behind the place where the scan starts. *)
Lemma replace_from_blind {S : Type} (m : matcher) (Hm : blind m)
    (f : str -> S -> str * S) (aft : str) :
  forall skip b1 b2 st,
    replace_from m f skip b1 aft st = replace_from m f skip b2 aft st.
Proof.
  induction aft as [|c aft IH]; intros skip b1 b2 st.
  - destruct skip; [|reflexivity]. cbn [replace_from].
    pose proof (match_at_blind m Hm b1 b2 []) as A.
    destruct (match_at m b1 []), (match_at m b2 []); simpl in A;
      try contradiction; [|reflexivity].
    now rewrite A.
  - destruct skip as [|skip]; [|cbn [replace_from]; apply IH].
    cbn [replace_from].
    pose proof (match_at_blind m Hm b1 b2 (c :: aft)) as A.
    destruct (match_at m b1 (c :: aft)), (match_at m b2 (c :: aft));
      simpl in A; try contradiction.
    + rewrite A. destruct (f _ st) as [rep st1].
      destruct (_ - _)%nat; now rewrite (IH _ (c :: b1) (c :: b2)).
    + now rewrite (IH _ (c :: b1) (c :: b2)).
Qed.

Lemma replace_from_skip {S : Type} (m : matcher) (f : str -> S -> str * S)
    (x : str) :
  forall bef t st,
    replace_from m f (List.length x) bef (x ++ t) st =
    replace_from m f 0 (rev x ++ bef) t st.
Proof.
  induction x as [|c x IH]; intros bef t st; [reflexivity|].
  simpl List.length. simpl app. cbn [replace_from]. rewrite IH.
  simpl rev. now rewrite <- app_assoc.
Qed.

(** A match at the front is replaced and the scan goes on behind it. *)
Lemma replace_all_front (m : matcher) (Hm : blind m) (rep x t : str)
    (y : cursor) :
  x <> [] -> match_at m [] (x ++ t) = Some y -> after y = t ->
  replace_all m rep (x ++ t) = rep ++ replace_all m rep t.
Proof.
  intros Hx Hy Ht. destruct x as [|c x]; [congruence|].
  unfold replace_all. simpl app in *.
  rewrite (replace_from_match m _ [] c (x ++ t) tt y (List.length x) Hy).
  - rewrite replace_from_skip.
    rewrite (replace_from_blind m Hm _ t 0 (rev x ++ [c]) []).
    destruct (replace_from m _ 0 [] t tt). reflexivity.
  - rewrite Ht. simpl List.length. rewrite length_app. lia.
Qed.

(** Units that cannot start a match are copied. *)
Lemma replace_all_copy (m : matcher) (Hm : blind m) (rep a t : str) :
  (forall c bef rest, In c a -> match_at m bef (c :: rest) = None) ->
  replace_all m rep (a ++ t) = a ++ replace_all m rep t.
Proof.
  unfold replace_all. intros H.
  assert (G : forall bef,
             fst (replace_from m (fun _ (st : unit) => (rep, st)) 0 bef (a ++ t) tt)
             = a ++ fst (replace_from m (fun _ (st : unit) => (rep, st)) 0 [] t tt)).
  { induction a as [|c a IH]; intros bef.
    - simpl app. now rewrite (replace_from_blind m Hm _ t 0 bef []).
    - simpl app. rewrite replace_from_no_match by (apply H; now left).
      specialize (IH (fun c' b r Hin => H c' b r (or_intror Hin)) (c :: bef)).
      destruct (replace_from m _ 0 (c :: bef) (a ++ t) tt). simpl in *.
      now rewrite IH. }
  apply G.
Qed.

(* ===================================================================== *)
(** * What the three patterns match *)
(* ===================================================================== *)

Lemma compile_Cats_cons (i : bool) (r : re) (rs : list re) (x : cursor)
    (k : cont) :
  compile i (Cats (r :: rs)) x k =
  compile i r x (fun y => compile i (Cats rs) y k).
Proof. destruct rs; reflexivity. Qed.

Lemma canon_same (c d : N) :
  ascii_upper c = ascii_upper d -> (canon true c =? canon true d)%N = true.
Proof. unfold canon. intros ->. apply N.eqb_refl. Qed.

(** A literal matches what has its letters, whatever their case. *)
Lemma lit_match (w : str) :
  forall u bef rest k,
    same_letters u w ->
    compile true (Cats (List.map Chr w)) (Cursor bef (u ++ rest)) k =
    k (Cursor (rev u ++ bef) rest).
Proof.
  unfold same_letters.
  induction w as [|d w IH]; intros u bef rest k H.
  - destruct u; [reflexivity|discriminate].
  - destruct u as [|c u]; [discriminate|]. simpl in H.
    injection H as Hc Hu.
    change (List.map Chr (d :: w)) with (Chr d :: List.map Chr w).
    rewrite compile_Cats_cons. simpl compile. unfold one. simpl after.
    simpl app. cbv iota. rewrite Hc, N.eqb_refl. simpl before.
    rewrite (IH u (c :: bef) rest k Hu). simpl rev.
    now rewrite <- app_assoc.
Qed.

(** A greedy run over a class stops where the class stops, when what
    follows the run then matches. *)
Lemma star_loop_run (p : N -> bool) (g : str) :
  forall n bef rest k z,
    forallb p g = true -> (List.length g <= n)%nat ->
    match rest with c :: _ => p c = false | [] => True end ->
    k (Cursor (rev g ++ bef) rest) = Some z ->
    star_loop (one p) n (Cursor bef (g ++ rest)) k = Some z.
Proof.
  induction g as [|c g IH]; intros n bef rest k z Hg Hn Hr Hk.
  - simpl in *. destruct n; [exact Hk|]. simpl. unfold one. simpl.
    destruct rest as [|c rest]; [now rewrite Hk|]. now rewrite Hr, Hk.
  - simpl in Hg. apply andb_true_iff in Hg. destruct Hg as [Hc Hg].
    destruct n as [|n]; [simpl in Hn; lia|].
    simpl star_loop. unfold one at 1. simpl after. simpl app. cbv iota.
    rewrite Hc. simpl before. simpl after.
    assert (L : (List.length (g ++ rest) <? S (List.length (g ++ rest)))%nat = true)
      by (apply Nat.ltb_lt; lia).
    rewrite L.
    rewrite (IH n (c :: bef) rest k z Hg); [reflexivity|simpl in Hn; lia|exact Hr|].
    simpl rev in Hk. now rewrite <- app_assoc in Hk.
Qed.

Lemma star_run (p : N -> bool) (g bef rest : str) (k : cont) (z : cursor) :
  forallb p g = true ->
  match rest with c :: _ => p c = false | [] => True end ->
  k (Cursor (rev g ++ bef) rest) = Some z ->
  star (one p) (Cursor bef (g ++ rest)) k = Some z.
Proof.
  intros Hg Hr Hk. unfold star. simpl after.
  apply star_loop_run; auto. rewrite length_app. lia.
Qed.

Lemma upper_fixes (c d : N) :
  (d < 65 \/ 90 < d)%N -> (d < 97 \/ 122 < d)%N ->
  ascii_upper c = d -> c = d.
Proof.
  unfold ascii_upper.
  destruct (N.leb_spec 97 c), (N.leb_spec c 122); simpl; lia.
Qed.

Lemma upper_letter_word (c d : N) :
  (65 <= d <= 90)%N -> ascii_upper c = d -> is_word c = true.
Proof.
  unfold ascii_upper, is_word. intros Hd.
  destruct (N.leb_spec 97 c), (N.leb_spec c 122); simpl; intros E; subst d;
    repeat match goal with
           | |- context [(?a <=? ?b)%N] =>
               destruct (N.leb_spec a b); simpl; try lia
           end; try reflexivity; lia.
Qed.

Lemma not_lt_mem (c : N) :
  xorb true (class_mem true [Single 60] c) = negb (c =? 60)%N.
Proof.
  unfold class_mem, item_mem, existsb, ascii_upper, ascii_lower. simpl.
  destruct (N.eqb_spec c 60); [subst; reflexivity|].
  destruct (N.leb_spec 97 c), (N.leb_spec c 122), (N.leb_spec 65 c),
    (N.leb_spec c 90); simpl;
    repeat match goal with
           | |- context [(?a =? ?b)%N] =>
               destruct (N.eqb_spec a b); simpl; try lia
           end; reflexivity.
Qed.

Lemma word_mem (c : N) :
  xorb false (class_mem true [WordChars] c) = is_word c.
Proof.
  unfold class_mem, item_mem, existsb, ascii_upper, ascii_lower, is_word. simpl.
  destruct (N.leb_spec 97 c), (N.leb_spec c 122), (N.leb_spec 65 c),
    (N.leb_spec c 90), (N.leb_spec 48 c), (N.leb_spec c 57),
    (N.eqb_spec c 95); simpl; try reflexivity; try lia;
    repeat match goal with
           | |- context [(?a <=? ?b)%N] =>
               destruct (N.leb_spec a b); simpl; try lia
           | |- context [(?a =? ?b)%N] =>
               destruct (N.eqb_spec a b); simpl; try lia
           end; reflexivity.
Qed.

Lemma space_not_word (c : N) : is_space c = true -> is_word c = false.
Proof.
  unfold is_space, is_word. intros H. bool_arith;
    repeat match goal with
           | |- context [(?a <=? ?b)%N] =>
               destruct (N.leb_spec a b); simpl; try lia
           | |- context [(?a =? ?b)%N] =>
               destruct (N.eqb_spec a b); simpl; try lia
           end; reflexivity.
Qed.

Lemma space_mem (c : N) :
  xorb false (class_mem true [SpaceChars] c) = is_space c.
Proof.
  unfold class_mem, item_mem, existsb. simpl.
  destruct (is_space c) eqn:E; [reflexivity|]. simpl.
  unfold ascii_upper, ascii_lower.
  destruct (N.leb_spec 97 c), (N.leb_spec c 122), (N.leb_spec 65 c),
    (N.leb_spec c 90); simpl; rewrite ?E; try reflexivity; try lia.
  - unfold is_space.
    repeat match goal with
           | |- context [(?a <=? ?b)%N] =>
               destruct (N.leb_spec a b); simpl; try lia
           | |- context [(?a =? ?b)%N] =>
               destruct (N.eqb_spec a b); simpl; try lia
           end; reflexivity.
  - unfold is_space.
    repeat match goal with
           | |- context [(?a <=? ?b)%N] =>
               destruct (N.leb_spec a b); simpl; try lia
           | |- context [(?a =? ?b)%N] =>
               destruct (N.eqb_spec a b); simpl; try lia
           end; reflexivity.
Qed.

Lemma compile_plus (i : bool) (r : re) (x : cursor) (k : cont) :
  compile i (Plus r) x k =
  compile i r x (fun y => star (compile i r) y k).
Proof. reflexivity. Qed.

Lemma compile_star (i : bool) (r : re) (x : cursor) (k : cont) :
  compile i (Star r) x k = star (compile i r) x k.
Proof. reflexivity. Qed.

Lemma compile_chr (i : bool) (c : N) (x : cursor) (k : cont) :
  compile i (Chr c) x k = one (fun ch => (canon i ch =? canon i c)%N) x k.
Proof. reflexivity. Qed.

Lemma one_hit (p : N -> bool) (c : N) (rest bef : str) (k : cont) :
  p c = true -> one p (Cursor bef (c :: rest)) k = k (Cursor (c :: bef) rest).
Proof. intros H. unfold one. simpl. now rewrite H. Qed.

Lemma javascript_match (J t bef : str) :
  same_letters J (lit "javascript:") ->
  match_at (compile true javascriptRegex) bef (J ++ t)
  = Some (Cursor (rev J ++ bef) t).
Proof.
  intros H. unfold match_at, javascriptRegex, Lit. now rewrite lit_match.
Qed.

Lemma same_letters_last (u w : str) (d : N) (w' : str) :
  same_letters u w -> rev (List.map ascii_upper w) = d :: w' ->
  exists c u', rev u = c :: u' /\ ascii_upper c = d.
Proof.
  unfold same_letters. intros H Hw.
  assert (E : List.map ascii_upper (rev u) = d :: w')
    by (rewrite map_rev, H; exact Hw).
  destruct (rev u) as [|c u']; [discriminate|].
  injection E as E1 E2. eauto.
Qed.

Lemma same_letters_first (u : str) (d : N) (w' : str) :
  same_letters u (d :: w') ->
  exists c u', u = c :: u' /\ ascii_upper c = ascii_upper d.
Proof.
  unfold same_letters. destruct u as [|c u']; [discriminate|].
  simpl. intros E. injection E as E1 E2. eauto.
Qed.


Lemma star_stop (m : matcher) (x : cursor) (k : cont) :
  (forall k', m x k' = None) -> star m x k = k x.
Proof.
  intros H. unfold star. destruct (List.length (after x)); simpl;
    [reflexivity|now rewrite H].
Qed.

Lemma compile_not_ahead (i : bool) (r : re) (x : cursor) (k : cont) :
  compile i (NotAhead r) x k =
  match compile i r x Some with Some _ => None | None => k x end.
Proof. reflexivity. Qed.


(** A literal, run on any text. *)
Lemma lit_compile (w : str) :
  forall s bef k,
    compile true (Cats (List.map Chr w)) (Cursor bef s) k =
    if ci_prefix w s
    then k (Cursor (rev (firstn (List.length w) s) ++ bef)
                   (skipn (List.length w) s))
    else None.
Proof.
  induction w as [|d w IH]; intros s bef k.
  - reflexivity.
  - change (List.map Chr (d :: w)) with (Chr d :: List.map Chr w).
    rewrite compile_Cats_cons. simpl compile. unfold one. simpl after.
    destruct s as [|c s]; [reflexivity|]. simpl ci_prefix.
    destruct (ascii_upper c =? ascii_upper d)%N; [|reflexivity].
    simpl before. rewrite IH. simpl andb.
    destruct (ci_prefix w s); [|reflexivity].
    simpl. now rewrite <- app_assoc.
Qed.

Lemma ci_prefix_cut (w : str) :
  (forall d, In d w -> ascii_upper d <> 60%N) ->
  forall g rest, ci_prefix w g = false ->
                 ci_prefix w (g ++ 60%N :: rest) = false.
Proof.
  induction w as [|d w IH]; intros Hw g rest H; [discriminate|].
  destruct g as [|c g]; cbn [ci_prefix app].
  - change (ascii_upper 60) with 60%N.
    assert (E : ascii_upper d <> 60%N) by (apply Hw; now left).
    apply N.eqb_neq in E. rewrite N.eqb_sym in E. now rewrite E.
  - cbn [ci_prefix] in H.
    destruct (ascii_upper c =? ascii_upper d)%N; [|reflexivity].
    cbn [andb] in *. apply IH; [|exact H]. intros d' Hd. apply Hw. now right.
Qed.

Lemma run_split (v : str) :
  exists g v2, v = g ++ v2
               /\ forallb (fun c => negb (c =? 60)%N) g = true
               /\ match v2 with c :: _ => c = 60%N | [] => True end.
Proof.
  induction v as [|c v (g & v2 & E & Hg & Hv)].
  - exists [], []. auto.
  - destruct (N.eqb_spec c 60) as [->|Hc].
    + exists [], (60%N :: v). auto.
    + exists (c :: g), v2. subst v. simpl. apply N.eqb_neq in Hc.
      rewrite Hc. auto.
Qed.

Lemma star_loop_S (m : matcher) (n : nat) (x : cursor) (k : cont) :
  star_loop m (S n) x k =
  match m x (fun y =>
               if (List.length (after y) <? List.length (after x))%nat
               then star_loop m n y k
               else None) with
  | Some z => Some z
  | None => k x
  end.
Proof. reflexivity. Qed.

(** The repeated group walks over every [<] that opens no closing tag and
    stops at the closing tag. *)
Lemma group_run (close t : str) (k : cont) :
  same_letters close (lit "</script>") ->
  (forall bef, exists z, k (Cursor bef (close ++ t)) = Some z /\ after z = t) ->
  forall len v, (List.length v <= len)%nat ->
    match v with c :: _ => c = 60%N | [] => True end ->
    no_closing_tag v ->
    forall n bef, (List.length (v ++ close ++ t) <= n)%nat ->
      exists z, star_loop (compile true script_group) n
                  (Cursor bef (v ++ close ++ t)) k = Some z
                /\ after z = t.
Proof.
  intros Hclose Hk.
  destruct (same_letters_first close 60%N (lit "/script>") Hclose)
    as (c0 & close' & Eclose & Hc0).
  change (ascii_upper 60) with 60%N in Hc0.
  apply upper_fixes in Hc0; [|lia|lia]. subst c0.
  induction len as [|len IH]; intros v Hlen Hhd Hv n bef Hn.
  - destruct v; [|simpl in Hlen; lia]. simpl app in *.
    destruct n as [|n]; [exact (Hk bef)|]. rewrite star_loop_S.
    unfold script_group at 1. rewrite compile_Cats_cons, compile_not_ahead.
    unfold Lit. rewrite (lit_match _ _ _ _ _ Hclose). exact (Hk bef).
  - destruct v as [|c v].
    + apply (IH []); simpl; auto; lia.
    + subst c. destruct n as [|n]; [simpl in Hn; lia|].
      destruct (run_split v) as (g & v2 & Ev & Hg & Hv2).
      assert (A : exists z,
                 compile true script_group
                   (Cursor bef ((60%N :: v) ++ close ++ t))
                   (fun y =>
                      if (List.length (after y)
                          <? List.length (after (Cursor bef ((60%N :: v) ++ close ++ t))))%nat
                      then star_loop (compile true script_group) n y k
                      else None) = Some z /\ after z = t).
      { unfold script_group at 1. rewrite compile_Cats_cons, compile_not_ahead.
        unfold Lit. rewrite lit_compile.
        assert (F : ci_prefix (lit "</script>") ((60%N :: v) ++ close ++ t) = false).
        { change (ci_prefix (lit "/script>") (v ++ close ++ t) = false).
          rewrite Eclose. simpl app. apply ci_prefix_cut.
          - intros d Hd. simpl in Hd.
            repeat (destruct Hd as [<-|Hd]; [discriminate|]). contradiction.
          - apply (Hv [] v). reflexivity. }
        rewrite F. rewrite compile_Cats_cons.
        simpl app. rewrite compile_chr, one_hit by reflexivity.
        change (Cats [Star not_lt]) with (Star not_lt).
        rewrite compile_star.
        change (compile true not_lt) with
          (one (fun ch => xorb true (class_mem true [Single 60] ch))).
        subst v. rewrite <- app_assoc.
        destruct (IH v2) with (n := n) (bef := rev g ++ 60%N :: bef)
          as (z & Hz & Hzt).
        - simpl in Hlen. rewrite length_app in Hlen. lia.
        - exact Hv2.
        - intros p q E. apply (Hv (60%N :: g ++ p) q). subst v2.
          simpl. now rewrite <- app_assoc.
        - simpl in Hn. rewrite !length_app in Hn. rewrite !length_app. lia.
        - exists z. split; [|exact Hzt]. apply star_run.
          + rewrite (forallb_ext_eq _ (fun c => negb (c =? 60)%N) g not_lt_mem).
            exact Hg.
          + destruct v2 as [|c v2]; simpl app.
            * rewrite Eclose. reflexivity.
            * subst c. reflexivity.
          + simpl after.
            assert (L : (List.length (v2 ++ close ++ t)
                         <? List.length (60%N :: g ++ v2 ++ close ++ t))%nat = true).
            { apply Nat.ltb_lt. simpl List.length. rewrite (length_app g). lia. }
            rewrite L. exact Hz. }
      destruct A as (z & Hz & Hzt). exists z. split; [|exact Hzt].
      rewrite star_loop_S. now rewrite Hz.
Qed.

Lemma script_match (b t bef : str) :
  script_block b ->
  exists y, match_at (compile true scriptRegex) bef (b ++ t) = Some y
            /\ after y = t.
Proof.
  intros (tag & inner & close & Hb & Htag & Hhd & Hin & Hclose). subst b.
  destruct (same_letters_last _ _ 84%N (List.map ascii_upper (rev (lit "<scrip")))
              Htag eq_refl) as (c7 & tag' & Etag & Hc7).
  destruct (same_letters_first close 60%N (lit "/script>") Hclose)
    as (c0 & close' & Eclose & Hc0).
  change (ascii_upper 60) with 60%N in Hc0.
  apply upper_fixes in Hc0; [|lia|lia]. subst c0.
  unfold match_at, scriptRegex. rewrite <- !app_assoc.
  rewrite compile_Cats_cons. unfold Lit at 1. rewrite (lit_match _ _ _ _ _ Htag).
  rewrite compile_Cats_cons.
  change (compile true WordB) with
    (fun (x : cursor) (k : cont) => if at_word_boundary x then k x else None).
  cbv beta.
  assert (B : at_word_boundary (Cursor (rev tag ++ bef) (inner ++ close ++ t)) = true).
  { unfold at_word_boundary. simpl before. simpl after. rewrite Etag. simpl app.
    cbv iota.
    rewrite (upper_letter_word c7 84) by (auto; lia).
    destruct inner as [|ci inner']; simpl app; cbv iota.
    - rewrite Eclose. reflexivity.
    - now rewrite Hhd. }
  rewrite B.
  rewrite compile_Cats_cons, compile_star.
  change (compile true not_lt) with
    (one (fun ch => xorb true (class_mem true [Single 60] ch))).
  destruct (run_split inner) as (g & v & Einner & Hg & Hv).
  subst inner. rewrite <- app_assoc.
  assert (K : forall bef', exists z,
             compile true (Cats [Lit "</script>"]) (Cursor bef' (close ++ t)) Some
             = Some z /\ after z = t).
  { intros bef'. eexists. split.
    { change (Cats [Lit "</script>"]) with (Lit "</script>"). unfold Lit.
      rewrite (lit_match _ _ _ _ _ Hclose). reflexivity. }
    reflexivity. }
  destruct (group_run close t
              (fun y => compile true (Cats [Lit "</script>"]) y Some)
              Hclose K (List.length v) v (le_n _) Hv)
    with (n := List.length (v ++ close ++ t)) (bef := rev g ++ rev tag ++ bef)
    as (z & Hz & Hzt).
  - intros p q E. apply (Hin (g ++ p) q). rewrite E. now rewrite <- app_assoc.
  - lia.
  - exists z. split; [|exact Hzt]. apply star_run.
    + rewrite (forallb_ext_eq _ (fun c => negb (c =? 60)%N) g not_lt_mem).
      exact Hg.
    + destruct v as [|c v]; simpl app.
      * rewrite Eclose. reflexivity.
      * subst c. reflexivity.
    + rewrite compile_Cats_cons, compile_star. unfold star. simpl after.
      exact Hz.
Qed.


Lemma handler_match (h t bef : str) :
  handler_attribute h ->
  exists y, match_at (compile true handlerRegex) bef (h ++ t) = Some y
            /\ after y = t.
Proof.
  intros (on & name & blanks & Hh & Hon & Hne & Hname & Hblanks). subst h.
  destruct name as [|c name]; [congruence|].
  simpl in Hname. apply andb_true_iff in Hname. destruct Hname as [Hc Hname].
  unfold match_at, handlerRegex. rewrite <- !app_assoc.
  rewrite compile_Cats_cons. unfold Lit at 1. rewrite (lit_match _ _ _ _ _ Hon).
  rewrite compile_Cats_cons, compile_plus.
  change (compile true (Class false [WordChars])) with
    (one (fun ch => xorb false (class_mem true [WordChars] ch))).
  unfold one at 1. simpl after. simpl app. cbv iota.
  rewrite word_mem, Hc. simpl before.
  eexists. split.
  { apply star_run.
    - rewrite (forallb_ext_eq _ is_word name word_mem). exact Hname.
    - destruct blanks as [|s blanks]; simpl app; cbv iota.
      + reflexivity.
      + simpl in Hblanks. apply andb_true_iff in Hblanks.
        rewrite word_mem. apply space_not_word. apply Hblanks.
    - rewrite compile_Cats_cons, compile_star.
      change (compile true (Class false [SpaceChars])) with
        (one (fun ch => xorb false (class_mem true [SpaceChars] ch))).
      apply star_run.
      + rewrite (forallb_ext_eq _ is_space blanks space_mem). exact Hblanks.
      + reflexivity.
      + reflexivity. }
  reflexivity.
Qed.

(** A unit that is not the first letter of a literal starts no match of a
    pattern that begins with the literal. *)
Lemma literal_start (d : N) (w : str) (rs : list re) (c : N) (bef rest : str) :
  ascii_upper c <> ascii_upper d ->
  match_at (compile true (Cats (Cats (List.map Chr (d :: w)) :: rs))) bef
           (c :: rest) = None.
Proof.
  intros H. unfold match_at. rewrite compile_Cats_cons.
  change (List.map Chr (d :: w)) with (Chr d :: List.map Chr w).
  rewrite compile_Cats_cons. simpl compile. unfold one. simpl after. cbv iota.
  apply N.eqb_neq in H. now rewrite H.
Qed.

Lemma same_letters_in (u w : str) (c : N) :
  same_letters u w -> In c u -> In (ascii_upper c) (List.map ascii_upper w).
Proof.
  unfold same_letters. intros <- H. now apply in_map.
Qed.

Lemma same_letters_nonempty (u : str) (d : N) (w : str) :
  same_letters u (d :: w) -> u <> [].
Proof. unfold same_letters. destruct u; [discriminate|congruence]. Qed.

Lemma strip_scripts_block (a b t : str) :
  forallb (fun c => negb (c =? 60)%N) a = true -> script_block b ->
  strip_scripts (a ++ b ++ t) = a ++ strip_scripts t.
Proof.
  intros Ha Hb. unfold strip_scripts.
  assert (Hm : blind (compile true scriptRegex))
    by (apply compile_blind; reflexivity).
  rewrite (replace_all_copy _ Hm).
  - destruct (script_match b t [] Hb) as (y & Hy & Hyt).
    rewrite (replace_all_front _ Hm [] b t y); [reflexivity| |exact Hy|exact Hyt].
    destruct Hb as (tag & inner & close & -> & Htag & _).
    apply same_letters_nonempty in Htag. destruct tag; [congruence|discriminate].
  - intros c bef rest Hin. unfold scriptRegex, Lit.
    apply literal_start. intros E.
    rewrite forallb_forall in Ha. specialize (Ha c Hin).
    assert (E' : ascii_upper c = 60%N) by exact E.
    apply upper_fixes in E'; [|lia|lia]. subst c. discriminate.
Qed.

Lemma strip_javascript_scheme (a j t : str) :
  forallb (fun c => negb (ascii_upper c =? 74)%N) a = true ->
  same_letters j (lit "javascript:") ->
  strip_javascript (a ++ j ++ t) = a ++ strip_javascript t.
Proof.
  intros Ha Hj. unfold strip_javascript.
  assert (Hm : blind (compile true javascriptRegex))
    by (apply compile_blind; reflexivity).
  rewrite (replace_all_copy _ Hm).
  - rewrite (replace_all_front _ Hm [] j t _ (same_letters_nonempty _ _ _ Hj)
               (javascript_match j t [] Hj) eq_refl).
    reflexivity.
  - intros c bef rest Hin. unfold javascriptRegex, Lit.
    change (Cats (List.map Chr (lit "javascript:"))) with
      (Cats [Cats (List.map Chr (lit "javascript:"))]).
    apply literal_start. intros E.
    rewrite forallb_forall in Ha. specialize (Ha c Hin).
    assert (E' : ascii_upper c = 74%N) by exact E.
    rewrite E' in Ha. discriminate.
Qed.

Lemma strip_handlers_attribute (a h t : str) :
  forallb (fun c => negb (ascii_upper c =? 79)%N) a = true ->
  handler_attribute h ->
  strip_handlers (a ++ h ++ t) = a ++ strip_handlers t.
Proof.
  intros Ha Hh. unfold strip_handlers.
  assert (Hm : blind (compile true handlerRegex))
    by (apply compile_blind; reflexivity).
  rewrite (replace_all_copy _ Hm).
  - destruct (handler_match h t [] Hh) as (y & Hy & Hyt).
    rewrite (replace_all_front _ Hm [] h t y); [reflexivity| |exact Hy|exact Hyt].
    destruct Hh as (on & name & blanks & -> & Hon & _).
    apply same_letters_nonempty in Hon. destruct on; [congruence|discriminate].
  - intros c bef rest Hin. unfold handlerRegex, Lit.
    apply literal_start. intros E.
    rewrite forallb_forall in Ha. specialize (Ha c Hin).
    assert (E' : ascii_upper c = 79%N) by exact E.
    rewrite E' in Ha. discriminate.
Qed.

(** Trimming. *)
Lemma trimStart_head (s : str) :
  match trimStart s with c :: _ => is_space c = false | [] => True end.
Proof.
  induction s as [|c s IH]; simpl; [exact I|].
  destruct (is_space c) eqn:E; [exact IH|exact E].
Qed.

Lemma trimStart_snoc (u : str) (c : N) :
  is_space c = false -> trimStart (u ++ [c]) = trimStart u ++ [c].
Proof.
  intros H. induction u as [|d u IH]; simpl.
  - now rewrite H.
  - destruct (is_space d); [exact IH|reflexivity].
Qed.

Lemma trim_trimmed (s : str) : trimmed (trim s).
Proof.
  unfold trimmed, trim, trimEnd. rewrite rev_involutive. split.
  - pose proof (trimStart_head s) as H.
    destruct (trimStart s) as [|c t]; [exact I|].
    simpl rev. rewrite (trimStart_snoc _ _ H), rev_app_distr. exact H.
  - apply trimStart_head.
Qed.

Lemma sanitizeInput_passes (s : str) :
  sanitizeInput s = trim (strip_handlers (strip_javascript (strip_scripts s))).
Proof. reflexivity. Qed.

Lemma sanitizeInput_plain (s : str) : plain_text s -> sanitizeInput s = trim s.
Proof.
  intros (H1 & H2 & H3). unfold sanitizeInput.
  now rewrite (replace_all_plain _ _ _ H1), (replace_all_plain _ _ _ H2),
    (replace_all_plain _ _ _ H3).
Qed.

Lemma sanitizeInput_trimmed (s : str) : trimmed (sanitizeInput s).
Proof. unfold sanitizeInput. apply trim_trimmed. Qed.

Lemma sanitizeInput_script_front (b t : str) :
  script_block b -> sanitizeInput (b ++ t) = sanitizeInput t.
Proof.
  intros H. rewrite !sanitizeInput_passes.
  pose proof (strip_scripts_block [] b t eq_refl H) as E. simpl app in E.
  now rewrite E.
Qed.

(* ===================================================================== *)
(** * What the three patterns match, and nothing else *)
(* ===================================================================== *)

Lemma ci_prefix_same (w : str) :
  forall s, ci_prefix w s = true ->
            same_letters (firstn (List.length w) s) w
            /\ s = firstn (List.length w) s ++ skipn (List.length w) s.
Proof.
  unfold same_letters.
  induction w as [|d w IH]; intros s H; [split; reflexivity|].
  destruct s as [|c s]; [discriminate H|]. cbn [ci_prefix] in H.
  apply andb_true_iff in H. destruct H as [Hc Hw]. apply N.eqb_eq in Hc.
  destruct (IH s Hw) as [E1 E2]. cbn [List.length firstn skipn List.map app].
  split; [now rewrite Hc, E1|now rewrite <- E2].
Qed.

Lemma ci_prefix_more (w : str) :
  forall s r, ci_prefix w s = true -> ci_prefix w (s ++ r) = true.
Proof.
  induction w as [|d w IH]; intros s r H; [reflexivity|].
  destruct s as [|c s]; [discriminate H|]. cbn [ci_prefix app] in *.
  apply andb_true_iff in H. destruct H as [Hc Hw].
  now rewrite Hc, (IH s r Hw).
Qed.

Lemma javascript_sound (bef s : str) (y : cursor) :
  match_at (compile true javascriptRegex) bef s = Some y ->
  begins javascript_scheme s.
Proof.
  unfold match_at, javascriptRegex, Lit. rewrite lit_compile.
  destruct (ci_prefix (lit "javascript:") s) eqn:P; [|discriminate].
  intros _. destruct (ci_prefix_same _ _ P) as [E1 E2].
  eexists. eexists. split; [exact E2|exact E1].
Qed.

(** A greedy run over a class, wherever it stops, has passed units of the
    class only. *)
Lemma star_loop_one_sound (p : N -> bool) :
  forall n bef aft k z,
    star_loop (one p) n (Cursor bef aft) k = Some z ->
    exists g rest, aft = g ++ rest /\ forallb p g = true
                   /\ k (Cursor (rev g ++ bef) rest) = Some z.
Proof.
  induction n as [|n IH]; intros bef aft k z H.
  - exists [], aft. auto.
  - rewrite star_loop_S in H.
    destruct (one p (Cursor bef aft) _) as [z'|] eqn:E.
    + injection H as ->. apply one_some in E.
      destruct E as (c & rest & Ha & Hp & Hk). cbn [after before] in *.
      destruct (_ <? _)%nat; [|discriminate Hk].
      destruct (IH _ _ _ _ Hk) as (g & rest' & Hr & Hg & Hk').
      exists (c :: g), rest'. subst. cbn [forallb app rev].
      rewrite Hp, Hg, <- app_assoc. auto.
    + exists [], aft. auto.
Qed.

Lemma star_one_sound (p : N -> bool) (bef aft : str) (k : cont) (z : cursor) :
  star (one p) (Cursor bef aft) k = Some z ->
  exists g rest, aft = g ++ rest /\ forallb p g = true
                 /\ k (Cursor (rev g ++ bef) rest) = Some z.
Proof. unfold star. apply star_loop_one_sound. Qed.

Lemma canon_equals (c : N) :
  (canon true c =? canon true 61)%N = true -> c = 61%N.
Proof.
  unfold canon. intros H. apply N.eqb_eq in H.
  change (ascii_upper 61) with 61%N in H.
  apply upper_fixes in H; [exact H|lia|lia].
Qed.

Lemma canon_lt (c : N) :
  (canon true c =? canon true 60)%N = true -> c = 60%N.
Proof.
  unfold canon. intros H. apply N.eqb_eq in H.
  change (ascii_upper 60) with 60%N in H.
  apply upper_fixes in H; [exact H|lia|lia].
Qed.

Lemma handler_sound (bef s : str) (y : cursor) :
  match_at (compile true handlerRegex) bef s = Some y ->
  begins handler_attribute s.
Proof.
  unfold match_at, handlerRegex. rewrite compile_Cats_cons. unfold Lit at 1.
  rewrite lit_compile.
  destruct (ci_prefix (lit "on") s) eqn:P; [|discriminate].
  destruct (ci_prefix_same _ _ P) as [Eon Es].
  set (on := firstn (List.length (lit "on")) s) in *.
  set (r0 := skipn (List.length (lit "on")) s) in *.
  clearbody on r0.
  rewrite compile_Cats_cons, compile_plus.
  change (compile true (Class false [WordChars])) with
    (one (fun ch => xorb false (class_mem true [WordChars] ch))).
  intros H. apply one_some in H.
  destruct H as (c & r1 & Ha & Hc & H). cbn [after before] in *.
  apply star_one_sound in H.
  destruct H as (name & r2 & E1 & Hname & H).
  rewrite compile_Cats_cons, compile_star in H.
  change (compile true (Class false [SpaceChars])) with
    (one (fun ch => xorb false (class_mem true [SpaceChars] ch))) in H.
  apply star_one_sound in H.
  destruct H as (blanks & r3 & E2 & Hblanks & H).
  change (Cats [Chr 61]) with (Chr 61) in H. rewrite compile_chr in H.
  apply one_some in H. destruct H as (e & r4 & Ha' & He & _).
  cbn [after] in Ha'. apply canon_equals in He. subst e.
  exists (on ++ (c :: name) ++ blanks ++ [61%N]), r4. split.
  - subst s r0 r1 r2 r3. rewrite <- ?app_assoc. cbn [app].
    rewrite <- ?app_assoc. reflexivity.
  - exists on, (c :: name), blanks. split; [reflexivity|].
    split; [exact Eon|]. split; [discriminate|]. split.
    + cbn [forallb]. rewrite word_mem in Hc. rewrite Hc.
      rewrite (forallb_ext_eq _ is_word name word_mem) in Hname. exact Hname.
    + rewrite (forallb_ext_eq _ is_space blanks space_mem) in Hblanks.
      exact Hblanks.
Qed.

(** Where a run without [<] ends, a [<] further on lies behind the run. *)
Lemma split_after_run (g : str) :
  forallb (fun c => negb (c =? 60)%N) g = true ->
  forall v p q, g ++ v = p ++ 60%N :: q ->
                exists p', p = g ++ p' /\ v = p' ++ 60%N :: q.
Proof.
  induction g as [|c g IH]; intros Hg v p q E.
  - exists p. auto.
  - cbn [forallb] in Hg. apply andb_true_iff in Hg. destruct Hg as [Hc Hg].
    destruct p as [|d p]; cbn [app] in E.
    + injection E as -> _. discriminate Hc.
    + injection E as <- E. destruct (IH Hg v p q E) as (p' & -> & Hv).
      exists p'. auto.
Qed.

(** The repeated group of the script pattern, wherever it stops, has
    walked over open tags only. *)
Lemma group_loop_sound :
  forall n bef aft k z,
    star_loop (compile true script_group) n (Cursor bef aft) k = Some z ->
    exists v rest, aft = v ++ rest /\ open_tags v rest
                   /\ exists bef', k (Cursor bef' rest) = Some z.
Proof.
  induction n as [|n IH]; intros bef aft k z H.
  - exists [], aft. split; [reflexivity|]. split; [|now exists bef].
    split; [exact I|]. intros [|? p] q E; discriminate E.
  - rewrite star_loop_S in H.
    destruct (compile true script_group (Cursor bef aft) _) as [z'|] eqn:E.
    + injection H as ->. unfold script_group in E at 1.
      rewrite compile_Cats_cons, compile_not_ahead in E. unfold Lit in E.
      rewrite lit_compile in E.
      destruct (ci_prefix (lit "</script>") aft) eqn:P; [discriminate E|].
      rewrite compile_Cats_cons, compile_chr in E. apply one_some in E.
      destruct E as (c & r1 & Ha & Hc & E). cbn [after before] in *.
      apply canon_lt in Hc. subst c aft.
      change (Cats [Star not_lt]) with (Star not_lt) in E.
      rewrite compile_star in E.
      change (compile true not_lt) with
        (one (fun ch => xorb true (class_mem true [Single 60] ch))) in E.
      apply star_one_sound in E. destruct E as (g & r2 & E1 & Hg & E).
      rewrite (forallb_ext_eq _ (fun c => negb (c =? 60)%N) g not_lt_mem) in Hg.
      cbn [after] in E. destruct (_ <? _)%nat; [|discriminate E].
      destruct (IH _ _ _ _ E) as (v & rest & E2 & Ho & Hk).
      destruct Ho as [Hhd Hv].
      exists (60%N :: g ++ v), rest. subst r1 r2.
      split; [cbn [app]; now rewrite <- app_assoc|]. split; [|exact Hk].
      split; [reflexivity|]. intros p q Hs.
      destruct p as [|d p]; cbn [app] in Hs.
      * injection Hs as Hs. subst q. cbn [ci_prefix] in P.
        change (ascii_upper 60 =? ascii_upper 60)%N with true in P.
        cbn [andb] in P. now rewrite <- app_assoc.
      * injection Hs as _ Hs.
        destruct (split_after_run g Hg v p q Hs) as (p' & _ & Hp').
        exact (Hv p' q Hp').
    + exists [], aft. split; [reflexivity|]. split; [|now exists bef].
      split; [exact I|]. intros [|? p] q E'; discriminate E'.
Qed.

Lemma open_tags_inner (g v rest : str) :
  forallb (fun c => negb (c =? 60)%N) g = true ->
  open_tags v rest -> no_closing_tag (g ++ v).
Proof.
  intros Hg [_ Hv] p q E.
  destruct (split_after_run g Hg v p q E) as (p' & _ & Hp').
  specialize (Hv p' q Hp').
  destruct (ci_prefix (lit "/script>") q) eqn:C; [|reflexivity].
  now rewrite (ci_prefix_more _ _ rest C) in Hv.
Qed.

Lemma script_sound (bef s : str) (y : cursor) :
  match_at (compile true scriptRegex) bef s = Some y ->
  begins script_block s.
Proof.
  unfold match_at, scriptRegex. rewrite compile_Cats_cons. unfold Lit at 1.
  rewrite lit_compile.
  destruct (ci_prefix (lit "<script") s) eqn:P; [|discriminate].
  destruct (ci_prefix_same _ _ P) as [Etag Es].
  set (tag := firstn (List.length (lit "<script")) s) in *.
  set (r0 := skipn (List.length (lit "<script")) s) in *.
  clearbody tag r0.
  rewrite compile_Cats_cons.
  change (compile true WordB) with
    (fun (x : cursor) (k : cont) => if at_word_boundary x then k x else None).
  cbv beta.
  destruct (at_word_boundary (Cursor (rev tag ++ bef) r0)) eqn:B;
    [|discriminate].
  rewrite compile_Cats_cons, compile_star.
  change (compile true not_lt) with
    (one (fun ch => xorb true (class_mem true [Single 60] ch))).
  intros H. apply star_one_sound in H.
  destruct H as (g & r1 & E1 & Hg & H).
  rewrite (forallb_ext_eq _ (fun c => negb (c =? 60)%N) g not_lt_mem) in Hg.
  rewrite compile_Cats_cons, compile_star in H. unfold star in H.
  apply group_loop_sound in H.
  destruct H as (v & r2 & E2 & Hv & bef' & H).
  change (Cats [Lit "</script>"]) with (Lit "</script>") in H.
  unfold Lit in H. rewrite lit_compile in H.
  destruct (ci_prefix (lit "</script>") r2) eqn:C; [|discriminate H].
  destruct (ci_prefix_same _ _ C) as [Eclose Er2].
  set (close := firstn (List.length (lit "</script>")) r2) in *.
  set (r3 := skipn (List.length (lit "</script>")) r2) in *.
  clearbody close r3.
  exists (tag ++ (g ++ v) ++ close), r3.
  split.
  - subst s r0 r1 r2. rewrite <- ?app_assoc. reflexivity.
  - exists tag, (g ++ v), close. split; [reflexivity|].
    split; [exact Etag|]. split; [|split; [|exact Eclose]].
    + destruct (same_letters_last _ _ 84%N
                  (List.map ascii_upper (rev (lit "<scrip"))) Etag eq_refl)
        as (c7 & tag' & Er & Hc7).
      unfold at_word_boundary in B. cbn [before after] in B.
      rewrite Er in B. cbn [app] in B.
      rewrite (upper_letter_word c7 84) in B by (auto; lia).
      destruct (g ++ v) as [|ci inner'] eqn:Ei; [exact I|].
      rewrite E1, E2, app_assoc, Ei in B. cbn [app] in B. cbv iota in B.
      destruct (is_word ci); [discriminate B|reflexivity].
    + exact (open_tags_inner g v r2 Hg Hv).
Qed.

(* ===================================================================== *)
(** * One pass: the leftmost occurrence, and text without any *)
(* ===================================================================== *)

(** Units at which no match starts are copied. *)
Lemma replace_all_skip (m : matcher) (Hm : blind m) (rep a t : str) :
  (forall p q bef, a = p ++ q -> q <> [] -> match_at m bef (q ++ t) = None) ->
  replace_all m rep (a ++ t) = a ++ replace_all m rep t.
Proof.
  unfold replace_all. intros H.
  assert (G : forall bef,
             fst (replace_from m (fun _ (st : unit) => (rep, st)) 0 bef (a ++ t) tt)
             = a ++ fst (replace_from m (fun _ (st : unit) => (rep, st)) 0 [] t tt)).
  { induction a as [|c a IH]; intros bef.
    - simpl app. now rewrite (replace_from_blind m Hm _ t 0 bef []).
    - simpl app.
      rewrite replace_from_no_match
        by (apply (H [] (c :: a) bef eq_refl); discriminate).
      specialize (IH (fun p q b E => H (c :: p) q b (f_equal (cons c) E))
                     (c :: bef)).
      destruct (replace_from m _ 0 (c :: bef) (a ++ t) tt). simpl in *.
      now rewrite IH. }
  apply G.
Qed.

Lemma test_from_nowhere (m : matcher) (s : str) :
  forall bef,
    (forall p q b, s = p ++ q -> match_at m b q = None) ->
    test_from m bef s = false.
Proof.
  induction s as [|c s IH]; intros bef H; cbn [test_from].
  - now rewrite (H [] [] bef eq_refl).
  - rewrite (H [] (c :: s) bef eq_refl). apply IH.
    intros p q b E. apply (H (c :: p) q b). now rewrite E.
Qed.

Lemma test_from_somewhere (m : matcher) (a q : str) :
  forall bef, match_at m (rev a ++ bef) q <> None ->
              test_from m bef (a ++ q) = true.
Proof.
  induction a as [|c a IH]; intros bef H.
  - cbn [app rev] in *. destruct q; cbn [test_from];
      destruct (match_at m bef _); congruence.
  - cbn [app test_from]. destruct (match_at m bef (c :: a ++ q)); [reflexivity|].
    apply IH. cbn [rev] in H. now rewrite <- app_assoc in H.
Qed.

Section Pass.

(** A pattern [r], the texts [P] it matches and no others, each match
    ending where such a text ends. *)
Variable r : re.
Variable P : str -> Prop.
Hypothesis r_blind : blind (compile true r).
Hypothesis r_sound :
  forall bef s y, match_at (compile true r) bef s = Some y -> begins P s.
Hypothesis r_complete :
  forall b t bef, P b ->
    exists y, match_at (compile true r) bef (b ++ t) = Some y /\ after y = t.
Hypothesis P_nonempty : ~ P [].

Lemma pass_leftmost (a b t : str) :
  P b -> free_before P (List.length a) (a ++ b ++ t) ->
  replace_all (compile true r) [] (a ++ b ++ t)
  = a ++ replace_all (compile true r) [] t.
Proof.
  intros Hb Hf. rewrite (replace_all_skip _ r_blind).
  - destruct (r_complete b t [] Hb) as (y & Hy & Hyt).
    rewrite (replace_all_front _ r_blind [] b t y); [reflexivity| |exact Hy|exact Hyt].
    intros ->. exact (P_nonempty Hb).
  - intros p q bef Ea Hq.
    destruct (match_at (compile true r) bef (q ++ b ++ t)) as [y|] eqn:E;
      [|reflexivity].
    destruct (r_sound _ _ _ E) as (b' & t' & Es & Hb').
    assert (L : (List.length a <= List.length p)%nat).
    { apply (Hf p b' t'); [|exact Hb']. rewrite Ea, <- app_assoc.
      now rewrite Es. }
    rewrite Ea, length_app in L. destruct q; [congruence|]. cbn in L. lia.
Qed.

Lemma pass_free (s : str) :
  free_of P s -> replace_all (compile true r) [] s = s.
Proof.
  intros Hf. apply replace_all_plain. unfold test. apply test_from_nowhere.
  intros p q b E.
  destruct (match_at (compile true r) b q) as [y|] eqn:M; [|reflexivity].
  destruct (r_sound _ _ _ M) as (b' & t' & Es & Hb').
  destruct (Hf p b' t'); [now rewrite E, Es|exact Hb'].
Qed.

Lemma free_test (s : str) :
  free_of P s <-> test (compile true r) s = false.
Proof.
  split.
  - intros Hf. unfold test. apply test_from_nowhere. intros p q b E.
    destruct (match_at (compile true r) b q) as [y|] eqn:M; [|reflexivity].
    destruct (r_sound _ _ _ M) as (b' & t' & Es & Hb').
    destruct (Hf p b' t'); [now rewrite E, Es|exact Hb'].
  - intros Ht a b t E Hb.
    destruct (r_complete b t (rev a ++ []) Hb) as (y & Hy & _).
    unfold test in Ht. rewrite E, test_from_somewhere in Ht; [discriminate Ht|].
    congruence.
Qed.

End Pass.

Lemma script_block_nonempty : ~ script_block [].
Proof.
  intros (tag & inner & close & E & Htag & _).
  apply same_letters_nonempty in Htag.
  destruct tag; [congruence|discriminate E].
Qed.

Lemma javascript_scheme_nonempty : ~ javascript_scheme [].
Proof. intros H. apply same_letters_nonempty in H. congruence. Qed.

Lemma handler_attribute_nonempty : ~ handler_attribute [].
Proof.
  intros (on & name & blanks & E & Hon & _).
  apply same_letters_nonempty in Hon.
  destruct on; [congruence|discriminate E].
Qed.

Lemma javascript_complete (b t bef : str) :
  javascript_scheme b ->
  exists y, match_at (compile true javascriptRegex) bef (b ++ t) = Some y
            /\ after y = t.
Proof.
  intros H. eexists. split; [apply javascript_match; exact H|reflexivity].
Qed.

Lemma scripts_blind : blind (compile true scriptRegex).
Proof. apply compile_blind; reflexivity. Qed.

Lemma javascript_blind : blind (compile true javascriptRegex).
Proof. apply compile_blind; reflexivity. Qed.

Lemma handlers_blind : blind (compile true handlerRegex).
Proof. apply compile_blind; reflexivity. Qed.

(** The leftmost occurrence is removed, and the pass goes on behind it. *)
Lemma strip_scripts_leftmost (a b t : str) :
  script_block b -> free_before script_block (List.length a) (a ++ b ++ t) ->
  strip_scripts (a ++ b ++ t) = a ++ strip_scripts t.
Proof.
  apply (pass_leftmost scriptRegex script_block scripts_blind script_sound
           script_match script_block_nonempty).
Qed.

Lemma strip_javascript_leftmost (a j t : str) :
  javascript_scheme j ->
  free_before javascript_scheme (List.length a) (a ++ j ++ t) ->
  strip_javascript (a ++ j ++ t) = a ++ strip_javascript t.
Proof.
  apply (pass_leftmost javascriptRegex javascript_scheme javascript_blind
           javascript_sound javascript_complete javascript_scheme_nonempty).
Qed.

Lemma strip_handlers_leftmost (a h t : str) :
  handler_attribute h ->
  free_before handler_attribute (List.length a) (a ++ h ++ t) ->
  strip_handlers (a ++ h ++ t) = a ++ strip_handlers t.
Proof.
  apply (pass_leftmost handlerRegex handler_attribute handlers_blind
           handler_sound handler_match handler_attribute_nonempty).
Qed.

(** Text without an occurrence is left as it is. *)
Lemma strip_scripts_free (s : str) :
  free_of script_block s -> strip_scripts s = s.
Proof. apply (pass_free scriptRegex script_block script_sound). Qed.

Lemma strip_javascript_free (s : str) :
  free_of javascript_scheme s -> strip_javascript s = s.
Proof. apply (pass_free javascriptRegex javascript_scheme javascript_sound). Qed.

Lemma strip_handlers_free (s : str) :
  free_of handler_attribute s -> strip_handlers s = s.
Proof. apply (pass_free handlerRegex handler_attribute handler_sound). Qed.

Lemma plain_text_free (s : str) :
  plain_text s
  <-> free_of script_block s /\ free_of javascript_scheme s
      /\ free_of handler_attribute s.
Proof.
  unfold plain_text.
  rewrite (free_test scriptRegex script_block script_sound script_match),
    (free_test javascriptRegex javascript_scheme javascript_sound
       javascript_complete),
    (free_test handlerRegex handler_attribute handler_sound handler_match).
  tauto.
Qed.

(** The whole of [sanitizeInput] on a text in which one occurrence stands
    in otherwise clean text. *)
Lemma sanitizeInput_one_script (a b t : str) :
  script_block b -> free_before script_block (List.length a) (a ++ b ++ t) ->
  free_of script_block t ->
  free_of javascript_scheme (a ++ t) -> free_of handler_attribute (a ++ t) ->
  sanitizeInput (a ++ b ++ t) = trim (a ++ t).
Proof.
  intros Hb Hf Ht Hj Hh. rewrite sanitizeInput_passes.
  rewrite (strip_scripts_leftmost a b t Hb Hf), (strip_scripts_free t Ht).
  now rewrite (strip_javascript_free _ Hj), (strip_handlers_free _ Hh).
Qed.

Lemma sanitizeInput_one_scheme (a j t : str) :
  free_of script_block (a ++ j ++ t) ->
  javascript_scheme j ->
  free_before javascript_scheme (List.length a) (a ++ j ++ t) ->
  free_of javascript_scheme t -> free_of handler_attribute (a ++ t) ->
  sanitizeInput (a ++ j ++ t) = trim (a ++ t).
Proof.
  intros Hs Hj Hf Ht Hh. rewrite sanitizeInput_passes.
  rewrite (strip_scripts_free _ Hs).
  rewrite (strip_javascript_leftmost a j t Hj Hf), (strip_javascript_free t Ht).
  now rewrite (strip_handlers_free _ Hh).
Qed.

Lemma sanitizeInput_one_handler (a h t : str) :
  free_of script_block (a ++ h ++ t) ->
  free_of javascript_scheme (a ++ h ++ t) ->
  handler_attribute h ->
  free_before handler_attribute (List.length a) (a ++ h ++ t) ->
  free_of handler_attribute t ->
  sanitizeInput (a ++ h ++ t) = trim (a ++ t).
Proof.
  intros Hs Hj Hh Hf Ht. rewrite sanitizeInput_passes.
  rewrite (strip_scripts_free _ Hs), (strip_javascript_free _ Hj).
  now rewrite (strip_handlers_leftmost a h t Hh Hf), (strip_handlers_free t Ht).
Qed.

Lemma sanitizeInput_free (s : str) :
  free_of script_block s -> free_of javascript_scheme s ->
  free_of handler_attribute s -> sanitizeInput s = trim s.
Proof.
  intros H1 H2 H3. apply sanitizeInput_plain, plain_text_free. auto.
Qed.

(** What the pattern [on\w+=] of the specification asks of a text. *)
Lemma word_then_equals_found (pre : str) (c : N) (post : str) :
  is_word c = true -> word_then_equals (pre ++ c :: 61%N :: post) = true.
Proof.
  intros Hc. induction pre as [|d pre IH].
  - cbn. now rewrite Hc.
  - cbn [app word_then_equals]. rewrite IH.
    destruct (pre ++ c :: 61%N :: post) eqn:E;
      [destruct pre; discriminate E|]. apply orb_true_r.
Qed.

Lemma claimed_handler_shape (s : str) :
  word_then_equals s = false -> free_of claimed_handler s.
Proof.
  intros H a b t E (on & name & -> & _ & Hne & Hname).
  destruct (exists_last Hne) as (name' & c & ->).
  rewrite forallb_app in Hname. apply andb_true_iff in Hname.
  destruct Hname as [_ Hc]. cbn in Hc. rewrite andb_true_r in Hc.
  rewrite E in H. rewrite <- !app_assoc in H. cbn [app] in H.
  rewrite !app_assoc in H.
  rewrite (word_then_equals_found _ c t Hc) in H. discriminate H.
Qed.

Section Start.

Variable r : re.
Variable P : str -> Prop.
Hypothesis r_blind : blind (compile true r).
Hypothesis r_complete :
  forall b t bef, P b ->
    exists y, match_at (compile true r) bef (b ++ t) = Some y /\ after y = t.

Lemma no_start_free_before (a rest : str) :
  no_start (compile true r) a rest = true ->
  free_before P (List.length a) (a ++ rest).
Proof.
  induction a as [|c a IH]; intros H p b t E Hb; [cbn; lia|].
  destruct p as [|d p].
  - exfalso. cbn [no_start app] in H. cbn [app] in E.
    destruct (r_complete b t [] Hb) as (y & Hy & _).
    rewrite <- E in Hy. rewrite Hy in H. discriminate H.
  - cbn [no_start] in H.
    destruct (match_at (compile true r) [] ((c :: a) ++ rest)); [discriminate H|].
    cbn [app] in E. injection E as _ E.
    specialize (IH H p b t E Hb). cbn [List.length]. lia.
Qed.

End Start.

(** C8, as the specification words it, fails: a text that holds no script
    block, no [javascript:] and no attribute of the form [on\w+=] loses
    more than the white space at its ends, because the handler pattern of
    the code lets white space stand before the [=] sign. *)
Lemma sanitizeInput_changes_plain_text :
  free_of script_block (lit "Question one = two")
  /\ free_of javascript_scheme (lit "Question one = two")
  /\ free_of claimed_handler (lit "Question one = two")
  /\ trim (lit "Question one = two") = lit "Question one = two"
  /\ sanitizeInput (lit "Question one = two") = lit "Question  two"
  /\ sanitizeInput (lit "Question one = two")
     <> trim (lit "Question one = two").
Proof.
  split; [apply (free_test scriptRegex script_block script_sound script_match);
          vm_compute; reflexivity|].
  split; [apply (free_test javascriptRegex javascript_scheme javascript_sound
                   javascript_complete); vm_compute; reflexivity|].
  split; [apply claimed_handler_shape; vm_compute; reflexivity|].
  split; [vm_compute; reflexivity|].
  split; [vm_compute; reflexivity|].
  vm_compute. discriminate.
Qed.

(** C8, amended.  [sanitizeInput] runs three removals and a trim.  In each
    removal the leftmost occurrence is deleted and the removal goes on
    behind it: of a script block, its tag names in any case; of the text
    [javascript:], in any case; of an inline event-handler attribute,
    which is [on], a name of word characters, white space if any, and the
    [=] sign.  A text in which one such occurrence stands among text free
    of all three becomes that text without the occurrence, trimmed.  The
    result has no white space at either end.
    "<script>alert(1)</script>hello" becomes "hello", the link with a
    [javascript:] target loses that prefix, and a text that holds no
    script block, no [javascript:] and no such attribute is only
    trimmed. *)
Theorem sanitizeInput_removes :
  (forall s, sanitizeInput s
             = trim (strip_handlers (strip_javascript (strip_scripts s))))
  /\ (forall a b t,
        script_block b ->
        free_before script_block (List.length a) (a ++ b ++ t) ->
        strip_scripts (a ++ b ++ t) = a ++ strip_scripts t)
  /\ (forall a j t,
        javascript_scheme j ->
        free_before javascript_scheme (List.length a) (a ++ j ++ t) ->
        strip_javascript (a ++ j ++ t) = a ++ strip_javascript t)
  /\ (forall a h t,
        handler_attribute h ->
        free_before handler_attribute (List.length a) (a ++ h ++ t) ->
        strip_handlers (a ++ h ++ t) = a ++ strip_handlers t)
  /\ (forall s, free_of script_block s -> strip_scripts s = s)
  /\ (forall s, free_of javascript_scheme s -> strip_javascript s = s)
  /\ (forall s, free_of handler_attribute s -> strip_handlers s = s)
  /\ (forall a b t,
        script_block b ->
        free_before script_block (List.length a) (a ++ b ++ t) ->
        free_of script_block t ->
        free_of javascript_scheme (a ++ t) ->
        free_of handler_attribute (a ++ t) ->
        sanitizeInput (a ++ b ++ t) = trim (a ++ t))
  /\ (forall a j t,
        free_of script_block (a ++ j ++ t) ->
        javascript_scheme j ->
        free_before javascript_scheme (List.length a) (a ++ j ++ t) ->
        free_of javascript_scheme t ->
        free_of handler_attribute (a ++ t) ->
        sanitizeInput (a ++ j ++ t) = trim (a ++ t))
  /\ (forall a h t,
        free_of script_block (a ++ h ++ t) ->
        free_of javascript_scheme (a ++ h ++ t) ->
        handler_attribute h ->
        free_before handler_attribute (List.length a) (a ++ h ++ t) ->
        free_of handler_attribute t ->
        sanitizeInput (a ++ h ++ t) = trim (a ++ t))
  /\ (forall b t, script_block b -> sanitizeInput (b ++ t) = sanitizeInput t)
  /\ (forall s, trimmed (sanitizeInput s))
  /\ sanitizeInput (lit "<script>alert(1)</script>hello") = lit "hello"
  /\ sanitizeInput (lit "<SCRIPT type='a'>if (a<b) alert(1)</Script>hello")
     = lit "hello"
  /\ sanitizeInput (lit "<a href='javascript:evil()'>x</a>")
     = lit "<a href='evil()'>x</a>"
  /\ sanitizeInput (lit "<img src=x onerror=alert(1)>")
     = lit "<img src=x alert(1)>"
  /\ sanitizeInput (lit "<img src=x onerror =alert(1)>")
     = lit "<img src=x alert(1)>"
  /\ sanitizeInput (lit "  What is 2+2?  ") = lit "What is 2+2?"
  /\ (forall s,
        free_of script_block s -> free_of javascript_scheme s ->
        free_of handler_attribute s -> sanitizeInput s = trim s).
Proof.
  split; [exact sanitizeInput_passes|].
  split; [exact strip_scripts_leftmost|].
  split; [exact strip_javascript_leftmost|].
  split; [exact strip_handlers_leftmost|].
  split; [exact strip_scripts_free|].
  split; [exact strip_javascript_free|].
  split; [exact strip_handlers_free|].
  split; [exact sanitizeInput_one_script|].
  split; [exact sanitizeInput_one_scheme|].
  split; [exact sanitizeInput_one_handler|].
  split; [exact sanitizeInput_script_front|].
  split; [exact sanitizeInput_trimmed|].
  repeat (split; [vm_compute; reflexivity|]).
  exact sanitizeInput_free.
Qed.

Lemma sanitizeInput_removes_witness :
  (free_of script_block (lit "  What is 2+2?  ")
   /\ free_of javascript_scheme (lit "  What is 2+2?  ")
   /\ free_of handler_attribute (lit "  What is 2+2?  ")
   /\ sanitizeInput (lit "  What is 2+2?  ") = trim (lit "  What is 2+2?  "))
  /\ (handler_attribute (lit "onerror =")
      /\ free_before handler_attribute (List.length (lit "<img src=x "))
           (lit "<img src=x " ++ lit "onerror =" ++ lit "alert(1)>")
      /\ sanitizeInput (lit "<img src=x " ++ lit "onerror =" ++ lit "alert(1)>")
         = trim (lit "<img src=x " ++ lit "alert(1)>"))
  /\ (javascript_scheme (lit "JavaScript:")
      /\ sanitizeInput (lit "<a href='" ++ lit "JavaScript:" ++ lit "evil()'>x</a>")
         = trim (lit "<a href='" ++ lit "evil()'>x</a>")).
Proof.
  assert (F : forall s, plain_text s ->
              free_of script_block s /\ free_of javascript_scheme s
              /\ free_of handler_attribute s)
    by (intros s; apply plain_text_free).
  assert (P1 : plain_text (lit "  What is 2+2?  "))
    by (repeat split; vm_compute; reflexivity).
  assert (P2 : plain_text (lit "<img src=x " ++ lit "alert(1)>"))
    by (repeat split; vm_compute; reflexivity).
  assert (P3 : plain_text (lit "alert(1)>"))
    by (repeat split; vm_compute; reflexivity).
  assert (P4 : plain_text (lit "<a href='" ++ lit "evil()'>x</a>"))
    by (repeat split; vm_compute; reflexivity).
  assert (P5 : plain_text (lit "evil()'>x</a>"))
    by (repeat split; vm_compute; reflexivity).
  assert (S1 : free_of script_block
                 (lit "<img src=x " ++ lit "onerror =" ++ lit "alert(1)>"))
    by (apply (free_test scriptRegex script_block script_sound script_match);
        vm_compute; reflexivity).
  assert (J1 : free_of javascript_scheme
                 (lit "<img src=x " ++ lit "onerror =" ++ lit "alert(1)>"))
    by (apply (free_test javascriptRegex javascript_scheme javascript_sound
                 javascript_complete); vm_compute; reflexivity).
  assert (S2 : free_of script_block
                 (lit "<a href='" ++ lit "JavaScript:" ++ lit "evil()'>x</a>"))
    by (apply (free_test scriptRegex script_block script_sound script_match);
        vm_compute; reflexivity).
  assert (H1 : handler_attribute (lit "onerror ="))
    by (exists (lit "on"), (lit "error"), (lit " ");
        repeat split; try reflexivity; discriminate).
  assert (B1 : free_before handler_attribute (List.length (lit "<img src=x "))
                 (lit "<img src=x " ++ lit "onerror =" ++ lit "alert(1)>"))
    by (apply (no_start_free_before handlerRegex handler_attribute handler_match);
        vm_compute; reflexivity).
  assert (H2 : javascript_scheme (lit "JavaScript:")) by reflexivity.
  assert (B2 : free_before javascript_scheme (List.length (lit "<a href='"))
                 (lit "<a href='" ++ lit "JavaScript:" ++ lit "evil()'>x</a>"))
    by (apply (no_start_free_before javascriptRegex javascript_scheme
                 javascript_complete); vm_compute; reflexivity).
  destruct (F _ P1) as (A1 & A2 & A3).
  destruct (F _ P2) as (_ & _ & C3).
  destruct (F _ P3) as (_ & _ & D3).
  destruct (F _ P4) as (_ & _ & E3).
  destruct (F _ P5) as (_ & E2 & _).
  destruct sanitizeInput_removes
    as (_ & _ & _ & _ & _ & _ & _ & _ & Kj & Kh & _ & _ & _ & _ & _ & _ & _
        & _ & Kp).
  split; [|split].
  - repeat (split; [assumption|]). exact (Kp _ A1 A2 A3).
  - split; [exact H1|]. split; [exact B1|].
    exact (Kh _ _ _ S1 J1 H1 B1 D3).
  - split; [exact H2|]. exact (Kj _ _ _ S2 H2 B2 E2 E3).
Defined.

(* ===================================================================== *)
(** * The polling loop *)
(* ===================================================================== *)

Lemma str_eqb_eq (a b : str) : str_eqb a b = true <-> a = b.
Proof.
  revert b. induction a as [|x a IH]; intros [|y b]; simpl;
    try (split; [discriminate|discriminate]); [tauto|].
  rewrite andb_true_iff, N.eqb_eq, IH. split.
  - intros [-> ->]. reflexivity.
  - intros E. injection E as -> ->. auto.
Qed.

Lemma is_str_eq (v : JsVal) (s : str) : is_str v s = true <-> v = JStr s.
Proof.
  destruct v; simpl; try (split; [discriminate|discriminate]).
  rewrite str_eqb_eq. split; [now intros ->|now intros [= ->]].
Qed.

Lemma run_timers_idle (env : Hook.Env) (u : option Hook.User) (turns : nat)
    (w : Hook.World) :
  Hook.timers w = [] -> Hook.run_timers env u turns w = w.
Proof.
  intros H. induction turns as [|k IH]; simpl; [reflexivity|].
  unfold Hook.fire at 1. rewrite H. exact IH.
Qed.

Lemma run_timers_add (env : Hook.Env) (u : option Hook.User) (a b : nat)
    (w : Hook.World) :
  Hook.run_timers env u (a + b) w
  = Hook.run_timers env u b (Hook.run_timers env u a w).
Proof.
  revert w. induction a as [|a IH]; intros w; simpl; [reflexivity|apply IH].
Qed.

Lemma fire_setTimeout (env : Hook.Env) (u : option Hook.User) (ms : Z)
    (pid : JsVal) (n : nat) (w : Hook.World) :
  Hook.timers w = [] ->
  Hook.fire env u (Hook.setTimeout ms pid n w)
  = Hook.poll env u pid n
      {| Hook.hook := Hook.hook w;
         Hook.effects := Hook.effects w ++ [Hook.SetTimeout ms];
         Hook.timers := [] |}.
Proof.
  intros H. unfold Hook.fire, Hook.setTimeout. simpl. rewrite H. reflexivity.
Qed.

(** One attempt on a row that is not terminal. *)
Lemma poll_nonterminal (env : Hook.Env) (u : option Hook.User) (pid : JsVal)
    (n : nat) (w : Hook.World) (session : option Hook.Session) (e : bool)
    (data : JsVal) :
  isValidUUID (ToString pid) = true ->
  Hook.poll_session env n = Hook.SessionIs session e ->
  Hook.poll_reply env n = Hook.QueryReturns data None ->
  nonterminal_row data ->
  Hook.poll env u pid n w =
  let w1 := Hook.setResult (Some (Hook.newResult data))
              (Hook.emit (status_query env u pid n)
                 (Hook.emit Hook.GetSession w)) in
  if (S n <? Hook.maxAttempts)%nat
  then Hook.setTimeout 2000 pid (S n) w1
  else Hook.setError (JStr timeout_message) w1.
Proof.
  intros Hv Hs Hq (Ht & Hc & He).
  unfold Hook.poll, Hook.poll_try, status_query, poll_filters.
  rewrite Hv, Hs, Hq, Ht, Hc, He. cbn [negb orb].
  destruct session, (Hook.user_has_id u);
    destruct (S n <? Hook.maxAttempts)%nat; reflexivity.
Qed.

Lemma run_timers_S (env : Hook.Env) (u : option Hook.User) (k : nat)
    (w : Hook.World) :
  Hook.run_timers env u (S k) w = Hook.run_timers env u k (Hook.fire env u w).
Proof. reflexivity. Qed.

(** From attempt [n] to the last one. *)
Lemma polling_run (env : Hook.Env) (u : option Hook.User) (pid : JsVal) :
  isValidUUID (ToString pid) = true -> never_terminal env ->
  forall m n w,
    (n + S m = Hook.maxAttempts)%nat -> Hook.timers w = [] ->
    let w' := Hook.run_timers env u m (Hook.poll env u pid n w) in
    Hook.timers w' = []
    /\ Hook.error (Hook.hook w') = JStr timeout_message
    /\ Hook.effects w' = Hook.effects w ++ polling_trace env u pid n (S m).
Proof.
  intros Hv Hq. induction m as [|m IH]; intros n w Hn Hw.
  - destruct (Hq n) as [(s & e & Hs) (data & Hd & Hr)].
    cbv zeta. rewrite (poll_nonterminal env u pid n w s e data Hv Hs Hd Hr).
    cbv zeta.
    assert (E : (S n <? Hook.maxAttempts)%nat = false)
      by (apply Nat.ltb_ge; lia).
    rewrite E. cbn [Hook.run_timers].
    repeat split; try assumption. simpl. now rewrite <- app_assoc.
  - destruct (Hq n) as [(s & e & Hs) (data & Hd & Hr)].
    cbv zeta. rewrite (poll_nonterminal env u pid n w s e data Hv Hs Hd Hr).
    cbv zeta.
    assert (E : (S n <? Hook.maxAttempts)%nat = true)
      by (apply Nat.ltb_lt; lia).
    rewrite E, run_timers_S, fire_setTimeout by exact Hw.
    match goal with |- context [Hook.poll env u pid (S n) ?x] =>
      specialize (IH (S n) x) end.
    destruct IH as (T & Er & Ef); [lia|reflexivity|].
    cbv zeta in T, Er, Ef.
    split; [exact T|]. split; [exact Er|].
    etransitivity; [exact Ef|].
    cbn [Hook.effects Hook.setResult Hook.emit].
    change (polling_trace env u pid n (S (S m))) with
      (Hook.GetSession :: status_query env u pid n :: Hook.SetTimeout 2000
         :: polling_trace env u pid (S n) (S m)).
    rewrite <- !app_assoc. reflexivity.
Qed.

Lemma queries_trace (env : Hook.Env) (u : option Hook.User) (pid : JsVal)
    (count : nat) :
  forall n, List.length (queries (polling_trace env u pid n count)) = count.
Proof.
  induction count as [|c IH]; intros n; [reflexivity|].
  destruct c as [|c]; [reflexivity|].
  specialize (IH (S n)). unfold queries in *.
  change (List.length (status_query env u pid n
            :: filter Hook.is_query (polling_trace env u pid (S n) (S c)))
          = S (S c)).
  cbn [List.length]. now rewrite IH.
Qed.

Lemma delays_trace (env : Hook.Env) (u : option Hook.User) (pid : JsVal)
    (count : nat) :
  forall n, delays (polling_trace env u pid n (S count)) = repeat 2000%Z count.
Proof.
  induction count as [|c IH]; intros n; [reflexivity|].
  specialize (IH (S n)).
  change (2000%Z :: delays (polling_trace env u pid (S n) (S c))
          = repeat 2000%Z (S c)).
  now rewrite IH.
Qed.

Lemma queries_timer (ms : Z) (es : list Hook.Effect) :
  queries (Hook.SetTimeout ms :: es) = queries es.
Proof. reflexivity. Qed.

Lemma delays_timer (ms : Z) (es : list Hook.Effect) :
  delays (Hook.SetTimeout ms :: es) = ms :: delays es.
Proof. reflexivity. Qed.

Lemma queries_app (a b : list Hook.Effect) :
  queries (a ++ b) = queries a ++ queries b.
Proof. apply filter_app. Qed.

Lemma delays_app (a b : list Hook.Effect) :
  delays (a ++ b) = delays a ++ delays b.
Proof.
  induction a as [|x a IH]; [reflexivity|].
  destruct x; simpl; now rewrite IH.
Qed.

(** C1. When every polling attempt fetches a row whose status is not
    terminal and no lookup or query fails, the loop started by
    [pollForCompletion] for a well-formed identifier stops after its 60th
    attempt: the error message is the timeout message, no timer is left,
    60 status queries were issued and no more are, however long the event
    loop goes on; the first attempt was delayed by 1000 ms and each later
    one by 2000 ms. *)
Theorem pollForCompletion_times_out (env : Hook.Env) (u : option Hook.User)
    (pid : JsVal) (w : Hook.World) (turns : nat) :
  isValidUUID (ToString pid) = true ->
  never_terminal env ->
  Hook.timers w = [] ->
  (60 <= turns)%nat ->
  let w' := Hook.run_timers env u turns (Hook.pollForCompletion pid w) in
  Hook.timers w' = []
  /\ Hook.error (Hook.hook w') = JStr timeout_message
  /\ Hook.effects w'
     = Hook.effects w ++ Hook.SetTimeout 1000 :: polling_trace env u pid 0 60
  /\ List.length (queries (Hook.effects w'))
     = (List.length (queries (Hook.effects w)) + 60)%nat
  /\ delays (Hook.effects w')
     = delays (Hook.effects w) ++ 1000%Z :: repeat 2000%Z 59.
Proof.
  intros Hv Hq Hw Ht. cbv zeta.
  assert (K : exists k, turns = S (59 + k)) by (exists (turns - 60)%nat; lia).
  destruct K as [k ->].
  rewrite run_timers_S, run_timers_add.
  unfold Hook.pollForCompletion. rewrite fire_setTimeout by exact Hw.
  match goal with |- context [Hook.poll env u pid 0 ?x] =>
    destruct (polling_run env u pid Hv Hq 59 0 x eq_refl eq_refl)
      as (T & Er & Ef) end.
  cbv zeta in T, Er, Ef. rewrite (run_timers_idle _ _ _ _ T).
  cbn [Hook.effects] in Ef.
  split; [exact T|]. split; [exact Er|].
  rewrite Ef, <- app_assoc. cbn [app].
  split; [reflexivity|]. split.
  - rewrite queries_app, length_app, queries_timer.
    now rewrite (queries_trace env u pid 60 0).
  - rewrite delays_app, delays_timer.
    now rewrite (delays_trace env u pid 59 0).
Qed.

Lemma pollForCompletion_times_out_witness :
  isValidUUID (ToString (JStr sample_uuid)) = true
  /\ never_terminal (sample_env JNull (sample_row "processing"))
  /\ Hook.error (Hook.hook
       (Hook.run_timers (sample_env JNull (sample_row "processing")) None 61
          (Hook.pollForCompletion (JStr sample_uuid) initial_world)))
     = JStr timeout_message.
Proof.
  assert (Hv : isValidUUID (ToString (JStr sample_uuid)) = true)
    by (vm_compute; reflexivity).
  assert (Hq : never_terminal (sample_env JNull (sample_row "processing"))).
  { intros n. split.
    - exists None, false. reflexivity.
    - exists (sample_row "processing"). split; [reflexivity|].
      repeat split; vm_compute; reflexivity. }
  split; [exact Hv|]. split; [exact Hq|].
  apply (pollForCompletion_times_out
           (sample_env JNull (sample_row "processing")) None
           (JStr sample_uuid) initial_world 61 Hv Hq eq_refl).
  repeat constructor.
Defined.

(* ===================================================================== *)
(** * A row with status error *)
(* ===================================================================== *)

Lemma is_str_object (k : string) (data : JsVal) (s : str) :
  is_str (get k data) s = true -> truthy data = true.
Proof. destruct data; simpl; try discriminate; reflexivity. Qed.

Lemma get_of_non_object (k : string) (v : JsVal) :
  is_object v = false -> get k v = JUndefined.
Proof. destruct v; simpl; try reflexivity; discriminate. Qed.

(** The message the code derives is the one the specification words. *)
Lemma row_errorMessage_derived (data : JsVal) :
  is_str (get "status" data) (lit "error") = true ->
  Hook.row_errorMessage data = derived_error_text data
  /\ truthy (derived_error_text data) = true.
Proof.
  intros H. unfold Hook.row_errorMessage, derived_error_text. rewrite H.
  destruct (is_object (get "ai_response" data)) eqn:O.
  - unfold jor.
    destruct (truthy (get "error" (get "ai_response" data))) eqn:A;
      repeat (cbv iota; rewrite ?A); [split; reflexivity|].
    destruct (truthy (get "message" (get "ai_response" data))) eqn:B;
      repeat (cbv iota; rewrite ?B); [split; reflexivity|].
    destruct (truthy (get "error_message" data)) eqn:C;
      repeat (cbv iota; rewrite ?C); [split; reflexivity|].
    split; reflexivity.
  - rewrite (get_of_non_object "error" _ O), (get_of_non_object "message" _ O).
    unfold jor. cbn [truthy].
    destruct (truthy (get "error_message" data)) eqn:C;
      repeat (cbv iota; rewrite ?C); [split; reflexivity|].
    split; reflexivity.
Qed.

(** C5. A polling attempt that fetches a row with status [error] stops the
    loop: it sets no timer, so nothing more is queried, and the error
    message it exposes, in the hook's error state and in the result, is the
    row's derived error text. *)
Theorem poll_error_row (env : Hook.Env) (u : option Hook.User) (pid : JsVal)
    (n : nat) (w : Hook.World) (session : option Hook.Session) (e : bool)
    (data : JsVal) :
  isValidUUID (ToString pid) = true ->
  Hook.poll_session env n = Hook.SessionIs session e ->
  Hook.poll_reply env n = Hook.QueryReturns data None ->
  is_str (get "status" data) (lit "error") = true ->
  let w' := Hook.poll env u pid n w in
  Hook.timers w' = Hook.timers w
  /\ Hook.effects w'
     = Hook.effects w ++ [Hook.GetSession; status_query env u pid n]
  /\ Hook.error (Hook.hook w') = derived_error_text data
  /\ option_map Hook.errorMessage (Hook.result (Hook.hook w'))
     = Some (derived_error_text data)
  /\ (Hook.timers w = [] ->
      forall turns, Hook.run_timers env u turns w' = w').
Proof.
  intros Hv Hs Hq He.
  destruct (row_errorMessage_derived data He) as [Hd Ht].
  assert (E : Hook.poll env u pid n w =
              Hook.setError (derived_error_text data)
                (Hook.setResult (Some (Hook.newResult data))
                   (Hook.emit (status_query env u pid n)
                      (Hook.emit Hook.GetSession w)))).
  { unfold Hook.poll, Hook.poll_try, status_query, poll_filters.
    rewrite Hv, Hs, Hq, (is_str_object _ _ _ He), He, orb_true_r.
    cbn [negb]. rewrite Hd. unfold jor. rewrite Ht.
    destruct session, (Hook.user_has_id u); reflexivity. }
  cbv zeta. rewrite E. cbn [Hook.setError Hook.setResult Hook.emit
    Hook.timers Hook.effects Hook.hook Hook.error Hook.result option_map
    Hook.newResult Hook.errorMessage].
  split; [reflexivity|]. split; [now rewrite <- app_assoc|].
  split; [reflexivity|]. split; [now rewrite Hd|].
  intros Hw turns. now apply run_timers_idle.
Qed.

Lemma poll_error_row_witness :
  Hook.error (Hook.hook
    (Hook.poll (sample_env JNull (sample_row "error")) None
       (JStr sample_uuid) 0 initial_world))
  = JStr (lit "Problem processing failed").
Proof.
  exact (proj1 (proj2 (proj2
    (poll_error_row (sample_env JNull (sample_row "error")) None
       (JStr sample_uuid) 0 initial_world None false (sample_row "error")
       ltac:(vm_compute; reflexivity) eq_refl eq_refl
       ltac:(vm_compute; reflexivity))))).
Defined.

(* ===================================================================== *)
(** * Submission *)
(* ===================================================================== *)

Lemma non_empty_nil (s : str) : Hook.non_empty s = false <-> s = [].
Proof. destruct s; simpl; split; congruence. Qed.

(** C4. When the title is empty once trimmed, or when no content field is
    non-empty, [submitProblem] resolves to [null], leaves a validation
    message in the error state and has no effect on the outside: no session
    lookup, no call of the submission endpoint, no timer. *)
Theorem submitProblem_rejects_invalid (env : Hook.Env) (auth : Hook.Auth)
    (data : Hook.ProblemSubmissionData) (w : Hook.World) :
  title_blank data \/ no_content data ->
  let r := Hook.submitProblem env auth data w in
  fst r = JNull
  /\ Hook.error (Hook.hook (snd r))
     = JStr (if Hook.non_empty (trim (Hook.title data))
             then lit "Problem content is required"
             else lit "Problem title is required")
  /\ Hook.result (Hook.hook (snd r)) = None
  /\ Hook.isSubmitting (Hook.hook (snd r)) = false
  /\ Hook.effects (snd r) = Hook.effects w
  /\ Hook.timers (snd r) = Hook.timers w.
Proof.
  intros H. cbv zeta. unfold Hook.submitProblem.
  destruct (Hook.non_empty (trim (Hook.title data))) eqn:T; cbn [negb].
  - destruct H as [H|(H1 & H2 & H3)].
    + apply non_empty_nil in H. congruence.
    + rewrite H1, H2, H3. cbn [negb andb]. repeat split.
  - repeat split.
Qed.

Lemma submitProblem_rejects_invalid_witness :
  title_blank (sample_data "   " (Some "2+2?"%string))
  /\ fst (Hook.submitProblem (sample_env JNull JNull) sample_guest
            (sample_data "   " (Some "2+2?"%string)) initial_world) = JNull.
Proof.
  assert (H : title_blank (sample_data "   " (Some "2+2?"%string)))
    by (vm_compute; reflexivity).
  split; [exact H|].
  exact (proj1 (submitProblem_rejects_invalid (sample_env JNull JNull)
                  sample_guest (sample_data "   " (Some "2+2?"%string))
                  initial_world (or_introl H))).
Defined.



Lemma is_str_other (v : JsVal) (a b : str) :
  a <> b -> is_str v a = true -> is_str v b = false.
Proof.
  intros Hab Ha. apply is_str_eq in Ha. subst v.
  destruct (is_str (JStr a) b) eqn:E; [|reflexivity].
  apply is_str_eq in E. congruence.
Qed.





(* ===================================================================== *)
(** * A guest's submission *)
(* ===================================================================== *)

Lemma guest_identity (auth : Hook.Auth) (session : option Hook.Session) :
  guest_context auth session ->
  Hook.resolve_identity auth session = inl (JUndefined, []).
Proof.
  intros (Hl & Ha & u & Hu & Hg). unfold Hook.resolve_identity.
  rewrite Hl, Ha, Hu, Hg. reflexivity.
Qed.

(** The call a guest's valid submission makes. *)
Lemma guest_call (env : Hook.Env) (auth : Hook.Auth)
    (data : Hook.ProblemSubmissionData) (w : Hook.World)
    (session : option Hook.Session) :
  Hook.submit_session env = Hook.SessionIs session false ->
  guest_context auth session -> valid_input data ->
  exists rest,
    Hook.effects (snd (Hook.submitProblem env auth data w))
    = Hook.effects w ++ Hook.GetSession
        :: Hook.Invoke (lit "submit-problem")
             (Hook.requestBody data JUndefined) []
        :: rest.
Proof.
  intros Hs Hg (Ht & Hc). unfold Hook.submitProblem.
  rewrite Ht. cbn [negb].
  rewrite <- !negb_orb, Hc. cbn [negb].
  unfold Hook.submit_try. rewrite Hs, (guest_identity auth session Hg).
  destruct (Hook.submit_reply env) as [response e|t].
  - destruct (Hook.submitError_truthy e).
    + exists []. cbn. now rewrite <- app_assoc.
    + unfold Hook.on_response.
      repeat match goal with
             | |- context [if ?b then _ else _] => destruct b
             end;
        cbn [fst snd Hook.setIsSubmitting Hook.setResult Hook.emit
             Hook.setError Hook.pollForCompletion Hook.setTimeout
             Hook.effects Hook.hook Hook.timers];
        rewrite <- ?app_assoc; cbn [app]; eexists; reflexivity.
  - exists []. cbn. now rewrite <- app_assoc.
Qed.

Lemma guest_body_omits (data : Hook.ProblemSubmissionData) :
  omits "user_id" (guest_body data)
  /\ get "user_id" (guest_body data) = JUndefined.
Proof.
  unfold guest_body, Hook.requestBody, omits.
  destruct (Hook.description data), (Hook.textContent data),
    (Hook.imageData data), (Hook.voiceUrl data); split; reflexivity.
Qed.

(* ===================================================================== *)
(** * The edge function *)
(* ===================================================================== *)

Section Keeps.

Variable P : list Edge.Effect -> Prop.

Lemma keeps_ret {A : Type} (a : A) : keeps P (Edge.ret a).
Proof. intros s H. exact H. Qed.

Lemma keeps_throw {A : Type} (message : str) : keeps P (@Edge.throw A message).
Proof. intros s H. exact H. Qed.

Lemma keeps_bind {A B : Type} (m : Edge.M A) (k : A -> Edge.M B) :
  keeps P m -> (forall a, keeps P (k a)) -> keeps P (Edge.bind m k).
Proof.
  intros Hm Hk s H. unfold Edge.bind. specialize (Hm s H).
  destruct (m s) as [s' [a|e]]; cbn [fst] in *; [now apply Hk|exact Hm].
Qed.

Lemma keeps_guard (b : bool) (message : str) :
  keeps P (Edge.guard b message).
Proof. destruct b; [apply keeps_ret|apply keeps_throw]. Qed.

Lemma keeps_read (k : string) (v : JsVal) : keeps P (Edge.read k v).
Proof.
  unfold Edge.read. destruct (is_nullish v); [apply keeps_throw|apply keeps_ret].
Qed.

Lemma keeps_sanitize (v : JsVal) : keeps P (Edge.sanitize v).
Proof. destruct v; first [apply keeps_ret|apply keeps_throw]. Qed.

Lemma keeps_sanitize_if (v : JsVal) : keeps P (Edge.sanitize_if_truthy v).
Proof.
  unfold Edge.sanitize_if_truthy. destruct (truthy v); [|apply keeps_ret].
  apply keeps_bind; [apply keeps_sanitize|intros; apply keeps_ret].
Qed.

Lemma keeps_fresh (env : Edge.Env) : keeps P (Edge.freshUUID env).
Proof.
  intros s H. unfold Edge.freshUUID.
  destruct (generateUUID (Edge.random env) (Edge.calls s)). exact H.
Qed.

Lemma keeps_perform (e : Edge.Effect) :
  (forall l, P l -> P (l ++ [e])) -> keeps P (Edge.perform e).
Proof. intros He s H. now apply He. Qed.

End Keeps.

Ltac keeps_step :=
  first
    [ apply keeps_ret | apply keeps_throw | apply keeps_guard
    | apply keeps_read | apply keeps_sanitize | apply keeps_sanitize_if
    | apply keeps_fresh
    | apply keeps_bind; [|intros]
    | match goal with
      | |- keeps _ (match ?x with _ => _ end) => destruct x
      end ].

Lemma mints_more (guest : str) (l : list Edge.Effect) (e : Edge.Effect) :
  mints guest l -> mints guest (l ++ [e]).
Proof. intros [rest ->]. exists (rest ++ [e]). reflexivity. Qed.

Lemma elsewhere_more (t : string) (row : JsVal) (l : list Edge.Effect) :
  t = "users"%string \/ t = "learning_sessions"%string ->
  Forall elsewhere l -> Forall elsewhere (l ++ [Edge.Insert t row]).
Proof.
  intros Ht Hl. apply Forall_app. split; [exact Hl|].
  apply Forall_cons; [exact Ht|apply Forall_nil].
Qed.

(** Before the row is stored the handler writes to no other table than
    the users and the sessions. *)
Lemma prepare_elsewhere (env : Edge.Env) (req : Edge.Request) :
  keeps (Forall elsewhere) (Edge.prepare env req).
Proof.
  unfold Edge.prepare, Edge.resolve_user, Edge.resolve_session.
  repeat keeps_step;
    apply keeps_perform; intros l Hl; apply elsewhere_more; auto.
Qed.

Lemma prepare_ops (env : Edge.Env) (req : Edge.Request) (s : Edge.St)
    (r : Edge.Prepared + str) :
  Edge.prepare env req start = (s, r) -> Forall elsewhere (Edge.ops s).
Proof.
  intros H. pose proof (prepare_elsewhere env req start (Forall_nil _)) as K.
  now rewrite H in K.
Qed.

(** Once a guest user has been inserted, the log keeps starting with
    it. *)
Lemma ai_stage_mints (guest : str) (env : Edge.Env) (problemId : str)
    (userId sessionId problemData : JsVal) (contentHash sanitizedTitle : str)
    (sanitizedDescription sanitizedTextContent : option str) :
  keeps (mints guest)
    (Edge.ai_stage env problemId userId sessionId problemData contentHash
       sanitizedTitle sanitizedDescription sanitizedTextContent).
Proof.
  unfold Edge.ai_stage.
  repeat first [ keeps_step
               | match goal with
                 | |- keeps _ (if ?b then _ else _) => destruct b
                 | |- keeps _ (let (_, _) := ?x in _) => destruct x
                 end
               | apply keeps_perform; intros l Hl; apply mints_more; exact Hl ].
Qed.

Lemma store_mints (guest : str) (env : Edge.Env) (p : Edge.Prepared) :
  keeps (mints guest) (Edge.store_and_solve env p).
Proof.
  unfold Edge.store_and_solve.
  repeat first [ apply ai_stage_mints
               | keeps_step
               | apply keeps_perform; intros l Hl; apply mints_more; exact Hl ].
Qed.

Lemma resolve_session_mints (guest : str) (env : Edge.Env)
    (requestBody userId : JsVal) :
  keeps (mints guest) (Edge.resolve_session env requestBody userId).
Proof.
  unfold Edge.resolve_session.
  repeat first [ keeps_step
               | match goal with
                 | |- keeps _ (if ?b then _ else _) => destruct b
                 end
               | apply keeps_perform; intros l Hl; apply mints_more; exact Hl ].
Qed.

Lemma row_states_elsewhere (row : list (string * JsVal))
    (l tail : list Edge.Effect) :
  Forall elsewhere l ->
  Edge.row_states row (l ++ tail) = Edge.row_states row tail.
Proof.
  induction 1 as [|e l He Hl IH]; [reflexivity|].
  destruct e as [t v| |]; try contradiction.
  destruct He as [-> | ->]; exact IH.
Qed.

Ltac open_match :=
  match goal with
  | |- context [match ?x with _ => _ end] =>
      match x with
      | context [match _ with _ => _ end] => fail 1
      | _ => destruct x eqn:?
      end
  end.

Lemma row_invariant_test (data : JsVal) :
  row_invariant_b data = true -> row_invariant data.
Proof.
  unfold row_invariant_b, row_invariant. intros H.
  apply andb_true_iff in H. destruct H as [H1 H2].
  apply Bool.eqb_prop in H1. apply Bool.eqb_prop in H2.
  rewrite H1, H2, andb_true_iff, negb_true_iff. tauto.
Qed.

Lemma rows_test (rows : list (list (string * JsVal))) :
  forallb (fun row => row_invariant_b (JObj row)) rows = true ->
  Forall (fun row => row_invariant (JObj row)) rows.
Proof.
  intros H. apply Forall_forall. intros row Hin.
  apply row_invariant_test. rewrite forallb_forall in H. now apply H.
Qed.

(** The rows the handler writes from the insert on, when the answer of
    the model is not empty once sanitized. *)
Lemma store_rows (env : Edge.Env) (p : Edge.Prepared) (s : Edge.St) :
  answer_kept env ->
  exists tail,
    Edge.ops (fst (Edge.store_and_solve env p s)) = Edge.ops s ++ tail
    /\ Forall (fun row => row_invariant (JObj row)) (Edge.row_states [] tail).
Proof.
  intros K. unfold Edge.store_and_solve, Edge.ai_stage.
  unfold Edge.bind, Edge.guard, Edge.read, Edge.sanitize, Edge.perform,
    Edge.ret, Edge.throw.
  repeat (cbn [fst snd Edge.ops Edge.calls]; open_match);
    cbn [fst snd Edge.ops Edge.calls]; rewrite <- ?app_assoc; cbn [app];
    (eexists; split; [reflexivity|]).
  all: try match goal with
           | G : Edge.gemini _ = Edge.FetchResponds true ?st (inl ?g),
             J : _ = JStr ?t |- context [sanitizeInput ?t] =>
               pose proof (K st g t G J) as N;
               destruct (sanitizeInput t) as [|c sol]; [congruence|]
           end.
  all: apply rows_test; vm_compute; reflexivity.
Qed.

Lemma serve_rows (env : Edge.Env) (req : Edge.Request) :
  answer_kept env ->
  Forall (fun row => row_invariant (JObj row))
    (Edge.row_states [] (snd (Edge.serve env req))).
Proof.
  intros K. unfold Edge.serve. destruct (str_eqb _ _); [apply Forall_nil|].
  unfold Edge.handle, Edge.bind. fold start.
  destruct (Edge.prepare env req start) as [s [p|e]] eqn:Hp.
  - destruct (store_rows env p s K) as (tail & Hops & Hrows).
    destruct (Edge.store_and_solve env p s) as [s' [r|e]];
      cbn [fst snd] in *; rewrite Hops,
        (row_states_elsewhere _ _ _ (prepare_ops _ _ _ _ Hp)); exact Hrows.
  - cbn [snd]. rewrite <- (app_nil_r (Edge.ops s)),
      (row_states_elsewhere _ _ _ (prepare_ops _ _ _ _ Hp)).
    apply Forall_nil.
Qed.

(** What the handler does once the row is stored and the key is found
    missing. *)
Lemma store_without_key (env : Edge.Env) (p : Edge.Prepared) (s : Edge.St) :
  Edge.db_error (Edge.problem_insert env) = None ->
  is_nullish (Edge.data (Edge.problem_insert env)) = false ->
  Hook.present (Edge.GOOGLE_API_KEY env) = false ->
  Edge.store_and_solve env p s =
  ({| Edge.ops :=
        Edge.ops s ++
        [Edge.Insert "problem_submissions"
           (Edge.new_problem env (Edge.requestBody p) (Edge.problemId p)
              (Edge.userId p) (Edge.sessionId p) (Edge.sanitizedTitle p)
              (Edge.sanitizedTextContent p) (Edge.contentHash p));
         Edge.Insert "audit_logs"
           (Edge.created_audit (Edge.requestBody p) (Edge.problemId p)
              (Edge.userId p) (Edge.sanitizedTitle p));
         Edge.Update "problem_submissions"
           (Edge.error_update (Edge.data (Edge.problem_insert env))
              (lit "AI service temporarily unavailable") (Edge.now env 3))
           (JStr (Edge.problemId p))];
      Edge.calls := Edge.calls s |},
   inl (Edge.failure_response 503 (lit "AI service temporarily unavailable")
          (Edge.problemId p))).
Proof.
  intros Hi Hd Hk. unfold Edge.store_and_solve, Edge.ai_stage.
  rewrite Hi, Hk. unfold Edge.read. rewrite Hd.
  unfold Edge.bind, Edge.perform, Edge.ret.
  cbn [fst snd Edge.ops Edge.calls negb]. rewrite <- !app_assoc. reflexivity.
Qed.

(* ===================================================================== *)
(** * A guest's request at the handler *)
(* ===================================================================== *)

Lemma guest_body_fields (data : Hook.ProblemSubmissionData) :
  is_nullish (guest_body data) = false
  /\ get "input_type" (guest_body data)
     = JStr (Hook.inputType_str (Hook.inputType data))
  /\ get "title" (guest_body data) = JStr (trim (Hook.title data))
  /\ get "description" (guest_body data)
     = Hook.opt_val (option_map trim (Hook.description data))
  /\ get "text_content" (guest_body data)
     = Hook.opt_val (option_map trim (Hook.textContent data))
  /\ get "user_id" (guest_body data) = JUndefined
  /\ get "session_id" (guest_body data) = JUndefined.
Proof.
  unfold guest_body, Hook.requestBody.
  destruct (Hook.description data), (Hook.textContent data),
    (Hook.imageData data), (Hook.voiceUrl data); repeat split; reflexivity.
Qed.

Lemma sanitize_if_opt (o : option str) :
  Edge.sanitize_if_truthy (Hook.opt_val o)
  = Edge.ret (if Hook.present o then option_map sanitizeInput o else None).
Proof. destruct o as [[|c s]|]; reflexivity. Qed.

Lemma sanitizeInput_empty : sanitizeInput [] = [].
Proof. reflexivity. Qed.

Lemma text_guard (data : Hook.ProblemSubmissionData) :
  keeps_text data ->
  negb (is_str (JStr (Hook.inputType_str (Hook.inputType data))) (lit "text")
        && negb (Hook.present
                   (if Hook.present (option_map trim (Hook.textContent data))
                    then option_map sanitizeInput
                           (option_map trim (Hook.textContent data))
                    else None))) = true.
Proof.
  unfold keeps_text. destruct (Hook.inputType data); [|reflexivity|reflexivity].
  intros H. specialize (H eq_refl).
  destruct (Hook.textContent data) as [t|]; [|discriminate].
  cbn [option_map] in *. destruct (trim t) as [|c r] eqn:E.
  - rewrite sanitizeInput_empty in H. discriminate.
  - cbn [Hook.present Hook.non_empty option_map]. cbn [Hook.present] in H.
    rewrite H. reflexivity.
Qed.

Lemma inputType_truthy (t : Hook.InputType) :
  truthy (JStr (Hook.inputType_str t)) = true.
Proof. destruct t; reflexivity. Qed.

Lemma bind_ret_l {A B : Type} (a : A) (k : A -> Edge.M B) :
  Edge.bind (Edge.ret a) k = k a.
Proof. reflexivity. Qed.

Lemma bind_bind_step {A B C : Type} (m : Edge.M A) (k1 : A -> Edge.M B)
    (k2 : B -> Edge.M C) (s s1 : Edge.St) (a : A) :
  m s = (s1, inl a) ->
  Edge.bind (Edge.bind m k1) k2 s = Edge.bind (k1 a) k2 s1.
Proof. intros H. unfold Edge.bind. now rewrite H. Qed.

Lemma handle_keeps_minted (guest : str) (env : Edge.Env)
    (requestBody userId : JsVal) (title : str) (d t : option str) :
  keeps (mints guest)
    (Edge.bind
       (Edge.bind (Edge.resolve_session env requestBody userId)
          (fun sessionId =>
             Edge.bind (Edge.freshUUID env)
               (fun problemId =>
                  Edge.ret {| Edge.requestBody := requestBody;
                              Edge.sanitizedTitle := title;
                              Edge.sanitizedDescription := d;
                              Edge.sanitizedTextContent := t;
                              Edge.userId := userId;
                              Edge.sessionId := sessionId;
                              Edge.contentHash :=
                                Edge.digest_hex env
                                  (ToString
                                     (jor (jor (jor (Hook.opt_val t)
                                                    (get "image_data" requestBody))
                                               (get "voice_url" requestBody))
                                          (JStr [])));
                              Edge.problemId := problemId |})))
       (fun p => Edge.store_and_solve env p)).
Proof.
  apply keeps_bind; [|intros; apply store_mints].
  apply keeps_bind; [apply resolve_session_mints|intros].
  apply keeps_bind; [apply keeps_fresh|intros]. apply keeps_ret.
Qed.

(** The handler mints the identity of a guest whose request it accepts. *)
Lemma guest_minted (henv : Edge.Env) (req : Edge.Request)
    (data : Hook.ProblemSubmissionData) :
  Edge.json req = inl (guest_body data) ->
  str_eqb (Edge.method req) (lit "OPTIONS") = false ->
  Edge.createClient_throws henv = None ->
  valid_input data -> keeps_text data ->
  mints (fst (generateUUID (Edge.random henv) 0)) (snd (Edge.serve henv req)).
Proof.
  intros Hj Hm Hc (Ht & _) Hk.
  destruct (guest_body_fields data) as (B0 & B1 & B2 & B3 & B4 & B5 & B6).
  assert (S : snd (Edge.serve henv req)
              = Edge.ops (fst (Edge.handle henv req start))).
  { unfold Edge.serve. rewrite Hm. fold start.
    destruct (Edge.handle henv req start) as [s [r|e]]; reflexivity. }
  rewrite S. clear S.
  destruct (generateUUID (Edge.random henv) 0) as [g c] eqn:G. cbn [fst].
  pose proof (handle_keeps_minted g henv (guest_body data) (JStr g)
                (sanitizeInput (trim (Hook.title data)))
                (if Hook.present (option_map trim (Hook.description data))
                 then option_map sanitizeInput
                        (option_map trim (Hook.description data))
                 else None)
                (if Hook.present (option_map trim (Hook.textContent data))
                 then option_map sanitizeInput
                        (option_map trim (Hook.textContent data))
                 else None)
                {| Edge.ops := [Edge.Insert "users" (Edge.guest_user g)];
                   Edge.calls := c |}
                (ex_intro _ [] eq_refl)) as K.
  assert (Ht' : truthy (JStr (trim (Hook.title data))) = true) by exact Ht.
  unfold Edge.handle, Edge.prepare, Edge.resolve_user.
  rewrite Hc, Hj. unfold Edge.read. rewrite B0, B1, B2, B5, B6.
  cbv iota.
  repeat first [ rewrite bind_ret_l
               | rewrite B3 | rewrite B4
               | rewrite sanitize_if_opt
               | rewrite (text_guard data Hk)
               | rewrite inputType_truthy
               | rewrite Ht'
               | progress cbn [Edge.guard Edge.sanitize andb negb truthy] ].
  rewrite (bind_bind_step _ _ _ start
             {| Edge.ops := [Edge.Insert "users" (Edge.guest_user g)];
                Edge.calls := c |} (JStr g)).
  - exact K.
  - unfold Edge.bind, Edge.freshUUID, Edge.perform, Edge.ret, start.
    cbn [Edge.calls Edge.ops]. rewrite G. reflexivity.
Qed.

(* ===================================================================== *)
(** * The handler and the data model: what the specification claims *)
(* ===================================================================== *)

(** C6, as the specification words it, fails: a guest's submission of type
    text whose only content is an image passes the hook's validation and is
    sent without [user_id], but the handler rejects it before it resolves
    any identity: it answers 500 and writes nothing. *)
Lemma guest_submission_rejected :
  valid_input image_only
  /\ guest_context sample_guest None
  /\ omits "user_id" (guest_body image_only)
  /\ Edge.http_status
       (fst (Edge.serve (sample_edge_env (Some "key"%string))
               (post (guest_body image_only)))) = 500%Z
  /\ snd (Edge.serve (sample_edge_env (Some "key"%string))
            (post (guest_body image_only))) = [].
Proof.
  split; [split; vm_compute; reflexivity|].
  split; [split; [reflexivity|split; [reflexivity|]];
          eexists; split; reflexivity|].
  split; [vm_compute; reflexivity|].
  split; vm_compute; reflexivity.
Qed.

(** C6, amended.  A guest's valid submission calls the endpoint once the
    session lookup has answered, with a body that holds no [user_id]
    property at all and with no headers.  When the handler accepts that
    body (its client is created and a text submission keeps a text content
    once sanitized), the first thing it writes is the row of a guest user
    whose identity it has generated itself, a valid UUID. *)
Theorem guest_submission (env : Hook.Env) (auth : Hook.Auth)
    (data : Hook.ProblemSubmissionData) (w : Hook.World)
    (session : option Hook.Session) (henv : Edge.Env) (req : Edge.Request) :
  Hook.submit_session env = Hook.SessionIs session false ->
  guest_context auth session ->
  valid_input data ->
  (exists rest,
     Hook.effects (snd (Hook.submitProblem env auth data w))
     = Hook.effects w ++ Hook.GetSession
         :: Hook.Invoke (lit "submit-problem")
              (Hook.requestBody data JUndefined) []
         :: rest)
  /\ omits "user_id" (guest_body data)
  /\ get "user_id" (guest_body data) = JUndefined
  /\ (Edge.json req = inl (guest_body data) ->
      str_eqb (Edge.method req) (lit "OPTIONS") = false ->
      Edge.createClient_throws henv = None ->
      keeps_text data ->
      (forall n, (0 <= Edge.random henv n)%Q /\ (Edge.random henv n < 1)%Q) ->
      isValidUUID (fst (generateUUID (Edge.random henv) 0)) = true
      /\ mints (fst (generateUUID (Edge.random henv) 0))
               (snd (Edge.serve henv req))).
Proof.
  intros Hs Hg Hv.
  split; [exact (guest_call env auth data w session Hs Hg Hv)|].
  split; [exact (proj1 (guest_body_omits data))|].
  split; [exact (proj2 (guest_body_omits data))|].
  intros Hj Hm Hc Hk Hr. split.
  - exact (proj1 (generateUUID_valid (Edge.random henv) 0 Hr)).
  - exact (guest_minted henv req data Hj Hm Hc Hv Hk).
Qed.

Lemma guest_submission_witness :
  valid_input (sample_data "Q1" (Some "2+2?"%string))
  /\ guest_context sample_guest None
  /\ keeps_text (sample_data "Q1" (Some "2+2?"%string))
  /\ mints (fst (generateUUID (fun _ => 1 # 2) 0))
       (snd (Edge.serve (sample_edge_env None)
               (post (guest_body (sample_data "Q1" (Some "2+2?"%string)))))).
Proof.
  assert (Hv : valid_input (sample_data "Q1" (Some "2+2?"%string)))
    by (split; vm_compute; reflexivity).
  assert (Hg : guest_context sample_guest None).
  { split; [reflexivity|split; [reflexivity|]]. eexists; split; reflexivity. }
  assert (Hk : keeps_text (sample_data "Q1" (Some "2+2?"%string)))
    by (intros _; vm_compute; reflexivity).
  assert (Hr : forall n : nat,
             (0 <= Edge.random (sample_edge_env None) n)%Q
             /\ (Edge.random (sample_edge_env None) n < 1)%Q).
  { intros n. split; [discriminate|reflexivity]. }
  split; [exact Hv|]. split; [exact Hg|]. split; [exact Hk|].
  exact (proj2 (proj2 (proj2 (proj2
    (guest_submission (sample_env JNull JNull) sample_guest
       (sample_data "Q1" (Some "2+2?"%string)) initial_world None
       (sample_edge_env None)
       (post (guest_body (sample_data "Q1" (Some "2+2?"%string))))
       eq_refl Hg Hv))) eq_refl eq_refl eq_refl Hk Hr)).
Defined.

(** C9, as the specification words it, fails: with the key absent, a
    request that names no title is answered 500, and no row is written. *)
Lemma missing_api_key_rejected_request :
  Hook.present (Edge.GOOGLE_API_KEY (sample_edge_env None)) = false
  /\ Edge.http_status
       (fst (Edge.serve (sample_edge_env None) (post untitled_body))) = 500%Z
  /\ snd (Edge.serve (sample_edge_env None) (post untitled_body)) = [].
Proof. repeat split; vm_compute; reflexivity. Qed.

(** C9, amended.  When the request has been accepted and its row stored
    (the insert reports no error and hands the row back), and the API key
    is absent or empty, the handler does not take its failure path: it
    updates the row with status [error] and an error message, and answers
    503 with [success: false], the error text and the problem identifier. *)
Theorem missing_api_key (env : Edge.Env) (req : Edge.Request) (s : Edge.St)
    (p : Edge.Prepared) :
  str_eqb (Edge.method req) (lit "OPTIONS") = false ->
  Edge.prepare env req start = (s, inl p) ->
  Edge.db_error (Edge.problem_insert env) = None ->
  is_nullish (Edge.data (Edge.problem_insert env)) = false ->
  Hook.present (Edge.GOOGLE_API_KEY env) = false ->
  Edge.http_status (fst (Edge.serve env req)) = 503%Z
  /\ get "success" (Edge.body (fst (Edge.serve env req))) = JBool false
  /\ get "error" (Edge.body (fst (Edge.serve env req)))
     = JStr (lit "AI service temporarily unavailable")
  /\ get "problemId" (Edge.body (fst (Edge.serve env req)))
     = JStr (Edge.problemId p)
  /\ (exists before,
        snd (Edge.serve env req)
        = before ++
          [Edge.Update "problem_submissions"
             (Edge.error_update (Edge.data (Edge.problem_insert env))
                (lit "AI service temporarily unavailable") (Edge.now env 3))
             (JStr (Edge.problemId p))])
  /\ get "status"
       (Edge.error_update (Edge.data (Edge.problem_insert env))
          (lit "AI service temporarily unavailable") (Edge.now env 3))
     = JStr (lit "error")
  /\ get "error_message"
       (Edge.error_update (Edge.data (Edge.problem_insert env))
          (lit "AI service temporarily unavailable") (Edge.now env 3))
     = JStr (lit "AI service temporarily unavailable").
Proof.
  intros Hm Hp Hi Hd Hk.
  assert (E : Edge.serve env req
              = (Edge.failure_response 503
                   (lit "AI service temporarily unavailable") (Edge.problemId p),
                 Edge.ops (fst (Edge.store_and_solve env p s)))).
  { unfold Edge.serve. rewrite Hm. fold start. unfold Edge.handle, Edge.bind.
    rewrite Hp, (store_without_key env p s Hi Hd Hk). reflexivity. }
  rewrite E, (store_without_key env p s Hi Hd Hk). cbn [fst snd Edge.ops].
  split; [reflexivity|]. split; [reflexivity|]. split; [reflexivity|].
  split; [reflexivity|]. split; [|split; reflexivity].
  match goal with
  | |- exists _, ?l ++ [?a; ?b; ?c] = _ => exists (l ++ [a; b])
  end.
  rewrite <- app_assoc. reflexivity.
Qed.

Lemma missing_api_key_witness :
  Hook.present (Edge.GOOGLE_API_KEY (sample_edge_env None)) = false
  /\ Edge.http_status
       (fst (Edge.serve (sample_edge_env None)
               (post (guest_body (sample_data "Q1" (Some "2+2?"%string))))))
     = 503%Z.
Proof.
  split; [reflexivity|].
  destruct (Edge.prepare (sample_edge_env None)
              (post (guest_body (sample_data "Q1" (Some "2+2?"%string))))
              start) as [s [p|e]] eqn:Hp.
  - exact (proj1 (missing_api_key (sample_edge_env None)
                    (post (guest_body (sample_data "Q1" (Some "2+2?"%string))))
                    s p eq_refl Hp eq_refl eq_refl eq_refl)).
  - vm_compute in Hp. discriminate Hp.
Defined.

(* --------------------------------------------------------------------- *)
(** ** The invariant of the data model *)

Lemma truthy_present (v : JsVal) : truthy v = true -> is_present v = true.
Proof. destruct v; simpl; congruence. Qed.

Lemma jor_undefined_present (v : JsVal) :
  is_present (jor v JUndefined) = truthy v.
Proof.
  unfold jor. destruct (truthy v) eqn:E; [|reflexivity].
  now apply truthy_present.
Qed.

Lemma truthy_jor_undefined (v : JsVal) : truthy (jor v JUndefined) = truthy v.
Proof. unfold jor. destruct (truthy v) eqn:E; [exact E|reflexivity]. Qed.

Lemma truthy_jor (a b : JsVal) : truthy (jor a b) = truthy a || truthy b.
Proof. unfold jor. destruct (truthy a) eqn:E; [exact E|reflexivity]. Qed.

(** The error half holds of the result made from any row. *)
Lemma newResult_error (data : JsVal) :
  is_str (Hook.status (Hook.newResult data)) (lit "error") = true
  <-> truthy (Hook.errorMessage (Hook.newResult data)) = true.
Proof.
  cbn [Hook.newResult Hook.status Hook.errorMessage].
  destruct (is_str (get "status" data) (lit "error")) eqn:E.
  - destruct (row_errorMessage_derived data E) as [-> T]. rewrite T. tauto.
  - unfold Hook.row_errorMessage. rewrite E. cbn [truthy].
    split; discriminate.
Qed.

(** Normalizing keeps the invariant of a fetched row. *)
Lemma newResult_keeps (data : JsVal) :
  row_invariant data -> result_invariant (Hook.newResult data).
Proof.
  intros [Hc He]. split; [|apply newResult_error].
  pose proof (newResult_error data) as Hr.
  cbn [Hook.newResult Hook.status Hook.errorMessage Hook.solution] in *.
  rewrite truthy_jor_undefined. split.
  - intros C. split; [apply Hc, C|].
    destruct (truthy (Hook.row_errorMessage data)); [|reflexivity].
    pose proof (proj2 Hr eq_refl) as P.
    rewrite (is_str_other _ (lit "completed") (lit "error")) in P;
      [discriminate| |exact C].
    vm_compute. discriminate.
  - intros [S P]. apply Hc. split; [exact S|].
    destruct (truthy (get "error_message" data)); [|reflexivity].
    pose proof (proj1 Hr (proj2 He eq_refl)). congruence.
Qed.

(** C2, as the specification words it, fails: from a fetched row marked
    completed that holds no solution, a polling attempt exposes a result
    that is completed and has no solution. *)
Lemma completed_without_solution :
  exists r,
    Hook.result (Hook.hook
      (Hook.poll (sample_env JNull bare_completed_row) None
         (JStr sample_uuid) 0 initial_world)) = Some r
    /\ ~ result_invariant r.
Proof.
  exists (Hook.newResult bare_completed_row). split; [vm_compute; reflexivity|].
  intros [[H _] _].
  assert (C : is_str (Hook.status (Hook.newResult bare_completed_row))
                (lit "completed") = true) by (vm_compute; reflexivity).
  destruct (H C) as [S _]. vm_compute in S. discriminate S.
Qed.

(** C2, amended.  Presence is read in one way throughout: a column or a
    field is present when its value is truthy.  When the answer of the
    model is not empty once sanitized, every state of the submission row
    that the handler writes, from the insert to the terminal update, has
    status [completed] exactly when a solution is present and no error
    message is, and status [error] exactly when an error message is
    present.  The result the polling loop makes from any fetched row has
    status [error] exactly when it has an error message, and it satisfies
    the whole invariant whenever the fetched row does: so it does for every
    row state the handler writes under the condition above. *)
Theorem submission_invariant :
  (forall env req,
     answer_kept env ->
     Forall (fun row => row_invariant (JObj row))
       (Edge.row_states [] (snd (Edge.serve env req))))
  /\ (forall data,
        is_str (Hook.status (Hook.newResult data)) (lit "error") = true
        <-> truthy (Hook.errorMessage (Hook.newResult data)) = true)
  /\ (forall data,
        row_invariant data -> result_invariant (Hook.newResult data))
  /\ (forall env req,
        answer_kept env ->
        Forall (fun row => result_invariant (Hook.newResult (JObj row)))
          (Edge.row_states [] (snd (Edge.serve env req)))).
Proof.
  split; [exact serve_rows|]. split; [exact newResult_error|].
  split; [exact newResult_keeps|].
  intros env req K.
  apply (Forall_impl _ (fun row => newResult_keeps (JObj row))).
  exact (serve_rows env req K).
Qed.

Lemma submission_invariant_witness :
  answer_kept (model_env (Some "key"%string)
                 (Edge.FetchResponds true 200 (inl (model_answer "4"))))
  /\ Edge.row_states []
       (snd (Edge.serve
               (model_env (Some "key"%string)
                  (Edge.FetchResponds true 200 (inl (model_answer "4"))))
               (post sample_body))) <> []
  /\ Forall (fun row => result_invariant (Hook.newResult (JObj row)))
       (Edge.row_states []
          (snd (Edge.serve
                  (model_env (Some "key"%string)
                     (Edge.FetchResponds true 200 (inl (model_answer "4"))))
                  (post sample_body)))).
Proof.
  assert (K : answer_kept
                (model_env (Some "key"%string)
                   (Edge.FetchResponds true 200 (inl (model_answer "4"))))).
  { intros status geminiData s G. injection G as _ <-.
    vm_compute. intros [= <-]. discriminate. }
  split; [exact K|]. split; [vm_compute; discriminate|].
  exact (proj2 (proj2 (proj2 submission_invariant)) _ (post sample_body) K).
Defined.

(** What the amended statement leaves out.  The handler falls back on a
    fixed text when the model gives none, but it does so before it
    sanitizes: an answer that is a script block and nothing else is
    answered 200, and the row is written as completed with the empty text
    for solution, which the polling loop then shows as a completed result
    without a solution. *)
Lemma completed_with_empty_solution :
  Edge.http_status
    (fst (Edge.serve
            (model_env (Some "key"%string)
               (Edge.FetchResponds true 200
                  (inl (model_answer "<script>x</script>"))))
            (post sample_body))) = 200%Z
  /\ exists first_state row,
       Edge.row_states []
         (snd (Edge.serve
                 (model_env (Some "key"%string)
                    (Edge.FetchResponds true 200
                       (inl (model_answer "<script>x</script>"))))
                 (post sample_body)))
       = [first_state; row]
       /\ get "status" (JObj row) = JStr (lit "completed")
       /\ get "solution" (JObj row) = JStr []
       /\ Hook.solution (Hook.newResult (JObj row)) = JUndefined
       /\ ~ row_invariant (JObj row)
       /\ ~ result_invariant (Hook.newResult (JObj row)).
Proof.
  split; [vm_compute; reflexivity|].
  eexists. eexists. split; [vm_compute; reflexivity|].
  split; [vm_compute; reflexivity|]. split; [vm_compute; reflexivity|].
  split; [vm_compute; reflexivity|]. split.
  - intros [[H _] _].
    assert (C : true = true) by reflexivity.
    destruct (H C) as [S _]. vm_compute in S. discriminate S.
  - intros [[H _] _].
    assert (C : true = true) by reflexivity.
    destruct (H C) as [S _]. vm_compute in S. discriminate S.
Qed.
(* ===================================================================== *)
(** * Further properties of the hook *)
(* ===================================================================== *)

Lemma on_response_outcome (response : JsVal) (w : Hook.World) :
  match Hook.on_response response w with
  | (w', inl pid) =>
      pid = get "problemId" response /\ truthy pid = true
      /\ isValidUUID (ToString pid) = true
      /\ Hook.result (Hook.hook w') = Some (Hook.initialResult response)
      /\ Hook.error (Hook.hook w') = Hook.error (Hook.hook w)
      /\ Hook.isSubmitting (Hook.hook w') = Hook.isSubmitting (Hook.hook w)
      /\ ((Hook.timers w' = Hook.timers w /\ Hook.effects w' = Hook.effects w)
          \/ (Hook.timers w' = Hook.timers w ++ [first_timer pid]
              /\ Hook.effects w' = Hook.effects w ++ [Hook.SetTimeout 1000]))
  | (w', inr t) => w' = w
  end.
Proof.
  unfold Hook.on_response.
  destruct (truthy response); cbn [negb]; [|reflexivity].
  destruct (truthy (get "success" response)); cbn [negb]; [|reflexivity].
  destruct (truthy (get "problemId" response)) eqn:P; cbn [negb];
    [|reflexivity].
  destruct (isValidUUID (ToString (get "problemId" response))) eqn:V;
    cbn [negb]; [|reflexivity].
  destruct (is_str (get "status" response) (lit "completed"));
    [|destruct (_ || _)]; repeat split; auto.
Qed.

Lemma submit_try_outcome (env : Hook.Env) (auth : Hook.Auth)
    (data : Hook.ProblemSubmissionData) (w : Hook.World) :
  match Hook.submit_try env auth data w with
  | (w', inl pid) =>
      (exists response, pid = get "problemId" response
         /\ Hook.result (Hook.hook w') = Some (Hook.initialResult response))
      /\ truthy pid = true
      /\ isValidUUID (ToString pid) = true
      /\ Hook.error (Hook.hook w') = Hook.error (Hook.hook w)
      /\ Hook.isSubmitting (Hook.hook w') = Hook.isSubmitting (Hook.hook w)
      /\ exists body headers,
           (Hook.timers w' = Hook.timers w
            /\ Hook.effects w'
               = Hook.effects w
                 ++ [Hook.GetSession;
                     Hook.Invoke (lit "submit-problem") body headers])
           \/ (Hook.timers w' = Hook.timers w ++ [first_timer pid]
               /\ Hook.effects w'
                  = Hook.effects w
                    ++ [Hook.GetSession;
                        Hook.Invoke (lit "submit-problem") body headers;
                        Hook.SetTimeout 1000])
  | (w', inr t) =>
      Hook.hook w' = Hook.hook w /\ Hook.timers w' = Hook.timers w
      /\ (Hook.effects w' = Hook.effects w ++ [Hook.GetSession]
          \/ exists body headers,
               Hook.effects w'
               = Hook.effects w
                 ++ [Hook.GetSession;
                     Hook.Invoke (lit "submit-problem") body headers])
  end.
Proof.
  unfold Hook.submit_try.
  destruct (Hook.submit_session env) as [session [|]|t]; [auto| |auto].
  destruct (Hook.resolve_identity auth session) as [[userId authHeaders]|t];
    [|auto].
  assert (E : forall e : list Hook.Effect,
             (e ++ [Hook.GetSession])
             ++ [Hook.Invoke (lit "submit-problem")
                   (Hook.requestBody data userId) authHeaders]
             = e ++ [Hook.GetSession;
                     Hook.Invoke (lit "submit-problem")
                       (Hook.requestBody data userId) authHeaders])
    by (intros e; now rewrite <- app_assoc).
  destruct (Hook.submit_reply env) as [response e|t].
  - destruct (Hook.submitError_truthy e).
    + cbn [Hook.emit Hook.hook Hook.timers Hook.effects]. rewrite E. eauto 6.
    + match goal with |- context [Hook.on_response response ?x] =>
        pose proof (on_response_outcome response x) as R;
        destruct (Hook.on_response response x) as [w' [pid|t]] end.
      * destruct R as (Hp & Ht & Hv & Hr & He & Hs & Hw).
        cbn [Hook.emit Hook.hook Hook.timers Hook.effects] in *.
        rewrite E in Hw.
        split; [eauto|]. repeat (split; [assumption|]).
        exists (Hook.requestBody data userId), authHeaders.
        destruct Hw as [[H1 H2]|[H1 H2]]; [left|right]; split;
          try assumption.
        rewrite H2, <- app_assoc. reflexivity.
      * subst w'. cbn [Hook.emit Hook.hook Hook.timers Hook.effects].
        rewrite E. eauto 6.
  - cbn [Hook.emit Hook.hook Hook.timers Hook.effects]. rewrite E. eauto 6.
Qed.

(** What a successful [try] block has read: a session without error, an
    identity, and a reply of the endpoint that carries no error and a
    truthy response marked as a success. *)
Lemma submit_try_reply (env : Hook.Env) (auth : Hook.Auth)
    (data : Hook.ProblemSubmissionData) (w : Hook.World) :
  match Hook.submit_try env auth data w with
  | (w', inl pid) =>
      exists session userId headers response e,
        Hook.submit_session env = Hook.SessionIs session false
        /\ Hook.resolve_identity auth session = inl (userId, headers)
        /\ Hook.submit_reply env = Hook.InvokeReturns response e
        /\ Hook.submitError_truthy e = false
        /\ truthy response = true
        /\ truthy (get "success" response) = true
        /\ pid = get "problemId" response
        /\ Hook.result (Hook.hook w') = Some (Hook.initialResult response)
        /\ Hook.timers w'
           = if is_str (get "status" response) (lit "completed")
             then Hook.timers w
             else if in_progress response
                  then Hook.timers w ++ [first_timer pid]
                  else Hook.timers w
  | (w', inr t) => True
  end.
Proof.
  unfold Hook.submit_try.
  destruct (Hook.submit_session env) as [session [|]|t]; [exact I| |exact I].
  destruct (Hook.resolve_identity auth session) as [[userId authHeaders]|t]
    eqn:Hi; [|exact I].
  destruct (Hook.submit_reply env) as [response e|t]; [|exact I].
  destruct (Hook.submitError_truthy e) eqn:He; [exact I|].
  unfold Hook.on_response, in_progress.
  destruct (truthy response) eqn:Hr; cbn [negb]; [|exact I].
  destruct (truthy (get "success" response)) eqn:Hs; cbn [negb]; [|exact I].
  destruct (truthy (get "problemId" response)); cbn [negb]; [|exact I].
  destruct (isValidUUID (ToString (get "problemId" response))); cbn [negb];
    [|exact I].
  cbv zeta.
  destruct (is_str (get "status" response) (lit "completed")) eqn:C;
    [|destruct (_ || _) eqn:D];
    exists session, userId, authHeaders, response, e; repeat split; auto;
    rewrite ?C, ?D; reflexivity.
Qed.

(** X1. Every call of [submitProblem] ends with [isSubmitting] false, in
    one of two states.  Either it resolves to [null], the error holds a
    message, no result is set and no polling is started.  Or the input is
    valid, the session lookup of the environment gave a session without
    error, an identity was resolved from it, and the endpoint of the
    environment returned, without error, a truthy response marked as a
    success: the call resolves to the [problemId] of that very response,
    a truthy value whose string form is a well-formed identifier (the
    value itself need not be a string), the error is cleared, the result
    is the initial one built from that response, and one timer is added,
    for that value, exactly when the response's status is [processing] or
    [pending]. *)
Theorem submitProblem_outcome (env : Hook.Env) (auth : Hook.Auth)
    (data : Hook.ProblemSubmissionData) (w : Hook.World) :
  let r := Hook.submitProblem env auth data w in
  Hook.isSubmitting (Hook.hook (snd r)) = false
  /\ ((fst r = JNull
       /\ (exists message, Hook.error (Hook.hook (snd r)) = JStr message)
       /\ Hook.result (Hook.hook (snd r)) = None
       /\ Hook.timers (snd r) = Hook.timers w)
      \/ (exists session userId headers response e,
            valid_input data
            /\ Hook.submit_session env = Hook.SessionIs session false
            /\ Hook.resolve_identity auth session = inl (userId, headers)
            /\ Hook.submit_reply env = Hook.InvokeReturns response e
            /\ Hook.submitError_truthy e = false
            /\ truthy response = true
            /\ truthy (get "success" response) = true
            /\ fst r = get "problemId" response
            /\ truthy (fst r) = true
            /\ isValidUUID (ToString (fst r)) = true
            /\ Hook.error (Hook.hook (snd r)) = JNull
            /\ Hook.result (Hook.hook (snd r))
               = Some (Hook.initialResult response)
            /\ Hook.timers (snd r)
               = if in_progress response
                 then Hook.timers w ++ [first_timer (fst r)]
                 else Hook.timers w)).
Proof.
  cbv zeta. unfold Hook.submitProblem. fold (reset w).
  destruct (Hook.non_empty (trim (Hook.title data))) eqn:Ht; cbn [negb].
  2:{ cbn. split; [reflexivity|left]. eauto 6. }
  destruct (_ && _) eqn:Hc.
  { cbn. split; [reflexivity|left]. eauto 6. }
  assert (Hv : valid_input data).
  { split; [exact Ht|]. revert Hc.
    destruct (Hook.present _), (Hook.present _), (Hook.present _);
      cbn; congruence. }
  pose proof (submit_try_outcome env auth data (reset w)) as T.
  pose proof (submit_try_reply env auth data (reset w)) as R.
  destruct (Hook.submit_try env auth data (reset w)) as [w' [pid|t]].
  - destruct T as (_ & Htr & Hu & He & _).
    destruct R as (session & userId & headers & response & e & R1 & R2 & R3
                   & R4 & R5 & R6 & R7 & R8 & R9).
    cbn. split; [reflexivity|right].
    exists session, userId, headers, response, e.
    repeat (split; [assumption|]).
    rewrite R9. change (Hook.timers (reset w)) with (Hook.timers w).
    unfold in_progress.
    destruct (is_str (get "status" response) (lit "completed")) eqn:C;
      [|reflexivity].
    apply is_str_eq in C. rewrite C. reflexivity.
  - destruct T as (Hh & Ht' & _).
    cbn. split; [reflexivity|left].
    repeat split; [eauto| |exact Ht']. now rewrite Hh.
Qed.

(** X2. One call of [submitProblem] adds to the log nothing, or one
    session lookup, or the lookup and one call of [submit-problem], or
    these and the first polling timer: it never calls twice, never queries
    the store, and leaves at most one new timer, of 1000 ms. *)
Theorem submitProblem_trace (env : Hook.Env) (auth : Hook.Auth)
    (data : Hook.ProblemSubmissionData) (w : Hook.World) :
  exists es,
    Hook.effects (snd (Hook.submitProblem env auth data w))
    = Hook.effects w ++ es
    /\ submission_trace es
    /\ queries es = []
    /\ (List.length (filter Hook.is_invoke es) <= 1)%nat
    /\ (valid_input data -> exists rest, es = Hook.GetSession :: rest).
Proof.
  unfold Hook.submitProblem. fold (reset w).
  destruct (Hook.non_empty (trim (Hook.title data))) eqn:Ht; cbn [negb].
  2:{ exists []. cbn. rewrite app_nil_r. unfold submission_trace, valid_input.
      repeat split; auto. intros [H _]. congruence. }
  destruct (_ && _) eqn:Hc.
  { exists []. cbn. rewrite app_nil_r. unfold submission_trace, valid_input.
    repeat split; auto. intros [_ H]. exfalso. revert Hc H.
    destruct (Hook.present _), (Hook.present _), (Hook.present _);
      discriminate. }
  pose proof (submit_try_outcome env auth data (reset w)) as T.
  destruct (Hook.submit_try env auth data (reset w)) as [w' [pid|t]].
  - destruct T as (_ & _ & _ & _ & _ & body & headers & [[_ E]|[_ E]]);
      cbn [snd Hook.setIsSubmitting Hook.effects]; rewrite E;
      change (Hook.effects (reset w)) with (Hook.effects w);
      eexists; (split; [reflexivity|]); unfold submission_trace;
      (repeat split; eauto 8).
  - destruct T as (_ & _ & [E|(body & headers & E)]);
      cbn [snd Hook.setIsSubmitting Hook.setError Hook.effects]; rewrite E;
      change (Hook.effects (reset w)) with (Hook.effects w);
      eexists; (split; [reflexivity|]); unfold submission_trace;
      (repeat split; eauto 8).
Qed.

Lemma resolve_identity_sound (auth : Hook.Auth) (session : option Hook.Session)
    (userId : JsVal) (headers : list (string * str)) :
  Hook.resolve_identity auth session = inl (userId, headers) ->
  headers = bearer session
  /\ ((userId = JUndefined /\ headers = []
       /\ exists u, Hook.user auth = Some u /\ Hook.isGuest u = true)
      \/ exists i, userId = JStr i /\ isValidUUID i = true
                   /\ Hook.user_has_id (Hook.user auth) = Some i).
Proof.
  unfold Hook.resolve_identity, bearer.
  destruct session as [s|].
  - destruct (Hook.non_empty (Hook.access_token s)).
    + destruct (Hook.user_has_id (Hook.user auth)) as [i|]; [|discriminate].
      destruct (isValidUUID i) eqn:V; [|discriminate].
      intros [= <- <-]. split; [reflexivity|right]. eauto.
    + destruct (Hook.isAuthenticated auth).
      * destruct (Hook.user_has_id (Hook.user auth)) as [i|].
        -- destruct (isValidUUID i) eqn:V; [|discriminate]. cbn [negb].
           intros [= <- <-]. split; [reflexivity|right]. eauto.
        -- destruct (Hook.user auth) as [u|]; [|discriminate].
           destruct (Hook.isGuest u) eqn:G; [|discriminate].
           intros [= <- <-]. split; [reflexivity|left]. eauto.
      * destruct (Hook.user auth) as [u|]; [|discriminate].
        destruct (Hook.isGuest u) eqn:G; [|discriminate].
        intros [= <- <-]. split; [reflexivity|left]. eauto.
  - destruct (Hook.isAuthenticated auth).
    + destruct (Hook.user_has_id (Hook.user auth)) as [i|].
      * destruct (isValidUUID i) eqn:V; [|discriminate]. cbn [negb].
        intros [= <- <-]. split; [reflexivity|right]. eauto.
      * destruct (Hook.user auth) as [u|]; [|discriminate].
        destruct (Hook.isGuest u) eqn:G; [|discriminate].
        intros [= <- <-]. split; [reflexivity|left]. eauto.
    + destruct (Hook.user auth) as [u|]; [|discriminate].
      destruct (Hook.isGuest u) eqn:G; [|discriminate].
      intros [= <- <-]. split; [reflexivity|left]. eauto.
Qed.

(** The call made by a submission, when it makes one. *)
Lemma submission_call (env : Hook.Env) (auth : Hook.Auth)
    (data : Hook.ProblemSubmissionData) (w : Hook.World) (fn : str)
    (body : JsVal) (headers : list (string * str)) (rest : list Hook.Effect) :
  Hook.effects (snd (Hook.submitProblem env auth data w))
  = Hook.effects w ++ Hook.GetSession :: Hook.Invoke fn body headers :: rest ->
  exists session userId,
    Hook.submit_session env = Hook.SessionIs session false
    /\ Hook.resolve_identity auth session = inl (userId, headers)
    /\ body = Hook.requestBody data userId.
Proof.
  unfold Hook.submitProblem. fold (reset w).
  assert (N : forall l : list Hook.Effect,
             Hook.effects w = Hook.effects w ++ Hook.GetSession :: l -> False).
  { intros l H. apply (f_equal (@List.length _)) in H.
    rewrite length_app in H. cbn in H. lia. }
  destruct (negb (Hook.non_empty (trim (Hook.title data)))).
  { cbn. intros H. destruct (N _ H). }
  destruct (_ && _).
  { cbn. intros H. destruct (N _ H). }
  unfold Hook.submit_try.
  assert (O : forall t l,
             Hook.effects w ++ [Hook.GetSession]
             = Hook.effects w ++ Hook.GetSession :: t :: l -> False).
  { intros t l H. apply app_inv_head in H. discriminate H. }
  destruct (Hook.submit_session env) as [session [|]|t].
  { cbn. intros H. destruct (O _ _ H). }
  2:{ cbn. intros H. destruct (O _ _ H). }
  destruct (Hook.resolve_identity auth session) as [[userId authHeaders]|t]
    eqn:Hi.
  2:{ cbn. intros H. destruct (O _ _ H). }
  intros H. exists session, userId.
  assert (E : exists l,
             Hook.effects w ++ Hook.GetSession :: Hook.Invoke fn body headers :: rest
             = Hook.effects w ++ Hook.GetSession
                 :: Hook.Invoke (lit "submit-problem")
                      (Hook.requestBody data userId) authHeaders :: l).
  { rewrite <- H. clear H.
    destruct (Hook.submit_reply env) as [response e|t].
    - destruct (Hook.submitError_truthy e).
      + cbn. rewrite <- app_assoc. now exists [].
      + match goal with |- context [Hook.on_response response ?x] =>
          pose proof (on_response_outcome response x) as R;
          destruct (Hook.on_response response x) as [w' [pid|t]] end.
        * destruct R as (_ & _ & _ & _ & _ & _ & [[_ R]|[_ R]]);
            cbn [snd Hook.setIsSubmitting Hook.effects]; rewrite R; cbn;
            rewrite <- ?app_assoc; cbn; eauto.
        * subst w'. cbn. rewrite <- app_assoc. now exists [].
    - cbn. rewrite <- app_assoc. now exists []. }
  destruct E as (l & E). apply app_inv_head in E.
  injection E as _ Eb Eh _. subst. auto.
Qed.

(** X3. Whatever [submitProblem] sends, it sends it to [submit-problem],
    with an identity that is either left out, for a user flagged as guest,
    or the well-formed identifier of the user at hand, and with an
    [Authorization] header exactly when the session holds a token. *)
Theorem submitProblem_identity (env : Hook.Env) (auth : Hook.Auth)
    (data : Hook.ProblemSubmissionData) (w : Hook.World) (fn : str)
    (body : JsVal) (headers : list (string * str)) (rest : list Hook.Effect) :
  Hook.effects (snd (Hook.submitProblem env auth data w))
  = Hook.effects w ++ Hook.GetSession :: Hook.Invoke fn body headers :: rest ->
  exists session userId,
    Hook.submit_session env = Hook.SessionIs session false
    /\ body = Hook.requestBody data userId
    /\ headers = bearer session
    /\ ((userId = JUndefined /\ headers = []
         /\ exists u, Hook.user auth = Some u /\ Hook.isGuest u = true)
        \/ exists i, userId = JStr i /\ isValidUUID i = true
                     /\ Hook.user_has_id (Hook.user auth) = Some i).
Proof.
  intros H.
  destruct (submission_call env auth data w fn body headers rest H)
    as (session & userId & Hs & Hi & Hb).
  exists session, userId.
  destruct (resolve_identity_sound auth session userId headers Hi) as [Hh Hu].
  auto.
Qed.

Lemma submitProblem_identity_witness :
  Hook.effects (snd (Hook.submitProblem member_env sample_member sum_data
                       initial_world))
  = Hook.effects initial_world ++ Hook.GetSession
      :: Hook.Invoke (lit "submit-problem")
           (Hook.requestBody sum_data (JStr sample_uuid))
           [("Authorization"%string, lit "Bearer token")] :: []
  /\ exists session userId,
       Hook.submit_session member_env = Hook.SessionIs session false
       /\ Hook.requestBody sum_data (JStr sample_uuid)
          = Hook.requestBody sum_data userId
       /\ [("Authorization"%string, lit "Bearer token")] = bearer session
       /\ ((userId = JUndefined
            /\ [("Authorization"%string, lit "Bearer token")] = []
            /\ exists u, Hook.user sample_member = Some u
                         /\ Hook.isGuest u = true)
           \/ exists i, userId = JStr i /\ isValidUUID i = true
                        /\ Hook.user_has_id (Hook.user sample_member) = Some i).
Proof.
  assert (H : Hook.effects (snd (Hook.submitProblem member_env sample_member
                                   sum_data initial_world))
              = Hook.effects initial_world ++ Hook.GetSession
                  :: Hook.Invoke (lit "submit-problem")
                       (Hook.requestBody sum_data (JStr sample_uuid))
                       [("Authorization"%string, lit "Bearer token")] :: [])
    by (vm_compute; reflexivity).
  split; [exact H|].
  exact (submitProblem_identity member_env sample_member sum_data
           initial_world (lit "submit-problem") _ _ [] H).
Defined.

(** Past the validation of the input. *)
Lemma submission_validated (env : Hook.Env) (auth : Hook.Auth)
    (data : Hook.ProblemSubmissionData) (w : Hook.World) :
  valid_input data ->
  Hook.submitProblem env auth data w
  = match Hook.submit_try env auth data (reset w) with
    | (w', inl pid) => (pid, Hook.setIsSubmitting false w')
    | (w', inr err) =>
        (JNull,
         Hook.setIsSubmitting false (Hook.setError (JStr (caught_text err)) w'))
    end.
Proof.
  intros (Ht & Hc). unfold Hook.submitProblem. fold (reset w).
  rewrite Ht. cbn [negb]. rewrite <- !negb_orb, Hc. cbn [negb].
  destruct (Hook.submit_try env auth data (reset w)) as [w' [pid|[m|j t|t]]];
    reflexivity.
Qed.

Lemma user_has_id_valid (u : Hook.User) (i : str) :
  Hook.user_id u = Some i -> isValidUUID i = true ->
  Hook.user_has_id (Some u) = Some i.
Proof.
  intros Hu Hv. unfold Hook.user_has_id. rewrite Hu. cbn [Hook.present].
  destruct i; [discriminate Hv|reflexivity].
Qed.

(** X4. A signed-in user, the session holding a token and the user a
    well-formed identifier, has the submission sent under that identifier
    and with the token as bearer, whatever [isAuthenticated] says; the
    serialized body names the identifier. *)
Theorem submitProblem_authenticated (env : Hook.Env) (auth : Hook.Auth)
    (data : Hook.ProblemSubmissionData) (w : Hook.World) (s : Hook.Session)
    (u : Hook.User) (i : str) :
  valid_input data ->
  Hook.submit_session env = Hook.SessionIs (Some s) false ->
  Hook.non_empty (Hook.access_token s) = true ->
  Hook.user auth = Some u -> Hook.user_id u = Some i ->
  isValidUUID i = true ->
  (exists rest,
     Hook.effects (snd (Hook.submitProblem env auth data w))
     = Hook.effects w ++ Hook.GetSession
         :: Hook.Invoke (lit "submit-problem") (Hook.requestBody data (JStr i))
              [("Authorization"%string, lit "Bearer " ++ Hook.access_token s)]
         :: rest)
  /\ get "user_id" (wire (Hook.requestBody data (JStr i))) = JStr i.
Proof.
  intros Hd Hs Hk Hu Hi Hv. split.
  - rewrite (submission_validated env auth data w Hd).
    unfold Hook.submit_try. rewrite Hs.
    unfold Hook.resolve_identity. rewrite Hk, Hu.
    rewrite (user_has_id_valid u i Hi Hv), Hv.
    destruct (Hook.submit_reply env) as [response e|t].
    + destruct (Hook.submitError_truthy e).
      * cbn. rewrite <- app_assoc. now exists [].
      * match goal with |- context [Hook.on_response response ?x] =>
          pose proof (on_response_outcome response x) as R;
          destruct (Hook.on_response response x) as [w' [pid|t]] end.
        -- destruct R as (_ & _ & _ & _ & _ & _ & [[_ R]|[_ R]]);
             cbn [snd Hook.setIsSubmitting Hook.effects]; rewrite R; cbn;
             rewrite <- ?app_assoc; cbn; eauto.
        -- subst w'. cbn. rewrite <- app_assoc. now exists [].
    + cbn. rewrite <- app_assoc. now exists [].
  - unfold Hook.requestBody.
    destruct (Hook.description data), (Hook.textContent data),
      (Hook.imageData data), (Hook.voiceUrl data); reflexivity.
Qed.

Lemma submitProblem_authenticated_witness :
  valid_input sum_data
  /\ Hook.submit_session member_env = Hook.SessionIs (Some sample_session) false
  /\ Hook.non_empty (Hook.access_token sample_session) = true
  /\ isValidUUID sample_uuid = true
  /\ (exists rest,
        Hook.effects (snd (Hook.submitProblem member_env sample_member
                             sum_data initial_world))
        = Hook.effects initial_world ++ Hook.GetSession
            :: Hook.Invoke (lit "submit-problem")
                 (Hook.requestBody sum_data (JStr sample_uuid))
                 [("Authorization"%string,
                   lit "Bearer " ++ Hook.access_token sample_session)]
            :: rest)
  /\ get "user_id" (wire (Hook.requestBody sum_data (JStr sample_uuid)))
     = JStr sample_uuid.
Proof.
  assert (Hd : valid_input sum_data) by (split; reflexivity).
  assert (Hv : isValidUUID sample_uuid = true) by (vm_compute; reflexivity).
  split; [exact Hd|]. split; [reflexivity|]. split; [reflexivity|].
  split; [exact Hv|].
  exact (submitProblem_authenticated member_env sample_member sum_data
           initial_world sample_session
           {| Hook.user_id := Some sample_uuid; Hook.isGuest := false |}
           sample_uuid Hd eq_refl eq_refl eq_refl eq_refl Hv).
Defined.

Lemma resolve_identity_refuses (auth : Hook.Auth)
    (session : option Hook.Session) (t : Hook.Thrown) :
  Hook.resolve_identity auth session = inr t ->
  (t = Hook.ThrowError (lit "Invalid user session. Please sign in again.")
   /\ valid_user_id auth = false
   /\ (live session = true \/ Hook.isAuthenticated auth = true))
  \/ (t = Hook.ThrowError (lit "Please sign in to submit problems")
      /\ live session = false /\ is_guest auth = false).
Proof.
  unfold Hook.resolve_identity, valid_user_id, is_guest.
  fold (live session).
  destruct (live session).
  - destruct (Hook.user_has_id (Hook.user auth)) as [i|].
    + destruct (isValidUUID i); [discriminate|]. intros [= <-]. auto.
    + intros [= <-]. auto.
  - destruct (Hook.isAuthenticated auth).
    + destruct (Hook.user_has_id (Hook.user auth)) as [i|].
      * destruct (isValidUUID i); [discriminate|]. intros [= <-]. auto.
      * destruct (Hook.user auth) as [u|].
        -- destruct (Hook.isGuest u); [discriminate|]. intros [= <-]. auto.
        -- intros [= <-]. auto.
    + destruct (Hook.user auth) as [u|].
      * destruct (Hook.isGuest u); [discriminate|]. intros [= <-]. auto.
      * intros [= <-]. auto.
Qed.

(** X5. When the hook finds no identity to submit under, it makes no call:
    after the session lookup it resolves to [null] with one of two
    messages.  The first tells a user whose identifier is missing or
    malformed, the session holding a token or the user being
    authenticated; the second tells whoever has no token and is not
    flagged as guest. *)
Theorem submitProblem_unidentified (env : Hook.Env) (auth : Hook.Auth)
    (data : Hook.ProblemSubmissionData) (w : Hook.World)
    (session : option Hook.Session) (t : Hook.Thrown) :
  valid_input data ->
  Hook.submit_session env = Hook.SessionIs session false ->
  Hook.resolve_identity auth session = inr t ->
  let r := Hook.submitProblem env auth data w in
  fst r = JNull
  /\ Hook.effects (snd r) = Hook.effects w ++ [Hook.GetSession]
  /\ Hook.timers (snd r) = Hook.timers w
  /\ ((Hook.error (Hook.hook (snd r))
       = JStr (lit "Invalid user session. Please sign in again.")
       /\ valid_user_id auth = false
       /\ (live session = true \/ Hook.isAuthenticated auth = true))
      \/ (Hook.error (Hook.hook (snd r))
          = JStr (lit "Please sign in to submit problems")
          /\ live session = false /\ is_guest auth = false)).
Proof.
  intros Hd Hs Hi r. subst r.
  rewrite (submission_validated env auth data w Hd).
  unfold Hook.submit_try. rewrite Hs, Hi.
  cbn [fst snd Hook.setIsSubmitting Hook.setError Hook.emit Hook.effects
       Hook.timers Hook.hook Hook.error].
  repeat (split; [reflexivity|]).
  destruct (resolve_identity_refuses auth session t Hi)
    as [(-> & H)|(-> & H)]; [left|right]; (split; [reflexivity|exact H]).
Qed.

Lemma submitProblem_unidentified_witness :
  valid_input sum_data
  /\ Hook.resolve_identity sample_anonymous None
     = inr (Hook.ThrowError (lit "Please sign in to submit problems"))
  /\ fst (Hook.submitProblem (sample_env JNull JNull) sample_anonymous
            sum_data initial_world) = JNull
  /\ Hook.effects (snd (Hook.submitProblem (sample_env JNull JNull)
                          sample_anonymous sum_data initial_world))
     = [Hook.GetSession]
  /\ Hook.error (Hook.hook (snd (Hook.submitProblem (sample_env JNull JNull)
                                   sample_anonymous sum_data initial_world)))
     = JStr (lit "Please sign in to submit problems").
Proof.
  assert (Hd : valid_input sum_data) by (split; reflexivity).
  split; [exact Hd|]. split; [reflexivity|].
  destruct (submitProblem_unidentified (sample_env JNull JNull)
              sample_anonymous sum_data initial_world None
              (Hook.ThrowError (lit "Please sign in to submit problems"))
              Hd eq_refl eq_refl) as (H1 & H2 & _ & [(H3 & _)|(H3 & _)]).
  - discriminate H3.
  - split; [exact H1|]. split; [exact H2|exact H3].
Defined.

(** X6. A session lookup that reports an error, or that rejects, ends the
    submission before any call: the hook resolves to [null], the log gains
    the lookup alone, and the error is the fixed authentication message,
    or the text of what was thrown. *)
Theorem submitProblem_session_failure (env : Hook.Env) (auth : Hook.Auth)
    (data : Hook.ProblemSubmissionData) (w : Hook.World) :
  valid_input data ->
  (forall session, Hook.submit_session env <> Hook.SessionIs session false) ->
  let r := Hook.submitProblem env auth data w in
  fst r = JNull
  /\ Hook.effects (snd r) = Hook.effects w ++ [Hook.GetSession]
  /\ Hook.error (Hook.hook (snd r))
     = JStr match Hook.submit_session env with
            | Hook.SessionRejects t => caught_text t
            | Hook.SessionIs _ _ =>
                lit "Authentication error. Please sign in again."
            end.
Proof.
  intros Hd Hs r. subst r.
  rewrite (submission_validated env auth data w Hd).
  unfold Hook.submit_try.
  destruct (Hook.submit_session env) as [session [|]|t];
    [|destruct (Hs session eq_refl)|]; cbn; auto.
Qed.

Lemma submitProblem_session_failure_witness :
  valid_input sum_data
  /\ fst (Hook.submitProblem
            (hook_env (Hook.SessionIs None true)
                      (Hook.InvokeReturns JNull None))
            sample_guest sum_data initial_world) = JNull
  /\ Hook.effects
       (snd (Hook.submitProblem
               (hook_env (Hook.SessionIs None true)
                         (Hook.InvokeReturns JNull None))
               sample_guest sum_data initial_world))
     = Hook.effects initial_world ++ [Hook.GetSession]
  /\ Hook.error
       (Hook.hook
          (snd (Hook.submitProblem
                  (hook_env (Hook.SessionIs None true)
                            (Hook.InvokeReturns JNull None))
                  sample_guest sum_data initial_world)))
     = JStr (lit "Authentication error. Please sign in again.").
Proof.
  assert (Hd : valid_input sum_data) by (split; reflexivity).
  split; [exact Hd|].
  apply (submitProblem_session_failure
           (hook_env (Hook.SessionIs None true)
                     (Hook.InvokeReturns JNull None))
           sample_guest sum_data initial_world Hd).
  intros session H. discriminate H.
Defined.

(** X7. An error of the call ends the submission without a result and
    without polling, the response being ignored; the message is chosen
    from the error.  An HTTP error of the function is told by its status:
    401, 403, or any other. *)
Theorem submitProblem_call_error (env : Hook.Env) (auth : Hook.Auth)
    (data : Hook.ProblemSubmissionData) (w : Hook.World)
    (session : option Hook.Session) (userId : JsVal)
    (headers : list (string * str)) (response : JsVal)
    (e : Hook.FunctionsError) :
  valid_input data ->
  Hook.submit_session env = Hook.SessionIs session false ->
  Hook.resolve_identity auth session = inl (userId, headers) ->
  Hook.submit_reply env = Hook.InvokeReturns response (Some e) ->
  Hook.submitError_truthy (Some e) = true ->
  let r := Hook.submitProblem env auth data w in
  fst r = JNull
  /\ Hook.result (Hook.hook (snd r)) = None
  /\ Hook.timers (snd r) = Hook.timers w
  /\ Hook.error (Hook.hook (snd r)) = JStr (Hook.submitError_message e)
  /\ forall status message,
       e = Hook.FnError (lit "FunctionsHttpError") status message ->
       Hook.error (Hook.hook (snd r))
       = JStr (if is_num status 401
               then lit "Authentication failed. Please sign in again."
               else if is_num status 403
                    then lit "Access denied. Please check your permissions."
                    else lit "AI service is temporarily unavailable. Please try again later.").
Proof.
  intros Hd Hs Hi Hr He r. subst r.
  rewrite (submission_validated env auth data w Hd).
  unfold Hook.submit_try. rewrite Hs, Hi, Hr, He.
  cbn [fst snd Hook.setIsSubmitting Hook.setError Hook.setResult Hook.emit
       Hook.effects Hook.timers Hook.hook Hook.error Hook.result caught_text
       reset].
  repeat (split; [reflexivity|]).
  intros status message ->. reflexivity.
Qed.

Lemma submitProblem_call_error_witness :
  valid_input sum_data
  /\ Hook.resolve_identity sample_guest None = inl (JUndefined, [])
  /\ Hook.submitError_truthy (Some unauthorized) = true
  /\ Hook.error
       (Hook.hook
          (snd (Hook.submitProblem
                  (hook_env (Hook.SessionIs None false)
                            (Hook.InvokeReturns JNull (Some unauthorized)))
                  sample_guest sum_data initial_world)))
     = JStr (lit "Authentication failed. Please sign in again.").
Proof.
  assert (Hd : valid_input sum_data) by (split; reflexivity).
  split; [exact Hd|]. split; [reflexivity|]. split; [reflexivity|].
  exact (proj2 (proj2 (proj2 (proj2
           (submitProblem_call_error
              (hook_env (Hook.SessionIs None false)
                        (Hook.InvokeReturns JNull (Some unauthorized)))
              sample_guest sum_data initial_world None JUndefined [] JNull
              unauthorized Hd eq_refl eq_refl eq_refl eq_refl))))
           (JNum 401) [] eq_refl).
Defined.

Ltac step_done :=
  split; [reflexivity|]; cbn; split; [lia|]; split; [lia|]; left; split;
  reflexivity.

(** What one attempt adds: at most one lookup and one query, and at most
    one timer, for the next attempt and only below the bound. *)
Lemma poll_step (env : Hook.Env) (u : option Hook.User) (pid : JsVal)
    (n : nat) (w : Hook.World) :
  let w' := Hook.poll env u pid n w in
  Hook.isSubmitting (Hook.hook w') = Hook.isSubmitting (Hook.hook w)
  /\ exists es,
       Hook.effects w' = Hook.effects w ++ es
       /\ (List.length (queries es) <= 1)%nat
       /\ (List.length (network es) <= 2)%nat
       /\ ((Hook.timers w' = Hook.timers w /\ delays es = [])
           \/ (Hook.timers w' = Hook.timers w ++ [next_timer pid n]
               /\ delays es = [2000%Z] /\ (S n < Hook.maxAttempts)%nat)).
Proof.
  unfold Hook.poll, Hook.poll_try.
  destruct (isValidUUID (ToString pid)); cbn [negb].
  2:{ cbn. split; [reflexivity|]. exists []. rewrite app_nil_r. step_done. }
  destruct (Hook.poll_session env n) as [session e|t].
  2:{ cbn. split; [reflexivity|]. exists [Hook.GetSession]. step_done. }
  match goal with |- context [Hook.SelectSingle ?t ?f] =>
    generalize f; intros filters end.
  assert (E : forall l : list Hook.Effect,
             (l ++ [Hook.GetSession])
             ++ [Hook.SelectSingle (lit "problem_submissions") filters]
             = l ++ [Hook.GetSession;
                     Hook.SelectSingle (lit "problem_submissions") filters])
    by (intros l; now rewrite <- app_assoc).
  destruct (Hook.poll_reply env n) as [data [fe|]|t].
  - cbn. split; [reflexivity|]. rewrite E. eexists. step_done.
  - destruct (truthy data); cbn [negb].
    + destruct (_ || _).
      * destruct (is_str (get "status" data) (lit "error")); cbn;
          (split; [reflexivity|]); rewrite E; eexists; step_done.
      * destruct (S n <? Hook.maxAttempts)%nat eqn:L.
        -- apply Nat.ltb_lt in L. cbn. split; [reflexivity|].
           rewrite E, <- app_assoc. eexists. split; [reflexivity|].
           cbn. split; [lia|]. split; [lia|]. right. unfold next_timer. auto.
        -- cbn. split; [reflexivity|]. rewrite E. eexists. step_done.
    + cbn. split; [reflexivity|]. rewrite E. eexists. step_done.
  - cbn. split; [reflexivity|]. rewrite E. eexists. step_done.
Qed.

(** From a pending attempt on: the loop stays within the bound. *)
Lemma polling_bound (env : Hook.Env) (u : option Hook.User) (pid : JsVal)
    (base : list Hook.Effect) :
  forall turns n w d es,
    Hook.timers w
    = [{| Hook.delay := d; Hook.problemId := pid; Hook.attempts := n |}] ->
    (n < Hook.maxAttempts)%nat ->
    Hook.effects w = base ++ es ->
    (List.length (queries es) <= n)%nat ->
    (List.length (network es) <= 2 * n)%nat ->
    (List.length (delays es) <= S n)%nat ->
    let w' := Hook.run_timers env u turns w in
    Hook.isSubmitting (Hook.hook w') = Hook.isSubmitting (Hook.hook w)
    /\ (exists es',
          Hook.effects w' = base ++ es'
          /\ (List.length (queries es') <= Hook.maxAttempts)%nat
          /\ (List.length (network es') <= 2 * Hook.maxAttempts)%nat
          /\ (List.length (delays es') <= Hook.maxAttempts)%nat)
    /\ ((Hook.maxAttempts - n <= turns)%nat -> Hook.timers w' = []).
Proof.
  induction turns as [|k IH]; intros n w d es Ht Hn He Hq Hk Hd.
  - cbn [Hook.run_timers]. split; [reflexivity|]. split.
    + exists es. repeat split; [exact He|lia|lia|lia].
    + intros H. lia.
  - rewrite run_timers_S. unfold Hook.fire at 1. rewrite Ht.
    cbn [Hook.problemId Hook.attempts].
    set (w0 := {| Hook.hook := Hook.hook w; Hook.effects := Hook.effects w;
                  Hook.timers := [] |}).
    destruct (poll_step env u pid n w0) as (Hs & es1 & E1 & Q1 & K1 & T1).
    cbn [w0 Hook.hook Hook.effects Hook.timers app] in Hs, E1, T1.
    assert (E2 : Hook.effects (Hook.poll env u pid n w0) = base ++ es ++ es1)
      by (rewrite E1, He, app_assoc; reflexivity).
    assert (Q2 : (List.length (queries (es ++ es1)) <= S n)%nat)
      by (rewrite queries_app, length_app; lia).
    assert (K2 : (List.length (network (es ++ es1)) <= 2 * S n)%nat)
      by (unfold network in *; rewrite filter_app, length_app; lia).
    destruct T1 as [[T1 D1]|(T1 & D1 & L1)].
    + rewrite (run_timers_idle env u k _ T1).
      split; [exact Hs|]. split; [|intros _; exact T1].
      exists (es ++ es1). split; [exact E2|].
      rewrite delays_app, length_app, D1. cbn [List.length].
      unfold Hook.maxAttempts in *. lia.
    + assert (D2 : (List.length (delays (es ++ es1)) <= S (S n))%nat)
        by (rewrite delays_app, length_app, D1; cbn [List.length]; lia).
      destruct (IH (S n) (Hook.poll env u pid n w0) 2000%Z (es ++ es1)
                  T1 L1 E2 Q2 K2 D2) as (Is & Ie & It).
      split; [now rewrite Is|]. split; [exact Ie|].
      intros H. apply It. lia.
Qed.

(** X8. Whatever the session lookups and the store answer, the loop
    started by [pollForCompletion] is bounded: it issues at most 60 status
    queries and 120 network calls, sets at most 60 timers, never touches
    [isSubmitting], and after 60 turns of the event loop no timer is left
    pending. *)
Theorem pollForCompletion_bounded (env : Hook.Env) (u : option Hook.User)
    (pid : JsVal) (w : Hook.World) (turns : nat) :
  Hook.timers w = [] ->
  let w' := Hook.run_timers env u turns (Hook.pollForCompletion pid w) in
  Hook.isSubmitting (Hook.hook w') = Hook.isSubmitting (Hook.hook w)
  /\ (exists es,
        Hook.effects w' = Hook.effects w ++ es
        /\ (List.length (queries es) <= 60)%nat
        /\ (List.length (network es) <= 120)%nat
        /\ (List.length (delays es) <= 60)%nat)
  /\ ((60 <= turns)%nat -> Hook.timers w' = []).
Proof.
  intros Ht.
  assert (T : Hook.timers (Hook.pollForCompletion pid w)
              = [{| Hook.delay := 1000; Hook.problemId := pid;
                    Hook.attempts := 0 |}])
    by (cbn; now rewrite Ht).
  assert (L : (0 < Hook.maxAttempts)%nat) by (unfold Hook.maxAttempts; lia).
  exact (polling_bound env u pid (Hook.effects w) turns 0
           (Hook.pollForCompletion pid w) 1000%Z [Hook.SetTimeout 1000]
           T L eq_refl (Nat.le_refl 0) (Nat.le_refl 0) (Nat.le_refl 1)).
Qed.

Lemma pollForCompletion_bounded_witness :
  Hook.timers initial_world = []
  /\ (exists es,
        Hook.effects
          (Hook.run_timers (sample_env JNull (sample_row "processing")) None 70
             (Hook.pollForCompletion (JStr sample_uuid) initial_world))
        = Hook.effects initial_world ++ es
        /\ (List.length (queries es) <= 60)%nat
        /\ (List.length (network es) <= 120)%nat
        /\ (List.length (delays es) <= 60)%nat).
Proof.
  split; [reflexivity|].
  exact (proj1 (proj2
           (pollForCompletion_bounded
              (sample_env JNull (sample_row "processing")) None
              (JStr sample_uuid) initial_world 70 eq_refl))).
Defined.

(** The attempt up to the row it fetched. *)
Lemma poll_fetched (env : Hook.Env) (u : option Hook.User) (pid : JsVal)
    (n : nat) (w : Hook.World) (session : option Hook.Session) (e : bool)
    (reply : Hook.QueryReply) :
  isValidUUID (ToString pid) = true ->
  Hook.poll_session env n = Hook.SessionIs session e ->
  Hook.poll_reply env n = reply ->
  Hook.poll env u pid n w
  = let w1 := Hook.emit (status_query env u pid n)
                (Hook.emit Hook.GetSession w) in
    match reply with
    | Hook.QueryRejects t =>
        Hook.setError
          (JStr (lit "Failed to check problem status: " ++ polled_text t)) w1
    | Hook.QueryReturns _ (Some fetchError) =>
        Hook.setError (JStr (Hook.fetchError_message fetchError)) w1
    | Hook.QueryReturns data None =>
        if truthy data then
          let w2 := Hook.setResult (Some (Hook.newResult data)) w1 in
          if is_str (get "status" data) (lit "completed")
             || is_str (get "status" data) (lit "error") then
            if is_str (get "status" data) (lit "error") then
              Hook.setError (jor (Hook.row_errorMessage data)
                                 (JStr (lit "Problem processing failed"))) w2
            else w2
          else if (S n <? Hook.maxAttempts)%nat then
            Hook.setTimeout 2000 pid (S n) w2
          else Hook.setError (JStr timeout_message) w2
        else
          Hook.setError
            (JStr (lit "Problem not found. Please try submitting again.")) w1
    end.
Proof.
  intros Hv Hs Hr. unfold Hook.poll, Hook.poll_try, status_query, poll_filters.
  rewrite Hv, Hs, Hr. cbn [negb].
  destruct reply as [data [fe|]|[m|j t|t]]; try reflexivity.
  destruct (truthy data); cbn [negb]; [|reflexivity].
  destruct (_ || _); [destruct (is_str _ _); reflexivity|].
  destruct (_ <? _)%nat; reflexivity.
Qed.

(** X9. An attempt that fetches a row marked completed stores the result
    made from the row, with that status, leaves the error as it was and
    sets no timer: the loop ends. *)
Theorem poll_completed_row (env : Hook.Env) (u : option Hook.User)
    (pid : JsVal) (n : nat) (w : Hook.World) (session : option Hook.Session)
    (e : bool) (data : JsVal) :
  isValidUUID (ToString pid) = true ->
  Hook.poll_session env n = Hook.SessionIs session e ->
  Hook.poll_reply env n = Hook.QueryReturns data None ->
  is_str (get "status" data) (lit "completed") = true ->
  let w' := Hook.poll env u pid n w in
  Hook.result (Hook.hook w') = Some (Hook.newResult data)
  /\ Hook.status (Hook.newResult data) = JStr (lit "completed")
  /\ Hook.errorMessage (Hook.newResult data) = JUndefined
  /\ Hook.error (Hook.hook w') = Hook.error (Hook.hook w)
  /\ Hook.timers w' = Hook.timers w
  /\ delays (Hook.effects w') = delays (Hook.effects w).
Proof.
  intros Hv Hs Hr Hc w'. subst w'.
  rewrite (poll_fetched env u pid n w session e _ Hv Hs Hr).
  cbn zeta. rewrite (is_str_object _ _ _ Hc), Hc.
  assert (He : is_str (get "status" data) (lit "error") = false)
    by (apply (is_str_other _ (lit "completed")); [vm_compute; discriminate|
        exact Hc]).
  rewrite He. cbn [orb].
  split; [reflexivity|]. split; [now apply is_str_eq|].
  split; [cbn [Hook.newResult Hook.errorMessage]; unfold Hook.row_errorMessage;
          now rewrite He|].
  split; [reflexivity|]. split; [reflexivity|].
  cbn [Hook.setResult Hook.emit Hook.effects].
  rewrite !delays_app. cbn. now rewrite !app_nil_r.
Qed.

Lemma poll_completed_row_witness :
  isValidUUID (ToString (JStr sample_uuid)) = true
  /\ is_str (get "status" solved_row) (lit "completed") = true
  /\ Hook.result (Hook.hook (Hook.poll (sample_env JNull solved_row) None
                               (JStr sample_uuid) 0 initial_world))
     = Some (Hook.newResult solved_row)
  /\ Hook.timers (Hook.poll (sample_env JNull solved_row) None
                    (JStr sample_uuid) 0 initial_world) = [].
Proof.
  assert (Hv : isValidUUID (ToString (JStr sample_uuid)) = true)
    by (vm_compute; reflexivity).
  assert (Hc : is_str (get "status" solved_row) (lit "completed") = true)
    by (vm_compute; reflexivity).
  split; [exact Hv|]. split; [exact Hc|].
  destruct (poll_completed_row (sample_env JNull solved_row) None
              (JStr sample_uuid) 0 initial_world None false solved_row
              Hv eq_refl eq_refl Hc) as (H1 & _ & _ & _ & H2 & _).
  split; [exact H1|exact H2].
Defined.

(** X10. An attempt whose query reports an error, or fetches no row, ends
    the loop without a retry: no timer is set, the result stays as it was
    and the error tells what happened; the code [PGRST116] is told as a
    row that is missing or not accessible. *)
Theorem poll_query_failure (env : Hook.Env) (u : option Hook.User)
    (pid : JsVal) (n : nat) (w : Hook.World) (session : option Hook.Session)
    (e : bool) (data : JsVal) (fetchError : option Hook.PostgrestError) :
  isValidUUID (ToString pid) = true ->
  Hook.poll_session env n = Hook.SessionIs session e ->
  Hook.poll_reply env n = Hook.QueryReturns data fetchError ->
  fetchError <> None \/ truthy data = false ->
  let w' := Hook.poll env u pid n w in
  Hook.timers w' = Hook.timers w
  /\ Hook.result (Hook.hook w') = Hook.result (Hook.hook w)
  /\ Hook.effects w'
     = Hook.effects w ++ [Hook.GetSession; status_query env u pid n]
  /\ Hook.error (Hook.hook w')
     = JStr match fetchError with
            | Some fe => Hook.fetchError_message fe
            | None => lit "Problem not found. Please try submitting again."
            end
  /\ forall fe, fetchError = Some fe ->
                is_str (Hook.code fe) (lit "PGRST116") = true ->
                Hook.error (Hook.hook w')
                = JStr (lit "Problem not found or access denied.").
Proof.
  intros Hv Hs Hr Hf w'. subst w'.
  rewrite (poll_fetched env u pid n w session e _ Hv Hs Hr). cbn zeta.
  destruct fetchError as [fe|].
  - cbn [Hook.setError Hook.emit Hook.timers Hook.hook Hook.result
         Hook.effects Hook.error].
    rewrite <- app_assoc. repeat (split; [reflexivity|]).
    intros fe' [= <-] Hc. unfold Hook.fetchError_message. now rewrite Hc.
  - destruct Hf as [Hf|Hf]; [congruence|]. rewrite Hf.
    cbn [Hook.setError Hook.emit Hook.timers Hook.hook Hook.result
         Hook.effects Hook.error].
    rewrite <- app_assoc. repeat (split; [reflexivity|]).
    intros fe Hfe. discriminate Hfe.
Qed.

Lemma poll_query_failure_witness :
  isValidUUID (ToString (JStr sample_uuid)) = true
  /\ Hook.timers (Hook.poll (store_env (Hook.QueryReturns JNull (Some not_found)))
                    None (JStr sample_uuid) 0 initial_world) = []
  /\ Hook.error
       (Hook.hook (Hook.poll (store_env (Hook.QueryReturns JNull (Some not_found)))
                     None (JStr sample_uuid) 0 initial_world))
     = JStr (lit "Problem not found or access denied.").
Proof.
  assert (Hv : isValidUUID (ToString (JStr sample_uuid)) = true)
    by (vm_compute; reflexivity).
  split; [exact Hv|].
  destruct (poll_query_failure
              (store_env (Hook.QueryReturns JNull (Some not_found))) None
              (JStr sample_uuid) 0 initial_world None false JNull
              (Some not_found) Hv eq_refl eq_refl
              (or_introl (fun H => eq_ind (Some not_found)
                            (fun o => match o with Some _ => True
                                               | None => False end) I None H)))
    as (H1 & _ & _ & _ & H2).
  split; [exact H1|]. exact (H2 not_found eq_refl eq_refl).
Defined.

(** X11. Started on an identifier that is not a well-formed UUID, the
    loop makes no network call at all: its first attempt fails on the
    identifier, sets the error and leaves no timer. *)
Theorem pollForCompletion_malformed (env : Hook.Env) (u : option Hook.User)
    (pid : JsVal) (w : Hook.World) (turns : nat) :
  Hook.timers w = [] ->
  isValidUUID (ToString pid) = false ->
  let w' := Hook.run_timers env u (S turns) (Hook.pollForCompletion pid w) in
  Hook.effects w' = Hook.effects w ++ [Hook.SetTimeout 1000]
  /\ Hook.timers w' = []
  /\ Hook.result (Hook.hook w') = Hook.result (Hook.hook w)
  /\ Hook.error (Hook.hook w')
     = JStr (lit "Failed to check problem status: Invalid problem ID format for polling").
Proof.
  intros Ht Hv w'. subst w'.
  rewrite run_timers_S. unfold Hook.pollForCompletion.
  rewrite (fire_setTimeout env u _ pid 0 w Ht).
  unfold Hook.poll, Hook.poll_try. rewrite Hv. cbn [negb].
  rewrite run_timers_idle by reflexivity.
  repeat split.
Qed.

Lemma pollForCompletion_malformed_witness :
  Hook.timers initial_world = []
  /\ isValidUUID (ToString (JStr (lit "test-user-id"))) = false
  /\ Hook.effects
       (Hook.run_timers (sample_env JNull JNull) None 1
          (Hook.pollForCompletion (JStr (lit "test-user-id")) initial_world))
     = Hook.effects initial_world ++ [Hook.SetTimeout 1000].
Proof.
  assert (Hv : isValidUUID (ToString (JStr (lit "test-user-id"))) = false)
    by (vm_compute; reflexivity).
  split; [reflexivity|]. split; [exact Hv|].
  exact (proj1 (pollForCompletion_malformed (sample_env JNull JNull) None
                  (JStr (lit "test-user-id")) initial_world 0 eq_refl Hv)).
Defined.

(** X12. A session lookup or a status query that rejects ends the loop:
    the error is the fixed prefix followed by the text of what was thrown,
    the message of an [Error] or the [String] of anything else, no timer
    is set and the result stays as it was; after a rejected lookup no
    query is issued. *)
Theorem poll_rejection (env : Hook.Env) (u : option Hook.User) (pid : JsVal)
    (n : nat) (w : Hook.World) (t : Hook.Thrown) :
  isValidUUID (ToString pid) = true ->
  Hook.poll_session env n = Hook.SessionRejects t
  \/ ((exists session e, Hook.poll_session env n = Hook.SessionIs session e)
      /\ Hook.poll_reply env n = Hook.QueryRejects t) ->
  let w' := Hook.poll env u pid n w in
  Hook.error (Hook.hook w')
  = JStr (lit "Failed to check problem status: " ++ polled_text t)
  /\ Hook.timers w' = Hook.timers w
  /\ Hook.result (Hook.hook w') = Hook.result (Hook.hook w)
  /\ (Hook.poll_session env n = Hook.SessionRejects t ->
      Hook.effects w' = Hook.effects w ++ [Hook.GetSession]).
Proof.
  intros Hv [Hs|[(session & e & Hs) Hr]] w'; subst w'.
  - unfold Hook.poll, Hook.poll_try. rewrite Hv, Hs. cbn [negb].
    destruct t; repeat split.
  - rewrite (poll_fetched env u pid n w session e _ Hv Hs Hr).
    repeat split. intros H. congruence.
Qed.

Lemma poll_rejection_witness :
  isValidUUID (ToString (JStr sample_uuid)) = true
  /\ Hook.error
       (Hook.hook
          (Hook.poll (store_env (Hook.QueryRejects
                                   (Hook.ThrowError (lit "Network request failed"))))
             None (JStr sample_uuid) 0 initial_world))
     = JStr (lit "Failed to check problem status: Network request failed").
Proof.
  assert (Hv : isValidUUID (ToString (JStr sample_uuid)) = true)
    by (vm_compute; reflexivity).
  split; [exact Hv|].
  exact (proj1 (poll_rejection
                  (store_env (Hook.QueryRejects
                                (Hook.ThrowError (lit "Network request failed"))))
                  None (JStr sample_uuid) 0 initial_world
                  (Hook.ThrowError (lit "Network request failed")) Hv
                  (or_intror (conj (ex_intro _ None (ex_intro _ false eq_refl))
                                   eq_refl)))).
Defined.

Lemma jor_undefined_cases (v : JsVal) :
  jor v JUndefined = JUndefined
  \/ (truthy (jor v JUndefined) = true /\ jor v JUndefined = v).
Proof.
  unfold jor. destruct (truthy v) eqn:E; [right; split; [exact E|reflexivity]|].
  now left.
Qed.

(** X13. The result made from a fetched row has no falsy field left: each
    of the solution, the explanation, the subject and the difficulty is
    [undefined] or a truthy value, so that [null], [false], 0 and the empty
    text of a column all read as absent.  A truthy solution or difficulty
    is the column's own value; the explanation is the explanation column
    when that is truthy and the solution otherwise; the subject is the
    topic when that is truthy and otherwise the subject column when that
    is truthy.  The tags are [undefined] or an array, which is the
    suggested tags of the model's answer or the tags column.  The
    identifier and the status are the columns as they are. *)
Theorem newResult_normalized (data : JsVal) :
  let r := Hook.newResult data in
  is_present (Hook.solution r) = truthy (get "solution" data)
  /\ is_present (Hook.explanation r)
     = truthy (get "explanation" data) || truthy (get "solution" data)
  /\ is_present (Hook.subject r)
     = truthy (get "topic" data) || truthy (get "subject" data)
  /\ is_present (Hook.difficulty r) = truthy (get "difficulty" data)
  /\ (truthy (get "topic" data) = true -> Hook.subject r = get "topic" data)
  /\ (truthy (get "explanation" data) = false ->
      Hook.explanation r = Hook.solution r)
  /\ (Hook.tags r = JUndefined \/ isArray (Hook.tags r) = true)
  /\ (Hook.solution r = JUndefined
      \/ (truthy (Hook.solution r) = true
          /\ Hook.solution r = get "solution" data))
  /\ (Hook.explanation r = JUndefined
      \/ (truthy (Hook.explanation r) = true
          /\ (Hook.explanation r = get "explanation" data
              \/ Hook.explanation r = get "solution" data)))
  /\ (Hook.subject r = JUndefined
      \/ (truthy (Hook.subject r) = true
          /\ (Hook.subject r = get "topic" data
              \/ Hook.subject r = get "subject" data)))
  /\ (Hook.difficulty r = JUndefined
      \/ (truthy (Hook.difficulty r) = true
          /\ Hook.difficulty r = get "difficulty" data))
  /\ (truthy (get "explanation" data) = true ->
      Hook.explanation r = get "explanation" data)
  /\ (truthy (get "topic" data) = false ->
      truthy (get "subject" data) = true ->
      Hook.subject r = get "subject" data)
  /\ (isArray (Hook.tags r) = true ->
      Hook.tags r = get "suggested_tags" (get "ai_response" data)
      \/ Hook.tags r = get "tags" data)
  /\ Hook.id r = get "id" data
  /\ Hook.status r = get "status" data.
Proof.
  cbn [Hook.newResult Hook.solution Hook.explanation Hook.subject
       Hook.difficulty Hook.tags Hook.id Hook.status].
  split; [apply jor_undefined_present|].
  split; [now rewrite jor_undefined_present, truthy_jor|].
  split; [now rewrite jor_undefined_present, truthy_jor|].
  split; [apply jor_undefined_present|].
  split; [intros H; unfold jor; now rewrite H, H|].
  split; [intros H; unfold jor at 2; now rewrite H|].
  assert (T : Hook.row_tags data = JUndefined
              \/ (isArray (Hook.row_tags data) = true
                  /\ (Hook.row_tags data
                      = get "suggested_tags" (get "ai_response" data)
                      \/ Hook.row_tags data = get "tags" data))).
  { unfold Hook.row_tags.
    destruct (is_object (get "ai_response" data)
              && isArray (get "suggested_tags" (get "ai_response" data)))
      eqn:A.
    - right. apply andb_true_iff in A. tauto.
    - destruct (isArray (get "tags" data)) eqn:B; auto. }
  split; [tauto|].
  split; [apply jor_undefined_cases|].
  split.
  { destruct (jor_undefined_cases
                (jor (get "explanation" data) (get "solution" data)))
      as [H|[H1 H2]]; [now left|right].
    split; [exact H1|]. rewrite H2. unfold jor.
    destruct (truthy (get "explanation" data)); auto. }
  split.
  { destruct (jor_undefined_cases
                (jor (get "topic" data) (get "subject" data)))
      as [H|[H1 H2]]; [now left|right].
    split; [exact H1|]. rewrite H2. unfold jor.
    destruct (truthy (get "topic" data)); auto. }
  split; [apply jor_undefined_cases|].
  split; [intros H; unfold jor; now rewrite H, H|].
  split; [intros H1 H2; unfold jor; now rewrite H1, H2|].
  split; [|split; reflexivity].
  intros H. destruct T as [T|[_ T]]; [|exact T].
  rewrite T in H. discriminate H.
Qed.

Lemma newResult_normalized_witness :
  truthy (get "explanation"
            (JObj [("explanation"%string, JStr (lit "Because."))])) = true
  /\ Hook.explanation
       (Hook.newResult (JObj [("explanation"%string, JStr (lit "Because."))]))
     = JStr (lit "Because.").
Proof.
  split; [reflexivity|].
  destruct (newResult_normalized
              (JObj [("explanation"%string, JStr (lit "Because."))]))
    as (_ & _ & _ & _ & _ & _ & _ & _ & _ & _ & _ & H & _).
  exact (H eq_refl).
Defined.

(** X14. [clearResult] empties the result and the error and nothing else:
    a pending polling loop is not cancelled, and its next attempt, when it
    fetches a row, sets the result again. *)
Theorem clearResult_keeps_polling (env : Hook.Env) (u : option Hook.User)
    (w : Hook.World) (t : Hook.Timer) (ts : list Hook.Timer)
    (session : option Hook.Session) (e : bool) (data : JsVal) :
  Hook.timers w = t :: ts ->
  isValidUUID (ToString (Hook.problemId t)) = true ->
  Hook.poll_session env (Hook.attempts t) = Hook.SessionIs session e ->
  Hook.poll_reply env (Hook.attempts t) = Hook.QueryReturns data None ->
  truthy data = true ->
  Hook.result (Hook.hook (Hook.clearResult w)) = None
  /\ Hook.error (Hook.hook (Hook.clearResult w)) = JNull
  /\ Hook.isSubmitting (Hook.hook (Hook.clearResult w))
     = Hook.isSubmitting (Hook.hook w)
  /\ Hook.timers (Hook.clearResult w) = Hook.timers w
  /\ Hook.effects (Hook.clearResult w) = Hook.effects w
  /\ Hook.result (Hook.hook (Hook.fire env u (Hook.clearResult w)))
     = Some (Hook.newResult data).
Proof.
  intros Ht Hv Hs Hr Hd. repeat (split; [reflexivity|]).
  unfold Hook.fire. cbn [Hook.clearResult Hook.setError Hook.setResult
                         Hook.timers]. rewrite Ht.
  rewrite (poll_fetched env u _ _ _ session e _ Hv Hs Hr). cbn zeta.
  rewrite Hd.
  destruct (_ || _); [destruct (is_str _ _); reflexivity|].
  destruct (_ <? _)%nat; reflexivity.
Qed.

Lemma clearResult_keeps_polling_witness :
  isValidUUID (ToString (JStr sample_uuid)) = true
  /\ truthy solved_row = true
  /\ Hook.result
       (Hook.hook
          (Hook.fire (sample_env JNull solved_row) None
             (Hook.clearResult
                (Hook.pollForCompletion (JStr sample_uuid) initial_world))))
     = Some (Hook.newResult solved_row).
Proof.
  assert (Hv : isValidUUID (ToString (JStr sample_uuid)) = true)
    by (vm_compute; reflexivity).
  split; [exact Hv|]. split; [reflexivity|].
  exact (proj2 (proj2 (proj2 (proj2 (proj2
           (clearResult_keeps_polling (sample_env JNull solved_row) None
              (Hook.pollForCompletion (JStr sample_uuid) initial_world)
              (first_timer (JStr sample_uuid)) [] None false solved_row
              eq_refl Hv eq_refl eq_refl eq_refl)))))).
Defined.
(* ===================================================================== *)
(** * Further properties of the edge function *)
(* ===================================================================== *)

Section Aborts.

Variable P : list Edge.Effect -> Prop.

Lemma aborts_throw {A : Type} (message : str) : aborts P (@Edge.throw A message).
Proof. intros s H. split; [exact H|]. now exists message. Qed.

Lemma aborts_bind_l {A B : Type} (m : Edge.M A) (k : A -> Edge.M B) :
  aborts P m -> aborts P (Edge.bind m k).
Proof.
  intros Hm s H. unfold Edge.bind. destruct (Hm s H) as [Hp [e He]].
  destruct (m s) as [s' [a|e']]; cbn [fst snd] in *; [discriminate He|].
  split; [exact Hp|]. now exists e'.
Qed.

Lemma aborts_bind_r {A B : Type} (m : Edge.M A) (k : A -> Edge.M B) :
  keeps P m -> (forall a, aborts P (k a)) -> aborts P (Edge.bind m k).
Proof.
  intros Hm Hk s H. unfold Edge.bind. specialize (Hm s H).
  destruct (m s) as [s' [a|e]]; cbn [fst snd] in *.
  - now apply Hk.
  - split; [exact Hm|]. now exists e.
Qed.

Lemma aborts_guard (message : str) : aborts P (Edge.guard false message).
Proof. apply aborts_throw. Qed.

End Aborts.

(** A request that [prepare] refuses is answered 500 with nothing
    written. *)
Lemma serve_aborted (env : Edge.Env) (req : Edge.Request) :
  not_preflight req -> aborts (eq []) (Edge.prepare env req) ->
  snd (Edge.serve env req) = []
  /\ exists message, caught (fst (Edge.serve env req)) message
                     /\ snd (Edge.prepare env req start) = inr message.
Proof.
  intros Hm Ha. unfold Edge.serve. rewrite Hm.
  unfold Edge.handle, Edge.bind. fold start.
  destruct (Ha start eq_refl) as [Ho [e He]].
  destruct (Edge.prepare env req start) as [s [p|e']]; cbn [fst snd] in *;
    [discriminate He|].
  split; [now rewrite <- Ho|]. exists e'. split; [|reflexivity].
  repeat split.
Qed.

(** X15. A request whose body lacks a truthy [input_type] or a truthy
    [title] is refused before anything is written: the handler answers
    500 with [success] false and its log of writes and calls is empty. *)
Theorem serve_missing_fields (env : Edge.Env) (req : Edge.Request)
    (requestBody : JsVal) :
  not_preflight req ->
  Edge.json req = inl requestBody ->
  truthy (get "input_type" requestBody) && truthy (get "title" requestBody)
  = false ->
  snd (Edge.serve env req) = []
  /\ Edge.http_status (fst (Edge.serve env req)) = 500%Z
  /\ get "success" (Edge.body (fst (Edge.serve env req))) = JBool false
  /\ (Edge.createClient_throws env = None ->
      is_nullish requestBody = false ->
      get "error" (Edge.body (fst (Edge.serve env req)))
      = JStr (lit "Missing required fields: input_type and title are required")).
Proof.
  intros Hm Hj Hf.
  assert (Ha : aborts (eq []) (Edge.prepare env req)).
  { unfold Edge.prepare. rewrite Hj, Hf.
    destruct (Edge.createClient_throws env); [apply aborts_throw|].
    apply aborts_bind_r; [apply keeps_read|intros a].
    apply aborts_bind_l, aborts_guard. }
  destruct (serve_aborted env req Hm Ha) as (Ho & message & Hc & Hp).
  split; [exact Ho|]. destruct Hc as (H1 & H2 & H3 & _).
  split; [exact H1|]. split; [exact H2|].
  intros Hk Hn. rewrite H3. f_equal.
  revert Hp. unfold Edge.prepare. rewrite Hj, Hf, Hk.
  unfold Edge.bind, Edge.read. rewrite Hn. cbn. now intros [= <-].
Qed.

Lemma serve_missing_fields_witness :
  not_preflight (post untitled_body)
  /\ truthy (get "input_type" untitled_body) && truthy (get "title" untitled_body)
     = false
  /\ snd (Edge.serve (sample_edge_env None) (post untitled_body)) = []
  /\ Edge.http_status (fst (Edge.serve (sample_edge_env None)
                              (post untitled_body))) = 500%Z.
Proof.
  split; [reflexivity|]. split; [reflexivity|].
  destruct (serve_missing_fields (sample_edge_env None) (post untitled_body)
              untitled_body eq_refl eq_refl eq_refl) as (H1 & H2 & _).
  split; [exact H1|exact H2].
Defined.

Lemma prepare_malformed_identity (env : Edge.Env) (req : Edge.Request)
    (requestBody : JsVal) :
  Edge.json req = inl requestBody ->
  (truthy (get "user_id" requestBody) = true
   /\ validateUUID (ToString (get "user_id" requestBody)) = false)
  \/ (truthy (get "session_id" requestBody) = true
      /\ validateUUID (ToString (get "session_id" requestBody)) = false) ->
  aborts (eq []) (Edge.prepare env req).
Proof.
  intros Hj Hi. unfold Edge.prepare. rewrite Hj.
  destruct (Edge.createClient_throws env); [apply aborts_throw|].
  apply aborts_bind_r; [apply keeps_read|intros a].
  apply aborts_bind_r; [apply keeps_guard|intros b].
  apply aborts_bind_r; [apply keeps_sanitize|intros c].
  apply aborts_bind_r; [apply keeps_sanitize_if|intros d].
  apply aborts_bind_r; [apply keeps_sanitize_if|intros e].
  apply aborts_bind_r; [apply keeps_guard|intros f].
  apply aborts_bind_l. unfold Edge.resolve_user.
  destruct Hi as [[Hu Hv]|[Hu Hv]].
  - rewrite Hu, Hv. apply aborts_bind_l, aborts_guard.
  - apply aborts_bind_r; [apply keeps_guard|intros g].
    rewrite Hu, Hv. apply aborts_bind_l, aborts_guard.
Qed.

(** X16. A request that names a user or a session by something that is
    not a well-formed UUID is refused before anything is written: no guest
    is created, no session, no row; the answer is 500 with [success]
    false. *)
Theorem serve_malformed_identity (env : Edge.Env) (req : Edge.Request)
    (requestBody : JsVal) :
  not_preflight req ->
  Edge.json req = inl requestBody ->
  (truthy (get "user_id" requestBody) = true
   /\ validateUUID (ToString (get "user_id" requestBody)) = false)
  \/ (truthy (get "session_id" requestBody) = true
      /\ validateUUID (ToString (get "session_id" requestBody)) = false) ->
  snd (Edge.serve env req) = []
  /\ Edge.http_status (fst (Edge.serve env req)) = 500%Z
  /\ get "success" (Edge.body (fst (Edge.serve env req))) = JBool false.
Proof.
  intros Hm Hj Hi.
  destruct (serve_aborted env req Hm
              (prepare_malformed_identity env req requestBody Hj Hi))
    as (Ho & message & (H1 & H2 & _) & _).
  auto.
Qed.

Lemma serve_malformed_identity_witness :
  not_preflight (post TestComponent.submit_body)
  /\ truthy (get "user_id" TestComponent.submit_body) = true
  /\ validateUUID (ToString (get "user_id" TestComponent.submit_body)) = false
  /\ snd (Edge.serve (sample_edge_env (Some "key"%string))
            (post TestComponent.submit_body)) = [].
Proof.
  assert (Hv : validateUUID (ToString (get "user_id" TestComponent.submit_body))
               = false) by (vm_compute; reflexivity).
  split; [reflexivity|]. split; [reflexivity|]. split; [exact Hv|].
  exact (proj1 (serve_malformed_identity (sample_edge_env (Some "key"%string))
                  (post TestComponent.submit_body) TestComponent.submit_body
                  eq_refl eq_refl (or_introl (conj eq_refl Hv)))).
Defined.

(** X17. The request the test component sends, which names the user
    [test-user-id], is refused by the handler whatever the services
    answer: once the client is created the answer is 500 with the error
    [Invalid user ID format], and nothing is written or called. *)
Theorem test_request_refused (env : Edge.Env) :
  Edge.createClient_throws env = None ->
  let r := Edge.serve env (post TestComponent.submit_body) in
  snd r = [] /\ caught (fst r) (lit "Invalid user ID format").
Proof.
  intros Hc r. subst r. unfold Edge.serve. cbn [post Edge.method].
  change (str_eqb (lit "POST") (lit "OPTIONS")) with false. cbv iota.
  unfold Edge.handle, Edge.prepare. rewrite Hc. cbn [post Edge.json].
  vm_compute. repeat split.
Qed.

Lemma test_request_refused_witness :
  Edge.createClient_throws (sample_edge_env (Some "key"%string)) = None
  /\ get "error"
       (Edge.body (fst (Edge.serve (sample_edge_env (Some "key"%string))
                          (post TestComponent.submit_body))))
     = JStr (lit "Invalid user ID format").
Proof.
  split; [reflexivity|].
  destruct (test_request_refused (sample_edge_env (Some "key"%string))
              eq_refl) as (_ & _ & _ & H & _).
  exact H.
Defined.

Lemma submission_writes_elsewhere (l tail : list Edge.Effect) :
  Forall elsewhere l ->
  submission_writes (l ++ tail) = submission_writes tail
  /\ inserted_rows (l ++ tail) = inserted_rows tail
  /\ fetches (l ++ tail) = fetches tail.
Proof.
  induction 1 as [|e l He Hl IH]; [auto|].
  destruct e as [t v| |]; try contradiction.
  destruct He as [-> | ->]; exact IH.
Qed.

Ltac settle :=
  match goal with
  | |- _ /\ _ => split; settle
  | |- _ \/ _ => first [left; settle | right; settle]
  | |- _ = _ =>
      first [ assumption | reflexivity | congruence | vm_compute; reflexivity
            | match goal with
              | p : Edge.Prepared |- _ =>
                  destruct (Edge.sessionId p); vm_compute; reflexivity
              end ]
  | |- _ <> _ => congruence
  end.

(** From the insert on: what the handler writes, and what it answers. *)
Lemma store_outcome (env : Edge.Env) (p : Edge.Prepared) (s : Edge.St) :
  exists tail,
    Edge.ops (fst (Edge.store_and_solve env p s)) = Edge.ops s ++ tail
    /\ settled env (JStr (Edge.problemId p)) (submission_writes tail)
         (snd (Edge.store_and_solve env p s))
    /\ inserted_rows tail
       = [Edge.new_problem env (Edge.requestBody p) (Edge.problemId p)
            (Edge.userId p) (Edge.sessionId p) (Edge.sanitizedTitle p)
            (Edge.sanitizedTextContent p) (Edge.contentHash p)]
    /\ (List.length (fetches tail) <= 1)%nat.
Proof.
  unfold Edge.store_and_solve, Edge.ai_stage.
  destruct (Hook.present (Edge.GOOGLE_API_KEY env)) eqn:K; cbn [negb].
  all: unfold Edge.bind, Edge.guard, Edge.read, Edge.sanitize, Edge.perform,
    Edge.ret, Edge.throw.
  all: repeat (cbn [fst snd Edge.ops Edge.calls]; open_match);
    cbn [fst snd Edge.ops Edge.calls]; rewrite <- ?app_assoc; cbn [app];
    (eexists; split; [reflexivity|]).
  all: split; [|split; [reflexivity|cbn; lia]].
  all: unfold settled.
  all: settle.
Qed.

(** A request that is not a preflight: either [prepare] refuses it and
    nothing is written, or the handler goes on to store the row. *)
Lemma serve_cases (env : Edge.Env) (req : Edge.Request) :
  not_preflight req ->
  (exists message,
     snd (Edge.prepare env req start) = inr message
     /\ caught (fst (Edge.serve env req)) message
     /\ submission_writes (snd (Edge.serve env req)) = []
     /\ inserted_rows (snd (Edge.serve env req)) = []
     /\ fetches (snd (Edge.serve env req)) = [])
  \/ (exists s p,
        Edge.prepare env req start = (s, inl p)
        /\ match snd (Edge.store_and_solve env p s) with
           | inl r => fst (Edge.serve env req) = r
           | inr message => caught (fst (Edge.serve env req)) message
           end
        /\ settled env (JStr (Edge.problemId p))
             (submission_writes (snd (Edge.serve env req)))
             (snd (Edge.store_and_solve env p s))
        /\ inserted_rows (snd (Edge.serve env req))
           = [Edge.new_problem env (Edge.requestBody p) (Edge.problemId p)
                (Edge.userId p) (Edge.sessionId p) (Edge.sanitizedTitle p)
                (Edge.sanitizedTextContent p) (Edge.contentHash p)]
        /\ (List.length (fetches (snd (Edge.serve env req))) <= 1)%nat).
Proof.
  intros Hm. unfold Edge.serve. rewrite Hm.
  unfold Edge.handle, Edge.bind. fold start.
  destruct (Edge.prepare env req start) as [s [p|e]] eqn:Hp.
  - right. exists s, p. split; [reflexivity|].
    pose proof (prepare_ops env req s _ Hp) as He.
    destruct (store_outcome env p s) as (tail & Ho & Hs & Hi & Hf).
    destruct (submission_writes_elsewhere (Edge.ops s) tail He)
      as (W1 & W2 & W3).
    destruct (Edge.store_and_solve env p s) as [s' [r|e]];
      cbn [fst snd] in *; rewrite Ho, W1, W2, W3;
      (split; [|split; [exact Hs|split; [exact Hi|exact Hf]]]);
      [reflexivity|repeat split].
  - left. exists e. cbn [fst snd].
    pose proof (prepare_ops env req s _ Hp) as He.
    destruct (submission_writes_elsewhere (Edge.ops s) [] He)
      as (W1 & W2 & W3).
    rewrite app_nil_r in W1, W2, W3. rewrite W1, W2, W3.
    repeat split.
Qed.

(** X18. The handler's writes to the submissions table follow one course:
    none at all; or the insert of the row as [processing]; or that insert
    followed by a single update of the same row, to [error] or to
    [completed].  At most one row is inserted and the model is called at
    most once. *)
Theorem serve_lifecycle (env : Edge.Env) (req : Edge.Request) :
  let log := snd (Edge.serve env req) in
  (submission_writes log = []
   \/ exists i,
        submission_writes log = [wrote_processing i]
        \/ submission_writes log = [wrote_processing i; wrote_error i]
        \/ submission_writes log = [wrote_processing i; wrote_completed i])
  /\ (List.length (inserted_rows log) <= 1)%nat
  /\ (List.length (fetches log) <= 1)%nat.
Proof.
  destruct (str_eqb (Edge.method req) (lit "OPTIONS")) eqn:Hm.
  { unfold Edge.serve. rewrite Hm. cbn. auto. }
  destruct (serve_cases env req Hm)
    as [(message & _ & _ & W1 & W2 & W3)|(s & p & _ & _ & Hs & Hi & Hf)];
    cbv zeta.
  - rewrite W1, W2, W3. cbn. auto.
  - rewrite Hi. split; [|split; [cbn; lia|exact Hf]].
    right. exists (JStr (Edge.problemId p)). unfold settled in Hs.
    destruct (snd (Edge.store_and_solve env p s)) as [r|e].
    + destruct Hs as (_ & [(_ & _ & _ & H)|[(_ & _ & _ & H)|(_ & _ & _ & H)]]);
        auto.
    + destruct Hs as [H|[H _]]; auto.
Qed.

(** X19. What the handler answers agrees with what it wrote.  It answers
    200 with [success] true only after writing the row as [completed], 503
    only when the key is absent and after writing the row as [error]; every
    other answer is 500 with [success] false.  An answer that names a
    problem names the row that was written. *)
Theorem serve_response (env : Edge.Env) (req : Edge.Request) :
  not_preflight req ->
  let r := fst (Edge.serve env req) in
  let ws := submission_writes (snd (Edge.serve env req)) in
  (Edge.http_status r = 200%Z
   /\ get "success" (Edge.body r) = JBool true
   /\ get "status" (Edge.body r) = JStr (lit "completed")
   /\ ws = [wrote_processing (get "problemId" (Edge.body r));
            wrote_completed (get "problemId" (Edge.body r))])
  \/ (Edge.http_status r = 503%Z
      /\ get "success" (Edge.body r) = JBool false
      /\ Hook.present (Edge.GOOGLE_API_KEY env) = false
      /\ ws = [wrote_processing (get "problemId" (Edge.body r));
               wrote_error (get "problemId" (Edge.body r))])
  \/ (Edge.http_status r = 500%Z
      /\ get "success" (Edge.body r) = JBool false
      /\ (get "problemId" (Edge.body r) = JUndefined
          \/ ws = [wrote_processing (get "problemId" (Edge.body r));
                   wrote_error (get "problemId" (Edge.body r))])).
Proof.
  intros Hm.
  destruct (serve_cases env req Hm)
    as [(message & _ & (H1 & H2 & _ & _ & H3) & _)|(s & p & _ & Hr & Hs & _)];
    cbv zeta.
  - auto 6.
  - unfold settled in Hs.
    destruct (snd (Edge.store_and_solve env p s)) as [r|e].
    + rewrite Hr.
      destruct Hs as (Hi & [(A & B & C & D)|[(A & B & C & D)|(A & B & C & D)]]);
        rewrite Hi; auto 10.
    + destruct Hr as (H1 & H2 & _ & _ & H3). auto 6.
Qed.

Lemma serve_response_witness :
  not_preflight (post sample_body)
  /\ Edge.http_status
       (fst (Edge.serve (model_env (Some "key"%string)
                           (Edge.FetchResponds true 200
                              (inl (model_answer "4"))))
               (post sample_body))) = 200%Z
  /\ submission_writes
       (snd (Edge.serve (model_env (Some "key"%string)
                           (Edge.FetchResponds true 200
                              (inl (model_answer "4"))))
               (post sample_body)))
     = [wrote_processing
          (get "problemId"
             (Edge.body
                (fst (Edge.serve (model_env (Some "key"%string)
                                    (Edge.FetchResponds true 200
                                       (inl (model_answer "4"))))
                        (post sample_body)))));
        wrote_completed
          (get "problemId"
             (Edge.body
                (fst (Edge.serve (model_env (Some "key"%string)
                                    (Edge.FetchResponds true 200
                                       (inl (model_answer "4"))))
                        (post sample_body)))))].
Proof.
  split; [reflexivity|].
  destruct (serve_response
              (model_env (Some "key"%string)
                 (Edge.FetchResponds true 200 (inl (model_answer "4"))))
              (post sample_body) eq_refl)
    as [(H1 & _ & _ & H2)|[(H1 & _)|(H1 & _)]].
  - split; [exact H1|exact H2].
  - vm_compute in H1. discriminate H1.
  - vm_compute in H1. discriminate H1.
Defined.


(** X20. When the handler's [catch] answers, no write has marked the
    submission as failed: the row was never stored, or it is left as
    [processing], or the failed update was the one to [completed].  So a
    model call that rejects, or an answer that does not parse, leaves the
    row [processing]. *)
Theorem serve_caught_unrecorded (env : Edge.Env) (req : Edge.Request)
    (message : str) :
  not_preflight req ->
  caught (fst (Edge.serve env req)) message ->
  let ws := submission_writes (snd (Edge.serve env req)) in
  ws = []
  \/ exists i, ws = [wrote_processing i]
               \/ (ws = [wrote_processing i; wrote_completed i]
                   /\ Edge.completion_update_error env <> None).
Proof.
  intros Hm Hc.
  destruct (serve_cases env req Hm)
    as [(m & _ & _ & W & _)|(s & p & _ & Hr & Hs & _)]; cbv zeta.
  - now left.
  - right. exists (JStr (Edge.problemId p)). unfold settled in Hs.
    destruct (snd (Edge.store_and_solve env p s)) as [r|e].
    + destruct Hs as [Hi _]. rewrite <- Hr in Hi.
      destruct Hc as (_ & _ & _ & _ & Hn). rewrite Hn in Hi. discriminate Hi.
    + exact Hs.
Qed.

Lemma serve_caught_unrecorded_witness :
  not_preflight (post sample_body)
  /\ caught (fst (Edge.serve
                    (model_env (Some "key"%string)
                       (Edge.FetchRejects (lit "network")))
                    (post sample_body))) (lit "network")
  /\ exists i,
       submission_writes
         (snd (Edge.serve (model_env (Some "key"%string)
                             (Edge.FetchRejects (lit "network")))
                 (post sample_body)))
       = [wrote_processing i].
Proof.
  assert (Hc : caught (fst (Edge.serve
                              (model_env (Some "key"%string)
                                 (Edge.FetchRejects (lit "network")))
                              (post sample_body))) (lit "network"))
    by (repeat split; vm_compute; reflexivity).
  split; [reflexivity|]. split; [exact Hc|].
  destruct (serve_caught_unrecorded
              (model_env (Some "key"%string)
                 (Edge.FetchRejects (lit "network")))
              (post sample_body) (lit "network") eq_refl Hc)
    as [H|(i & [H|[_ H]])].
  - vm_compute in H. discriminate H.
  - exists i. exact H.
  - destruct (H eq_refl).
Defined.

(** What the handler does once the row is stored and the model answers
    with an HTTP error. *)
Lemma store_model_refuses (env : Edge.Env) (p : Edge.Prepared) (s : Edge.St)
    (key : str) (status : Z) (geminiData : JsVal + str) :
  Edge.db_error (Edge.problem_insert env) = None ->
  is_nullish (Edge.data (Edge.problem_insert env)) = false ->
  Edge.GOOGLE_API_KEY env = Some key -> Hook.non_empty key = true ->
  Edge.gemini env = Edge.FetchResponds false status geminiData ->
  Edge.store_and_solve env p s =
  ({| Edge.ops :=
        Edge.ops s ++
        [Edge.Insert "problem_submissions"
           (Edge.new_problem env (Edge.requestBody p) (Edge.problemId p)
              (Edge.userId p) (Edge.sessionId p) (Edge.sanitizedTitle p)
              (Edge.sanitizedTextContent p) (Edge.contentHash p));
         Edge.Insert "audit_logs"
           (Edge.created_audit (Edge.requestBody p) (Edge.problemId p)
              (Edge.userId p) (Edge.sanitizedTitle p));
         Edge.Fetch key
           (Edge.prompt_of (Edge.contentHash p) (Edge.sanitizedTitle p)
              (Edge.sanitizedDescription p) (Edge.sanitizedTextContent p));
         Edge.Update "problem_submissions"
           (Edge.error_update (Edge.data (Edge.problem_insert env))
              (lit "AI processing error: " ++ toString_radix 10 status)
              (Edge.now env 4))
           (JStr (Edge.problemId p))];
      Edge.calls := Edge.calls s |},
   inl (Edge.failure_response 500
          (lit "AI processing error: " ++ toString_radix 10 status)
          (Edge.problemId p))).
Proof.
  intros Hi Hd Hk Hn Hg. unfold Edge.store_and_solve, Edge.ai_stage.
  rewrite Hi, Hk, Hg. cbn [Hook.present]. rewrite Hn.
  unfold Edge.read. rewrite Hd.
  unfold Edge.bind, Edge.perform, Edge.ret.
  cbn [fst snd Edge.ops Edge.calls negb]. rewrite <- !app_assoc. reflexivity.
Qed.

(** X21. When the row is stored and the model answers with an HTTP error,
    its text once read, the handler has called the model once, with the
    key and the prompt made from the sanitized fields, marks the row as
    [error] with a message that carries the HTTP status, and answers 500
    with [success] false, that message and the problem identifier. *)
Theorem model_http_error (env : Edge.Env) (req : Edge.Request) (s : Edge.St)
    (p : Edge.Prepared) (key : str) (status : Z) (geminiData : JsVal + str) :
  not_preflight req ->
  Edge.prepare env req start = (s, inl p) ->
  Edge.db_error (Edge.problem_insert env) = None ->
  is_nullish (Edge.data (Edge.problem_insert env)) = false ->
  Edge.GOOGLE_API_KEY env = Some key -> Hook.non_empty key = true ->
  Edge.gemini env = Edge.FetchResponds false status geminiData ->
  let message := lit "AI processing error: " ++ toString_radix 10 status in
  Edge.http_status (fst (Edge.serve env req)) = 500%Z
  /\ get "success" (Edge.body (fst (Edge.serve env req))) = JBool false
  /\ get "error" (Edge.body (fst (Edge.serve env req))) = JStr message
  /\ get "problemId" (Edge.body (fst (Edge.serve env req)))
     = JStr (Edge.problemId p)
  /\ (exists before,
        snd (Edge.serve env req)
        = before ++
          [Edge.Fetch key
             (Edge.prompt_of (Edge.contentHash p) (Edge.sanitizedTitle p)
                (Edge.sanitizedDescription p) (Edge.sanitizedTextContent p));
           Edge.Update "problem_submissions"
             (Edge.error_update (Edge.data (Edge.problem_insert env)) message
                (Edge.now env 4))
             (JStr (Edge.problemId p))])
  /\ get "status"
       (Edge.error_update (Edge.data (Edge.problem_insert env)) message
          (Edge.now env 4))
     = JStr (lit "error")
  /\ get "error_message"
       (Edge.error_update (Edge.data (Edge.problem_insert env)) message
          (Edge.now env 4))
     = JStr message.
Proof.
  intros Hm Hp Hi Hd Hk Hn Hg message.
  assert (E : Edge.serve env req
              = (Edge.failure_response 500 message (Edge.problemId p),
                 Edge.ops (fst (Edge.store_and_solve env p s)))).
  { unfold Edge.serve. rewrite Hm. fold start. unfold Edge.handle, Edge.bind.
    rewrite Hp, (store_model_refuses env p s key status geminiData Hi Hd Hk Hn Hg).
    reflexivity. }
  rewrite E, (store_model_refuses env p s key status geminiData Hi Hd Hk Hn Hg).
  cbn [fst snd Edge.ops].
  split; [reflexivity|]. split; [reflexivity|]. split; [reflexivity|].
  split; [reflexivity|]. split; [|split; reflexivity].
  match goal with
  | |- exists _, ?l ++ [?a; ?b; ?c; ?d] = _ => exists (l ++ [a; b])
  end.
  rewrite <- app_assoc. reflexivity.
Qed.

Lemma model_http_error_witness :
  not_preflight (post sample_body)
  /\ Hook.non_empty (lit "key") = true
  /\ get "error"
       (Edge.body
          (fst (Edge.serve (model_env (Some "key"%string)
                              (Edge.FetchResponds false 429 (inr [])))
                  (post sample_body))))
     = JStr (lit "AI processing error: 429").
Proof.
  split; [reflexivity|]. split; [reflexivity|].
  destruct (Edge.prepare (model_env (Some "key"%string)
                            (Edge.FetchResponds false 429 (inr [])))
              (post sample_body) start) as [s [p|e]] eqn:Hp.
  - exact (proj1 (proj2 (proj2
             (model_http_error
                (model_env (Some "key"%string)
                   (Edge.FetchResponds false 429 (inr [])))
                (post sample_body) s p (lit "key") 429 (inr [])
                eq_refl Hp eq_refl eq_refl eq_refl eq_refl eq_refl)))).
  - vm_compute in Hp. discriminate Hp.
Defined.

Lemma no_user_more (t : string) (row : JsVal) (l : list Edge.Effect) :
  t <> "users"%string ->
  Forall no_user_insert l -> Forall no_user_insert (l ++ [Edge.Insert t row]).
Proof.
  intros Ht Hl. apply Forall_app. split; [exact Hl|].
  apply Forall_cons; [exact Ht|apply Forall_nil].
Qed.

Lemma no_user_other (e : Edge.Effect) (l : list Edge.Effect) :
  no_user_insert e ->
  Forall no_user_insert l -> Forall no_user_insert (l ++ [e]).
Proof.
  intros He Hl. apply Forall_app. split; [exact Hl|].
  apply Forall_cons; [exact He|apply Forall_nil].
Qed.

Ltac no_user_step :=
  first
    [ keeps_step
    | match goal with
      | |- keeps _ (if ?b then _ else _) => destruct b
      | |- keeps _ (let (_, _) := ?x in _) => destruct x
      end
    | apply keeps_perform; intros l Hl; apply no_user_other;
      [first [exact I | cbn; discriminate]|exact Hl] ].

Lemma store_no_user (env : Edge.Env) (p : Edge.Prepared) :
  keeps (Forall no_user_insert) (Edge.store_and_solve env p).
Proof.
  unfold Edge.store_and_solve, Edge.ai_stage. repeat no_user_step.
Qed.

(** X22. A request that names its user never makes the handler create
    one: whatever else happens, the log holds no insert into the users
    table. *)
Theorem serve_known_user (env : Edge.Env) (req : Edge.Request)
    (requestBody : JsVal) :
  Edge.json req = inl requestBody ->
  truthy (get "user_id" requestBody) = true ->
  Forall no_user_insert (snd (Edge.serve env req)).
Proof.
  intros Hj Hu. unfold Edge.serve.
  destruct (str_eqb _ _); [apply Forall_nil|].
  assert (K : keeps (Forall no_user_insert) (Edge.handle env req)).
  { unfold Edge.handle. apply keeps_bind; [|intros p; apply store_no_user].
    unfold Edge.prepare. rewrite Hj.
    destruct (Edge.createClient_throws env); [apply keeps_throw|].
    do 6 (apply keeps_bind; [no_user_step|intros ?]).
    apply keeps_bind.
    - unfold Edge.resolve_user. rewrite Hu. cbn [negb]. repeat no_user_step.
    - intros uid. unfold Edge.resolve_session. repeat no_user_step. }
  specialize (K {| Edge.ops := []; Edge.calls := 0 |} (Forall_nil _)).
  destruct (Edge.handle env req _) as [s [r|e]]; exact K.
Qed.

Lemma serve_known_user_witness :
  truthy (get "user_id" member_body) = true
  /\ Forall no_user_insert
       (snd (Edge.serve (model_env None (Edge.FetchRejects []))
               (post member_body))).
Proof.
  split; [reflexivity|].
  exact (serve_known_user (model_env None (Edge.FetchRejects []))
           (post member_body) member_body eq_refl eq_refl).
Defined.

Lemma scan_line_range (env : Edge.Env) (acc : str * str) (line : str) :
  In (fst acc) subjects -> In (snd acc) difficulties ->
  In (fst (Edge.scan_line env acc line)) subjects
  /\ In (snd (Edge.scan_line env acc line)) difficulties.
Proof.
  intros Hs Hd. unfold Edge.scan_line. cbn [fst snd]. split.
  - repeat match goal with
           | |- context [if ?b then _ else _] => destruct b
           end;
      first [exact Hs | cbn; tauto].
  - repeat match goal with
           | |- context [if ?b then _ else _] => destruct b
           end;
      first [exact Hd | cbn; tauto].
Qed.

Lemma scan_lines_range (env : Edge.Env) (lines : list str) :
  forall acc,
    In (fst acc) subjects -> In (snd acc) difficulties ->
    In (fst (fold_left (Edge.scan_line env) lines acc)) subjects
    /\ In (snd (fold_left (Edge.scan_line env) lines acc)) difficulties.
Proof.
  induction lines as [|line lines IH]; intros acc Hs Hd; cbn [fold_left].
  - auto.
  - destruct (scan_line_range env acc line Hs Hd) as [Hs' Hd'].
    now apply IH.
Qed.

Lemma scan_values (env : Edge.Env) (s : str) :
  In (fst (Edge.scan env s)) subjects /\ In (snd (Edge.scan env s)) difficulties.
Proof. apply scan_lines_range; cbn; tauto. Qed.

(** X23. Whatever the model answers and however lines are lower-cased,
    the keyword scan yields one of five subjects and one of three
    difficulties, and the tags made from them are two fixed ones and the
    lower-cased subject. *)
Theorem scan_range (env : Edge.Env) (sanitizedSolution : str) :
  In (fst (Edge.scan env sanitizedSolution)) subjects
  /\ In (snd (Edge.scan env sanitizedSolution)) difficulties
  /\ Edge.tags_of env (fst (Edge.scan env sanitizedSolution))
     = JArr [JStr (lit "learning"); JStr (lit "education");
             JStr (Edge.toLowerCase env (fst (Edge.scan env sanitizedSolution)))]
  /\ ((forall line, In line (split 10 sanitizedSolution) ->
         includes (Edge.toLowerCase env line) (lit "subject") = false
         /\ includes (Edge.toLowerCase env line) (lit "area") = false
         /\ includes (Edge.toLowerCase env line) (lit "difficulty") = false) ->
      Edge.scan env sanitizedSolution = (lit "General", lit "medium")).
Proof.
  destruct (scan_values env sanitizedSolution) as [Hs Hd].
  split; [exact Hs|]. split; [exact Hd|]. split; [reflexivity|].
  unfold Edge.scan. generalize (split 10 sanitizedSolution). intros lines.
  induction lines as [|line lines IH]; intros H; [reflexivity|].
  cbn [fold_left]. destruct (H line (or_introl eq_refl)) as (H1 & H2 & H3).
  unfold Edge.scan_line at 2. rewrite H1, H2, H3. cbn [orb fst snd].
  apply IH. intros l Hl. apply H. now right.
Qed.

Section Ensures.

Lemma ensures_ret {A : Type} (a : A) (Q : A -> Prop) :
  Q a -> ensures (Edge.ret a) Q.
Proof. intros H s s' b [= _ <-]. exact H. Qed.

Lemma ensures_throw {A : Type} (message : str) (Q : A -> Prop) :
  ensures (Edge.throw message) Q.
Proof. intros s s' b H. discriminate H. Qed.

Lemma ensures_bind {A B : Type} (m : Edge.M A) (k : A -> Edge.M B)
    (R : A -> Prop) (Q : B -> Prop) :
  ensures m R -> (forall a, R a -> ensures (k a) Q) ->
  ensures (Edge.bind m k) Q.
Proof.
  intros Hm Hk s s' b. unfold Edge.bind.
  destruct (m s) as [s1 [a|e]] eqn:E; [|discriminate].
  apply (Hk a (Hm s s1 a E)).
Qed.

Lemma ensures_guard (b : bool) (message : str) :
  ensures (Edge.guard b message) (fun _ => b = true).
Proof. destruct b; intros s s' a H; [reflexivity|discriminate H]. Qed.

Lemma ensures_read (k : string) (v : JsVal) :
  ensures (Edge.read k v) (fun _ => True).
Proof. intros s s' a _. exact I. Qed.

Lemma ensures_sanitize (v : JsVal) :
  ensures (Edge.sanitize v) (fun r => exists t, v = JStr t /\ r = sanitizeInput t).
Proof.
  destruct v as [| |b|z|t|l|fs]; intros st st' a H; try discriminate H.
  injection H as _ <-. eauto.
Qed.

Lemma ensures_sanitize_if (v : JsVal) :
  ensures (Edge.sanitize_if_truthy v)
    (fun r => match r with
              | Some t => trimmed t /\ truthy v = true
              | None => truthy v = false
              end).
Proof.
  unfold Edge.sanitize_if_truthy. destruct (truthy v) eqn:T.
  - apply (ensures_bind _ _ _ _ (ensures_sanitize v)).
    intros a (t & _ & ->). apply ensures_ret.
    split; [apply sanitizeInput_trimmed|reflexivity].
  - now apply ensures_ret.
Qed.

Lemma ensures_fresh (env : Edge.Env) :
  unit_random env ->
  ensures (Edge.freshUUID env) (fun u => isValidUUID u = true).
Proof.
  intros Hr s s' u. unfold Edge.freshUUID.
  pose proof (generateUUID_lowercase (Edge.random env) Hr (Edge.calls s)) as L.
  destruct (generateUUID (Edge.random env) (Edge.calls s)) as [v c].
  intros [= _ <-]. apply uuid_match, lowercase_canonical. exact L.
Qed.

End Ensures.

Lemma resolve_user_ensures (env : Edge.Env) (requestBody : JsVal) :
  unit_random env ->
  ensures (Edge.resolve_user env requestBody)
    (fun userId =>
       validateUUID (ToString userId) = true /\ truthy userId = true
       /\ (truthy (get "user_id" requestBody) = true ->
           userId = get "user_id" requestBody)
       /\ (truthy (get "user_id" requestBody) = false ->
           exists u, userId = JStr u /\ validateUUID u = true)).
Proof.
  intros Hr. unfold Edge.resolve_user.
  apply (ensures_bind _ _ _ _ (ensures_guard _ _)). intros _ G.
  apply (ensures_bind _ _ _ _ (ensures_guard _ _)). intros _ _.
  destruct (truthy (get "user_id" requestBody)) eqn:T; cbn [negb andb] in *.
  - apply ensures_ret. apply negb_true_iff, negb_false_iff in G.
    repeat split; auto. discriminate.
  - apply (ensures_bind _ _ _ _ (ensures_fresh env Hr)). intros u Hu.
    apply (ensures_bind _ _ (fun _ => True)); [intros s s' a _; exact I|].
    intros _ _. apply ensures_ret. split; [exact Hu|].
    split; [destruct u; [discriminate Hu|reflexivity]|].
    split; [discriminate|]. intros _. exists u. split; [reflexivity|exact Hu].
Qed.

Lemma prepare_establishes (env : Edge.Env) (req : Edge.Request) :
  unit_random env -> ensures (Edge.prepare env req) (established req).
Proof.
  intros Hr. unfold Edge.prepare.
  destruct (Edge.createClient_throws env); [apply ensures_throw|].
  destruct (Edge.json req) as [requestBody|message] eqn:Hj;
    [|apply ensures_throw].
  apply (ensures_bind _ _ _ _ (ensures_read _ _)). intros _ _.
  apply (ensures_bind _ _ _ _ (ensures_guard _ _)). intros _ G.
  apply (ensures_bind _ _ _ _ (ensures_sanitize _)). intros title (t & Ht & ->).
  apply (ensures_bind _ _ (fun _ => True)); [intros s s' a _; exact I|].
  intros description _.
  apply (ensures_bind _ _ _ _ (ensures_sanitize_if _)). intros content Hc.
  apply (ensures_bind _ _ _ _ (ensures_guard _ _)). intros _ Gt.
  apply (ensures_bind _ _ _ _ (resolve_user_ensures env requestBody Hr)).
  intros userId (Hv & Hu & Hi & Hg).
  apply (ensures_bind _ _ (fun _ => True)); [intros s s' a _; exact I|].
  intros sessionId _.
  apply (ensures_bind _ _ _ _ (ensures_fresh env Hr)). intros problemId Hp.
  apply ensures_ret. unfold established.
  cbn [Edge.requestBody Edge.problemId Edge.userId Edge.sanitizedTitle
       Edge.sanitizedTextContent].
  apply andb_true_iff in G. destruct G as [G1 G2].
  split; [exact Hj|]. split; [exact Hp|]. split; [exact Hv|].
  split; [exact Hu|]. split; [exact Hi|]. split; [now exists t|].
  split; [exact G1|]. split.
  - intros Hx. rewrite Hx in Gt. cbn [andb] in Gt.
    now apply negb_true_iff, negb_false_iff in Gt.
  - split; [intros c ->; exact (proj1 Hc)|exact Hg].
Qed.

(** X24. With random numbers of the unit interval, a row the handler
    inserts into the submissions table is well formed whatever the request
    was.  Its identifier is a string, a well-formed UUID made by the
    handler.  Its user is a truthy value whose string form is a well-formed
    UUID: when the request names no user it is a string, a well-formed UUID
    minted by the handler; when the request names one it is the request's
    own value, stored as it came, which need not be a string (an array of
    one identifier passes the check and is stored as an array).  Its title
    is the sanitized title of the request, without white space at either
    end, its status [processing]; a row of input type [text] holds a text
    content. *)
Theorem stored_row_well_formed (env : Edge.Env) (req : Edge.Request)
    (row : JsVal) :
  unit_random env ->
  In row (inserted_rows (snd (Edge.serve env req))) ->
  isValidUUID (ToString (get "id" row)) = true
  /\ validateUUID (ToString (get "user_id" row)) = true
  /\ (forall requestBody,
        Edge.json req = inl requestBody ->
        (truthy (get "user_id" requestBody) = true ->
         get "user_id" row = get "user_id" requestBody)
        /\ exists t, get "title" requestBody = JStr t
                     /\ get "title" row = JStr (sanitizeInput t))
  /\ (exists t, get "title" row = JStr t /\ trimmed t)
  /\ get "status" row = JStr (lit "processing")
  /\ (is_str (get "input_type" row) (lit "text") = true ->
      exists t, get "text_content" row = JStr t /\ t <> [] /\ trimmed t)
  /\ (exists pid, get "id" row = JStr pid /\ isValidUUID pid = true)
  /\ truthy (get "user_id" row) = true
  /\ (forall requestBody,
        Edge.json req = inl requestBody ->
        (truthy (get "user_id" requestBody) = false ->
         exists u, get "user_id" row = JStr u /\ validateUUID u = true)
        /\ (forall u, get "user_id" requestBody = JStr u -> u <> [] ->
            get "user_id" row = JStr u /\ validateUUID u = true))
  /\ List.map (get "user_id")
       (inserted_rows
          (snd (Edge.serve (model_env None (Edge.FetchRejects []))
                  (post listed_user_body))))
     = [JArr [JStr sample_uuid]].
Proof.
  intros Hr Hin.
  destruct (str_eqb (Edge.method req) (lit "OPTIONS")) eqn:Hm.
  { revert Hin. unfold Edge.serve. rewrite Hm. intros []. }
  destruct (serve_cases env req Hm)
    as [(m & _ & _ & _ & W & _)|(s & p & Hp & _ & _ & Hi & _)].
  { rewrite W in Hin. destruct Hin. }
  rewrite Hi in Hin. destruct Hin as [<-|[]].
  destruct (prepare_establishes env req Hr start s p Hp)
    as (Hj & Hid & Hu & Hty & Hn & (t & Ht & Hs) & _ & Hx & Hc & Hg).
  change (get "id" (Edge.new_problem env (Edge.requestBody p)
                      (Edge.problemId p) (Edge.userId p) (Edge.sessionId p)
                      (Edge.sanitizedTitle p) (Edge.sanitizedTextContent p)
                      (Edge.contentHash p)))
    with (JStr (Edge.problemId p)).
  change (get "user_id" (Edge.new_problem env (Edge.requestBody p)
                      (Edge.problemId p) (Edge.userId p) (Edge.sessionId p)
                      (Edge.sanitizedTitle p) (Edge.sanitizedTextContent p)
                      (Edge.contentHash p)))
    with (Edge.userId p).
  change (get "title" (Edge.new_problem env (Edge.requestBody p)
                      (Edge.problemId p) (Edge.userId p) (Edge.sessionId p)
                      (Edge.sanitizedTitle p) (Edge.sanitizedTextContent p)
                      (Edge.contentHash p)))
    with (JStr (Edge.sanitizedTitle p)).
  change (get "status" (Edge.new_problem env (Edge.requestBody p)
                      (Edge.problemId p) (Edge.userId p) (Edge.sessionId p)
                      (Edge.sanitizedTitle p) (Edge.sanitizedTextContent p)
                      (Edge.contentHash p)))
    with (JStr (lit "processing")).
  change (get "input_type" (Edge.new_problem env (Edge.requestBody p)
                      (Edge.problemId p) (Edge.userId p) (Edge.sessionId p)
                      (Edge.sanitizedTitle p) (Edge.sanitizedTextContent p)
                      (Edge.contentHash p)))
    with (get "input_type" (Edge.requestBody p)).
  change (get "text_content" (Edge.new_problem env (Edge.requestBody p)
                      (Edge.problemId p) (Edge.userId p) (Edge.sessionId p)
                      (Edge.sanitizedTitle p) (Edge.sanitizedTextContent p)
                      (Edge.contentHash p)))
    with (jor (Hook.opt_val (Edge.sanitizedTextContent p)) JNull).
  split; [exact Hid|]. split; [exact Hu|].
  split; [|split; [|split; [|split; [|split; [|split; [|split]]]]]].
  - intros requestBody Hb. rewrite Hj in Hb. injection Hb as <-.
    split; [exact Hn|]. exists t. split; [exact Ht|now rewrite Hs].
  - exists (Edge.sanitizedTitle p). split; [reflexivity|].
    rewrite Hs. apply sanitizeInput_trimmed.
  - reflexivity.
  - intros Hy. specialize (Hx Hy).
    destruct (Edge.sanitizedTextContent p) as [c|]; [|discriminate Hx].
    exists c. cbn [Hook.present] in Hx.
    split; [|split; [|now apply Hc]].
    + unfold jor. cbn [Hook.opt_val truthy]. destruct c; [discriminate Hx|].
      reflexivity.
    + intros ->. discriminate Hx.
  - exists (Edge.problemId p). split; [reflexivity|exact Hid].
  - exact Hty.
  - intros requestBody Hb. rewrite Hj in Hb. injection Hb as <-.
    split; [exact Hg|]. intros u Eu Hne.
    assert (Tu : truthy (get "user_id" (Edge.requestBody p)) = true)
      by (rewrite Eu; destruct u; [congruence|reflexivity]).
    pose proof (Hn Tu) as Ev. rewrite Eu in Ev. split; [exact Ev|].
    rewrite Ev in Hu. exact Hu.
  - vm_compute. reflexivity.
Qed.

Lemma stored_row_well_formed_witness :
  unit_random (model_env None (Edge.FetchRejects []))
  /\ (exists row,
        In row (inserted_rows
                  (snd (Edge.serve (model_env None (Edge.FetchRejects []))
                          (post sample_body))))
        /\ isValidUUID (ToString (get "id" row)) = true
        /\ exists u, get "user_id" row = JStr u /\ validateUUID u = true).
Proof.
  assert (Hr : unit_random (model_env None (Edge.FetchRejects [])))
    by (intros n; split; [discriminate|reflexivity]).
  split; [exact Hr|].
  assert (Hin : exists row,
             In row (inserted_rows
                       (snd (Edge.serve (model_env None (Edge.FetchRejects []))
                               (post sample_body)))))
    by (eexists; vm_compute; left; reflexivity).
  destruct Hin as [row Hin]. exists row. split; [exact Hin|].
  destruct (stored_row_well_formed (model_env None (Edge.FetchRejects []))
              (post sample_body) row Hr Hin)
    as (Hid & _ & _ & _ & _ & _ & _ & _ & Hg & _).
  split; [exact Hid|].
  exact (proj1 (Hg sample_body eq_refl) eq_refl).
Defined.

(** The handler's way to an answer of 200. *)
Lemma store_succeeds (env : Edge.Env) (p : Edge.Prepared) (s : Edge.St)
    (r : Edge.Response) :
  snd (Edge.store_and_solve env p s) = inl r ->
  Edge.http_status r = 200%Z ->
  exists geminiData sol,
    r = Edge.success_response env (Edge.problemId p) (Edge.sessionId p) sol
          (fst (Edge.scan env sol)) (snd (Edge.scan env sol))
    /\ exists middle last,
         Edge.ops (fst (Edge.store_and_solve env p s))
         = Edge.ops s ++
           Edge.Insert "problem_submissions"
             (Edge.new_problem env (Edge.requestBody p) (Edge.problemId p)
                (Edge.userId p) (Edge.sessionId p) (Edge.sanitizedTitle p)
                (Edge.sanitizedTextContent p) (Edge.contentHash p))
           :: Edge.Insert "audit_logs" middle
           :: Edge.Fetch (match Edge.GOOGLE_API_KEY env with
                          | Some k => k
                          | None => []
                          end)
                (Edge.prompt_of (Edge.contentHash p) (Edge.sanitizedTitle p)
                   (Edge.sanitizedDescription p) (Edge.sanitizedTextContent p))
           :: Edge.Update "problem_submissions"
                (Edge.completed_update env (Edge.data (Edge.problem_insert env))
                   geminiData sol (fst (Edge.scan env sol))
                   (snd (Edge.scan env sol)))
                (JStr (Edge.problemId p))
           :: Edge.Update "learning_sessions"
                (JObj [("total_problems"%string, JNum 1);
                       ("subjects_covered"%string,
                        JArr [JStr (fst (Edge.scan env sol))])])
                (Edge.sessionId p)
           :: [Edge.Insert "audit_logs" last].
Proof.
  unfold Edge.store_and_solve, Edge.ai_stage.
  unfold Edge.bind, Edge.guard, Edge.read, Edge.sanitize, Edge.perform,
    Edge.ret, Edge.throw.
  repeat (cbn [fst snd Edge.ops Edge.calls]; open_match);
    cbn [fst snd Edge.ops Edge.calls]; intros H; try discriminate H;
    injection H as <-; intros H; try discriminate H.
  all: match goal with
       | E : Edge.scan _ ?sol = (_, _),
         G : Edge.gemini _ = Edge.FetchResponds true _ (inl ?g) |- _ =>
           exists g, sol; rewrite E; cbn [fst snd]
       end.
  all: split; [reflexivity|].
  all: rewrite <- !app_assoc; cbn [app]; eauto.
Qed.

(** X25. What the handler reports on success is what a polling attempt
    would read back.  After an answer of 200 the stored row, once the
    update is applied to the inserted row, is turned by the hook into a
    result with the identifier, the status [completed], the subject, the
    difficulty and the tags of the response, no error message, and the
    solution of the response, left out when it is empty. *)
Theorem completed_row_read_back (env : Edge.Env) (req : Edge.Request) :
  not_preflight req ->
  Edge.http_status (fst (Edge.serve env req)) = 200%Z ->
  exists first_state row,
    Edge.row_states [] (snd (Edge.serve env req)) = [first_state; row]
    /\ Hook.id (Hook.newResult (JObj row))
       = get "problemId" (Edge.body (fst (Edge.serve env req)))
    /\ Hook.status (Hook.newResult (JObj row)) = JStr (lit "completed")
    /\ Hook.solution (Hook.newResult (JObj row))
       = jor (get "solution" (Edge.body (fst (Edge.serve env req)))) JUndefined
    /\ Hook.explanation (Hook.newResult (JObj row))
       = Hook.solution (Hook.newResult (JObj row))
    /\ Hook.subject (Hook.newResult (JObj row))
       = get "subject" (Edge.body (fst (Edge.serve env req)))
    /\ Hook.difficulty (Hook.newResult (JObj row))
       = get "difficulty" (Edge.body (fst (Edge.serve env req)))
    /\ Hook.tags (Hook.newResult (JObj row))
       = get "tags" (Edge.body (fst (Edge.serve env req)))
    /\ Hook.errorMessage (Hook.newResult (JObj row)) = JUndefined.
Proof.
  intros Hm H2.
  destruct (serve_cases env req Hm)
    as [(m & _ & (H5 & _) & _)|(s & p & Hp & Hr & _)].
  { rewrite H5 in H2. discriminate H2. }
  destruct (snd (Edge.store_and_solve env p s)) as [r|e] eqn:Hs.
  2:{ destruct Hr as (H5 & _). rewrite H5 in H2. discriminate H2. }
  rewrite Hr in *.
  destruct (store_succeeds env p s r Hs H2)
    as (geminiData & sol & -> & middle & final & Ho).
  assert (E : snd (Edge.serve env req)
              = Edge.ops (fst (Edge.store_and_solve env p s))).
  { unfold Edge.serve. rewrite Hm. unfold Edge.handle, Edge.bind.
    fold start. rewrite Hp.
    destruct (Edge.store_and_solve env p s) as [s' [r'|e']]; reflexivity. }
  rewrite E, Ho, (row_states_elsewhere _ _ _ (prepare_ops _ _ _ _ Hp)).
  destruct (scan_values env sol) as [Hsub Hdif].
  revert Hsub Hdif.
  generalize (fst (Edge.scan env sol)), (snd (Edge.scan env sol)).
  intros subject difficulty Hsub Hdif.
  unfold Edge.new_problem, Edge.completed_update.
  cbn [Edge.row_states].
  eexists. eexists. split; [reflexivity|].
  generalize (Edge.data (Edge.problem_insert env)). intros problemData.
  generalize (Edge.sanitizedTitle p), (Edge.sanitizedTextContent p),
    (Edge.contentHash p), (Edge.userId p), (Edge.problemId p),
    (Edge.requestBody p).
  intros title content hash userId problemId requestBody.
  clear Hs Ho E Hr H2.
  unfold subjects, difficulties in *. cbn [In] in Hsub, Hdif.
  destruct (Edge.sessionId p);
    repeat (destruct Hsub as [<-|Hsub]; [|]); try destruct Hsub;
    repeat (destruct Hdif as [<-|Hdif]; [|]); try destruct Hdif;
    repeat split; vm_compute; reflexivity.
Qed.

Lemma completed_row_read_back_witness :
  not_preflight (post sample_body)
  /\ Edge.http_status
       (fst (Edge.serve (model_env (Some "key"%string)
                           (Edge.FetchResponds true 200
                              (inl (model_answer "4"))))
               (post sample_body))) = 200%Z
  /\ exists first_state row,
       Edge.row_states []
         (snd (Edge.serve (model_env (Some "key"%string)
                             (Edge.FetchResponds true 200
                                (inl (model_answer "4"))))
                 (post sample_body)))
       = [first_state; row]
       /\ Hook.solution (Hook.newResult (JObj row)) = JStr (lit "4").
Proof.
  assert (H : Edge.http_status
                (fst (Edge.serve (model_env (Some "key"%string)
                                    (Edge.FetchResponds true 200
                                       (inl (model_answer "4"))))
                        (post sample_body))) = 200%Z)
    by (vm_compute; reflexivity).
  split; [reflexivity|]. split; [exact H|].
  destruct (completed_row_read_back
              (model_env (Some "key"%string)
                 (Edge.FetchResponds true 200 (inl (model_answer "4"))))
              (post sample_body) eq_refl H)
    as (first_state & row & H1 & _ & _ & H2 & _).
  exists first_state, row. split; [exact H1|].
  rewrite H2. vm_compute. reflexivity.
Defined.

(** X30. The two ends agree on success.  When the handler answers 200
    and the hook receives that body as the response of its call, the hook
    resolves to the identifier the handler made, a well-formed UUID, shows
    a result that is [completed] with the handler's solution, sets no
    error and starts no polling. *)
Theorem handler_success_at_hook (env : Hook.Env) (auth : Hook.Auth)
    (data : Hook.ProblemSubmissionData) (w : Hook.World)
    (session : option Hook.Session) (userId : JsVal)
    (headers : list (string * str)) (henv : Edge.Env) (req : Edge.Request) :
  valid_input data ->
  Hook.submit_session env = Hook.SessionIs session false ->
  Hook.resolve_identity auth session = inl (userId, headers) ->
  unit_random henv -> not_preflight req ->
  Edge.http_status (fst (Edge.serve henv req)) = 200%Z ->
  Hook.submit_reply env
  = Hook.InvokeReturns (Edge.body (fst (Edge.serve henv req))) None ->
  let r := Hook.submitProblem env auth data w in
  let response := Edge.body (fst (Edge.serve henv req)) in
  fst r = get "problemId" response
  /\ isValidUUID (ToString (fst r)) = true
  /\ Hook.timers (snd r) = Hook.timers w
  /\ delays (Hook.effects (snd r)) = delays (Hook.effects w)
  /\ Hook.error (Hook.hook (snd r)) = JNull
  /\ Hook.isSubmitting (Hook.hook (snd r)) = false
  /\ exists result,
       Hook.result (Hook.hook (snd r)) = Some result
       /\ Hook.id result = fst r
       /\ Hook.status result = JStr (lit "completed")
       /\ Hook.solution result = get "solution" response.
Proof.
  intros Hd Hs Hi Hr Hm H2 Hy.
  destruct (serve_cases henv req Hm)
    as [(m & _ & (H5 & _) & _)|(s & p & Hp & Hq & _)].
  { rewrite H5 in H2. discriminate H2. }
  destruct (snd (Edge.store_and_solve henv p s)) as [r|e] eqn:Ho.
  2:{ destruct Hq as (H5 & _). rewrite H5 in H2. discriminate H2. }
  rewrite Hq in *.
  destruct (store_succeeds henv p s r Ho H2) as (geminiData & sol & -> & _).
  destruct (prepare_establishes henv req Hr start s p Hp) as (_ & Hv & _).
  cbv zeta. rewrite (submission_validated env auth data w Hd).
  unfold Hook.submit_try. rewrite Hs, Hi, Hy. cbn [Hook.submitError_truthy].
  set (body := Edge.body _).
  assert (B : truthy body = true /\ truthy (get "success" body) = true
              /\ get "problemId" body = JStr (Edge.problemId p)
              /\ get "status" body = JStr (lit "completed")
              /\ get "solution" body = JStr sol).
  { subst body. destruct (Edge.sessionId p); repeat split. }
  destruct B as (B1 & B2 & B3 & B4 & B5).
  assert (Hn : truthy (JStr (Edge.problemId p)) = true).
  { cbn. destruct (Edge.problemId p); [discriminate Hv|reflexivity]. }
  unfold Hook.on_response. rewrite B1, B2, B3, Hn. cbn [negb ToString].
  rewrite Hv, B4. cbn [negb].
  change (is_str (JStr (lit "completed")) (lit "completed")) with true.
  cbv iota.
  cbn [fst snd Hook.setIsSubmitting Hook.setResult Hook.emit Hook.hook
       Hook.timers Hook.effects Hook.error Hook.isSubmitting Hook.result
       Hook.setError reset ToString].
  split; [reflexivity|]. split; [exact Hv|]. split; [reflexivity|].
  split; [rewrite !delays_app; cbn; now rewrite !app_nil_r|].
  split; [reflexivity|]. split; [reflexivity|].
  eexists. split; [reflexivity|].
  cbn [Hook.initialResult Hook.id Hook.status Hook.solution].
  rewrite B3, B4, B5. repeat split.
Qed.

Lemma handler_success_at_hook_witness :
  valid_input sum_data
  /\ unit_random (model_env (Some "key"%string)
                    (Edge.FetchResponds true 200 (inl (model_answer "4"))))
  /\ Edge.http_status
       (fst (Edge.serve (model_env (Some "key"%string)
                           (Edge.FetchResponds true 200
                              (inl (model_answer "4"))))
               (post (guest_body sum_data)))) = 200%Z
  /\ Hook.timers
       (snd (Hook.submitProblem
               (hook_env (Hook.SessionIs None false)
                  (Hook.InvokeReturns
                     (Edge.body
                        (fst (Edge.serve
                                (model_env (Some "key"%string)
                                   (Edge.FetchResponds true 200
                                      (inl (model_answer "4"))))
                                (post (guest_body sum_data))))) None))
               sample_guest sum_data initial_world))
     = Hook.timers initial_world.
Proof.
  assert (Hd : valid_input sum_data) by (split; reflexivity).
  assert (Hr : unit_random (model_env (Some "key"%string)
                              (Edge.FetchResponds true 200
                                 (inl (model_answer "4")))))
    by (intros n; split; [discriminate|reflexivity]).
  assert (H2 : Edge.http_status
                 (fst (Edge.serve (model_env (Some "key"%string)
                                     (Edge.FetchResponds true 200
                                        (inl (model_answer "4"))))
                         (post (guest_body sum_data)))) = 200%Z)
    by (vm_compute; reflexivity).
  split; [exact Hd|]. split; [exact Hr|]. split; [exact H2|].
  exact (proj1 (proj2 (proj2
           (handler_success_at_hook
              (hook_env (Hook.SessionIs None false)
                 (Hook.InvokeReturns
                    (Edge.body
                       (fst (Edge.serve
                               (model_env (Some "key"%string)
                                  (Edge.FetchResponds true 200
                                     (inl (model_answer "4"))))
                               (post (guest_body sum_data))))) None))
              sample_guest sum_data initial_world None JUndefined []
              (model_env (Some "key"%string)
                 (Edge.FetchResponds true 200 (inl (model_answer "4"))))
              (post (guest_body sum_data))
              Hd eq_refl eq_refl Hr eq_refl H2 eq_refl)))).
Defined.
(* ===================================================================== *)
(** * Further properties of the helpers *)
(* ===================================================================== *)

(** X26. A string that [isValidUUID] accepts has 36 code units, with a
    hyphen at the offsets 8, 13, 18 and 23. *)
Theorem isValidUUID_shape (s : str) :
  isValidUUID s = true ->
  List.length s = 36%nat
  /\ nth 8 s 0%N = 45%N /\ nth 13 s 0%N = 45%N
  /\ nth 18 s 0%N = 45%N /\ nth 23 s 0%N = 45%N.
Proof.
  intros H. apply uuid_match in H.
  destruct H as (g1 & g2 & g3 & g4 & g5 & -> & [L1 _] & [L2 _] & [L3 _]
                 & [L4 _] & [L5 _]).
  repeat (destruct g1 as [|? g1]; cbn in L1; try discriminate L1).
  repeat (destruct g2 as [|? g2]; cbn in L2; try discriminate L2).
  repeat (destruct g3 as [|? g3]; cbn in L3; try discriminate L3).
  repeat (destruct g4 as [|? g4]; cbn in L4; try discriminate L4).
  repeat (destruct g5 as [|? g5]; cbn in L5; try discriminate L5).
  repeat split.
Qed.

Lemma isValidUUID_shape_witness :
  isValidUUID sample_uuid = true /\ List.length sample_uuid = 36%nat.
Proof.
  assert (H : isValidUUID sample_uuid = true) by (vm_compute; reflexivity).
  split; [exact H|exact (proj1 (isValidUUID_shape sample_uuid H))].
Defined.

Lemma subsequence_refl (s : str) : subsequence s s.
Proof. induction s; constructor; assumption. Qed.

Lemma subsequence_nil (s : str) : subsequence [] s.
Proof. induction s; constructor; assumption. Qed.

Lemma subsequence_trans (a b c : str) :
  subsequence a b -> subsequence b c -> subsequence a c.
Proof.
  intros Hab Hbc. revert a Hab.
  induction Hbc as [|x u s Hus IH|x u s Hus IH]; intros a Hab.
  - exact Hab.
  - constructor. now apply IH.
  - inversion Hab; subst; constructor; now apply IH.
Qed.

Lemma subsequence_app (a b c d : str) :
  subsequence a b -> subsequence c d -> subsequence (a ++ c) (b ++ d).
Proof.
  intros Hab Hcd. induction Hab; cbn; try constructor; assumption.
Qed.

Lemma subsequence_rev (a b : str) :
  subsequence a b -> subsequence (rev a) (rev b).
Proof.
  induction 1 as [|c u s H IH|c u s H IH]; cbn.
  - constructor.
  - rewrite <- (app_nil_r (rev u)).
    apply subsequence_app; [exact IH|apply subsequence_nil].
  - apply subsequence_app; [exact IH|apply subsequence_refl].
Qed.

Lemma subsequence_length (a b : str) :
  subsequence a b -> (List.length a <= List.length b)%nat.
Proof. induction 1; cbn; lia. Qed.

Lemma trimStart_subsequence (s : str) : subsequence (trimStart s) s.
Proof.
  induction s as [|c s IH]; cbn; [constructor|].
  destruct (is_space c); [now constructor|apply subsequence_refl].
Qed.

Lemma trim_subsequence (s : str) : subsequence (trim s) s.
Proof.
  unfold trim, trimEnd.
  apply (subsequence_trans _ (trimStart s)); [|apply trimStart_subsequence].
  rewrite <- (rev_involutive (trimStart s)) at 2.
  apply subsequence_rev, trimStart_subsequence.
Qed.

(** Replacing every match by the empty text only deletes. *)
Lemma replace_from_deletes (m : matcher) (aft : str) :
  forall skip bef st,
    subsequence
      (fst (replace_from m (fun _ (st : unit) => ([], st)) skip bef aft st))
      aft.
Proof.
  induction aft as [|c aft IH]; intros skip bef st.
  - destruct skip; cbn [replace_from]; [|constructor].
    destruct (match_at m bef []); constructor.
  - destruct skip as [|skip]; cbn [replace_from].
    + destruct (match_at m bef (c :: aft)) as [y|].
      * destruct (List.length (c :: aft) - List.length (after y))%nat as [|len].
        -- specialize (IH 0%nat (c :: bef) st).
           destruct (replace_from _ _ 0 (c :: bef) aft st) as [out st2].
           cbn [fst app] in *. now constructor.
        -- specialize (IH len (c :: bef) st).
           destruct (replace_from _ _ len (c :: bef) aft st) as [out st2].
           cbn [fst app] in *. now constructor.
      * specialize (IH 0%nat (c :: bef) st).
        destruct (replace_from _ _ 0 (c :: bef) aft st) as [out st2].
        cbn [fst] in *. now constructor.
    + constructor. apply IH.
Qed.

Lemma replace_all_deletes (m : matcher) (s : str) :
  subsequence (replace_all m [] s) s.
Proof. apply replace_from_deletes. Qed.

(** X27. [sanitizeInput] only deletes: its result is what is left of the
    input once some code units are taken out, in the same order, so it is
    never longer than the input and the empty text stays empty. *)
Theorem sanitizeInput_deletes (s : str) :
  subsequence (sanitizeInput s) s
  /\ (List.length (sanitizeInput s) <= List.length s)%nat
  /\ sanitizeInput [] = [].
Proof.
  assert (H : subsequence (sanitizeInput s) s).
  { unfold sanitizeInput.
    eapply subsequence_trans; [apply trim_subsequence|].
    eapply subsequence_trans; [apply replace_all_deletes|].
    eapply subsequence_trans; [apply replace_all_deletes|].
    apply replace_all_deletes. }
  split; [exact H|]. split; [now apply subsequence_length|].
  vm_compute. reflexivity.
Qed.

(** X28. One pass of [sanitizeInput] does not reach a fixed point: on a
    script block nested in the opening tag of another, the inner block is
    removed and what is left is a script block, which a second pass
    removes. *)
Theorem sanitizeInput_single_pass :
  sanitizeInput nested_script = lit "<script>alert(1)</script>"
  /\ script_block (sanitizeInput nested_script)
  /\ sanitizeInput (sanitizeInput nested_script) = []
  /\ exists s, sanitizeInput (sanitizeInput s) <> sanitizeInput s.
Proof.
  assert (E : sanitizeInput nested_script = lit "<script>alert(1)</script>")
    by (vm_compute; reflexivity).
  split; [exact E|]. split; [|split].
  - rewrite E. exists (lit "<script"), (lit ">alert(1)"), (lit "</script>").
    split; [reflexivity|]. split; [reflexivity|]. split; [reflexivity|].
    split; [|reflexivity].
    intros p q Hq.
    assert (In 60%N (lit ">alert(1)"))
      by (rewrite Hq; apply in_or_app; right; left; reflexivity).
    cbn in H. repeat (destruct H as [H|H]; [discriminate H|]). destruct H.
  - rewrite E. vm_compute. reflexivity.
  - exists nested_script. rewrite E. vm_compute. discriminate.
Qed.

Section Generated.

Variable random : nat -> Q.
Hypothesis random_unit : forall n, (0 <= random n)%Q /\ (random n < 1)%Q.

Lemma y_digit_variant (n : nat) :
  In (y_digit random n) [56%N; 57%N; 97%N; 98%N].
Proof.
  unfold y_digit.
  pose proof (variant_range _ (random_nibble_range _ (proj1 (random_unit n))
                                                     (proj2 (random_unit n))))
    as H.
  set (v := Z.lor _ _) in *.
  assert (E : (v = 8 \/ v = 9 \/ v = 10 \/ v = 11)%Z) by lia.
  destruct E as [-> | [-> | [-> | ->]]]; cbn; auto.
Qed.

End Generated.

(** X29. Each identifier [generateUUID] makes is a version 4 UUID of the
    RFC 4122 variant: the digit at offset 14 is 4 and the one at offset 19
    is 8, 9, a or b.  Making it draws 31 random numbers, one for each
    placeholder of the template. *)
Theorem generateUUID_version (random : nat -> Q) (calls : nat) :
  (forall n, (0 <= random n)%Q /\ (random n < 1)%Q) ->
  nth 14 (fst (generateUUID random calls)) 0%N = 52%N
  /\ In (nth 19 (fst (generateUUID random calls)) 0%N)
        [56%N; 57%N; 97%N; 98%N]
  /\ snd (generateUUID random calls) = (31 + calls)%nat.
Proof.
  intros H. rewrite (generateUUID_digits random H calls). cbn [fst snd nth].
  split; [reflexivity|]. split; [|reflexivity].
  apply y_digit_variant. exact H.
Qed.

Lemma generateUUID_version_witness :
  (forall n : nat, (0 <= 1 # 2)%Q /\ (1 # 2 < 1)%Q)
  /\ nth 14 (fst (generateUUID (fun _ => 1 # 2) 0)) 0%N = 52%N.
Proof.
  assert (H : forall n : nat, (0 <= 1 # 2)%Q /\ (1 # 2 < 1)%Q)
    by (intros n; split; [discriminate|reflexivity]).
  split; [exact H|].
  exact (proj1 (generateUUID_version (fun _ => 1 # 2) 0 H)).
Defined.
